(** * Vaidya-AI backend: key routing and resilience subsystem

    A shallow embedding of the maintenance service
    ([services/maintenance.py]), the encryption service
    ([services/encryption.py]), the Gemini provider adapter
    ([services/providers/gemini.py]) and the model router's fallback loop,
    together with the properties the specification states about them. *)

From Stdlib Require Import List String Ascii ZArith Lia Bool Arith.
From Stdlib Require Import DecimalString.
From Stdlib.Strings Require Import Byte.
From Stdlib Require PrimFloat.
Import ListNotations.

Local Open Scope string_scope.

(** * Python values, exceptions and effects *)

Module Py.

(** The exceptions the embedded code can raise or catch.  The class is
    what the [except] clauses of the source dispatch on;
    [ValueErrorFrom prefix e] is [ValueError(f"{prefix}{str(e)}")]. *)
Inductive exn : Type :=
| ValueError (msg : string)
| ValueErrorFrom (prefix : string) (cause : exn)
| AttributeError
| KeyError
| IndexError
| TypeError
| SyntaxError
| JSONDecodeError
| InvalidTag
| BinasciiError
| UnicodeDecodeError
| TimeoutException
| RequestError (msg : string)
| RuntimeError (msg : string)
| UnicodeEncodeError
| OSError (msg : string).

(** Outcome of a Python expression: a value or a raised exception. *)
Inductive res (A : Type) : Type :=
| Ok (a : A)
| Raise (e : exn).
Arguments Ok {A} a.
Arguments Raise {A} e.

Definition res_bind {A B} (r : res A) (k : A -> res B) : res B :=
  match r with
  | Ok a => k a
  | Raise e => Raise e
  end.

(** Values of the literal fragment of Python shared by
    [ast.literal_eval] and [json]: [None], booleans, integers, floats,
    strings, lists and dictionaries.  A dictionary keeps its items in
    insertion order.  A string holds the UTF-8 bytes of its text, a lone
    surrogate as the three bytes the [surrogatepass] handler writes. *)
#[warnings="-register-all"]
Inductive pyval : Type :=
| PNone
| PBool (b : bool)
| PInt (z : Z)
| PFloat (f : PrimFloat.float)
| PStr (s : string)
| PList (l : list pyval)
| PDict (items : list (pyval * pyval)).

(** [bool(v)]: the truth value tested by [if v] and [if not v]. *)
Definition truthy (v : pyval) : bool :=
  match v with
  | PNone => false
  | PBool b => b
  | PInt z => negb (z =? 0)%Z
  | PFloat f => negb (PrimFloat.eqb f PrimFloat.zero)
  | PStr s => negb (String.eqb s "")
  | PList l => match l with [] => false | _ :: _ => true end
  | PDict items => match items with [] => false | _ :: _ => true end
  end.

(** Truth value of an [Optional[str]] argument. *)
Definition truthy_opt (o : option string) : bool :=
  match o with
  | None => false
  | Some s => negb (String.eqb s "")
  end.

(** An [Optional[str]] as a value. *)
Definition of_opt (o : option string) : pyval :=
  match o with
  | None => PNone
  | Some s => PStr s
  end.

(** [v == s] for a string literal [s]: only an equal string is equal. *)
Definition eq_str (v : pyval) (s : string) : bool :=
  match v with
  | PStr s' => String.eqb s' s
  | _ => false
  end.

(** Does the dictionary key [k] equal the string [key]? *)
Definition key_is (key : string) (k : pyval) : bool := eq_str k key.

(** [d.get(key, default)] on the items of a dictionary. *)
Fixpoint dict_get (items : list (pyval * pyval)) (key : string)
         (default : pyval) : pyval :=
  match items with
  | [] => default
  | (k, v) :: rest =>
      if key_is key k then v else dict_get rest key default
  end.

(** [d[key] = v] on the items of a dictionary: an existing key keeps its
    position, a new key is appended. *)
Fixpoint dict_set (items : list (pyval * pyval)) (key : string)
         (v : pyval) : list (pyval * pyval) :=
  match items with
  | [] => [(PStr key, v)]
  | (k, v0) :: rest =>
      if key_is key k then (k, v) :: rest
      else (k, v0) :: dict_set rest key v
  end.

Definition is_dict (x : pyval) : bool :=
  match x with PDict _ => true | _ => false end.

(** [x.get(key, default)]: only dictionaries have the method. *)
Definition get (x : pyval) (key : string) (default : pyval) : res pyval :=
  match x with
  | PDict items => Ok (dict_get items key default)
  | _ => Raise AttributeError
  end.

(** [x[key] = v] for a string key. *)
Definition setitem (x : pyval) (key : string) (v : pyval) : res pyval :=
  match x with
  | PDict items => Ok (PDict (dict_set items key v))
  | _ => Raise TypeError
  end.

(** A byte [10xxxxxx] continues the character begun before it. *)
Definition continues (c : ascii) : bool :=
  match c with
  | Ascii _ _ _ _ _ _ b6 b7 => b7 && negb b6
  end.

(** The number of characters of a text: [len(s)] for a string. *)
Fixpoint str_len (s : string) : nat :=
  match s with
  | EmptyString => 0
  | String c rest => if continues c then str_len rest else S (str_len rest)
  end.

(** The bytes that continue the character begun before [s]. *)
Fixpoint continuation (s : string) : string :=
  match s with
  | String c rest =>
      if continues c then String c (continuation rest) else EmptyString
  | EmptyString => EmptyString
  end.

(** [x[0]]. *)
Definition index0 (x : pyval) : res pyval :=
  match x with
  | PList (v :: _) => Ok v
  | PList [] => Raise IndexError
  | PStr (String c rest) => Ok (PStr (String c (continuation rest)))
  | PStr EmptyString => Raise IndexError
  | PDict _ => Raise KeyError
  | _ => Raise TypeError
  end.

(** [len(x)]. *)
Definition len (x : pyval) : res Z :=
  match x with
  | PStr s => Ok (Z.of_nat (str_len s))
  | PList l => Ok (Z.of_nat (List.length l))
  | PDict items => Ok (Z.of_nat (List.length items))
  | _ => Raise TypeError
  end.

(** [x == 0]: [False == 0] and [0.0 == 0] hold in Python. *)
Definition eq_zero (x : pyval) : bool :=
  match x with
  | PInt z => (z =? 0)%Z
  | PFloat f => PrimFloat.eqb f PrimFloat.zero
  | PBool b => negb b
  | _ => false
  end.

(** [str(n)] for an integer. *)
Definition decimal (z : Z) : string := NilZero.string_of_int (Z.to_int z).

(** ** State and exceptions

    A computation over a world [W]: it returns a value or raises, and in
    both cases leaves a world behind (a raised exception does not undo the
    writes made before it). *)
Definition M (W A : Type) : Type := W -> res A * W.

Definition ret {W A} (a : A) : M W A := fun w => (Ok a, w).

Definition raise {W A} (e : exn) : M W A := fun w => (Raise e, w).

Definition bind {W A B} (m : M W A) (k : A -> M W B) : M W B :=
  fun w =>
    match m w with
    | (Ok a, w') => k a w'
    | (Raise e, w') => (Raise e, w')
    end.

Definition lift {W A} (r : res A) : M W A := fun w => (r, w).

(** [try: body except Exception as e: handler(e)]. *)
Definition try_except {W A} (body : M W A) (handler : exn -> M W A)
  : M W A :=
  fun w =>
    match body w with
    | (Ok a, w') => (Ok a, w')
    | (Raise e, w') => handler e w'
    end.

Definition gets {W A} (f : W -> A) : M W A := fun w => (Ok (f w), w).

Definition modify {W} (f : W -> W) : M W unit := fun w => (Ok tt, f w).

End Py.

Import Py.

Declare Scope py_scope.
Delimit Scope py_scope with py.
Notation "x <- m ;; k" := (bind m (fun x => k))
  (at level 61, m at next level, right associativity) : py_scope.
Notation "m ;;; k" := (bind m (fun _ => k))
  (at level 61, right associativity) : py_scope.

(** * The maintenance service ([services/maintenance.py]) *)

Module Maintenance.

(** A row of the [api_keys] table. *)
Record api_key := {
  key_id : string;
  key_provider : string;
  key_feature : string;
  key_value : string;
  key_priority : Z;
  key_status : string;
  key_failure_count : Z
}.

(** A row of the [system_flags] table. *)
Record system_flag := {
  flag_name : string;
  flag_value : string;
  updated_at : string;
  updated_by : option string
}.

(** A call made on the notification service. *)
Inductive notification : Type :=
| notify_maintenance_triggered (level reason : string)
                               (feature : option string)
| notify_admin_override (admin_id action : string)
                        (previous_level previous_reason : pyval)
| notify_fallback (from_key_id to_key_id provider feature : string).

(** The world the service runs in: the two tables of the backing store,
    the number of clock readings taken so far, and the calls made on the
    notification service, oldest first. *)
Record world := {
  api_keys : list api_key;
  system_flags : list system_flag;
  ticks : nat;
  outbox : list notification
}.

Definition set_flags (fs : list system_flag) (w : world) : world :=
  {| api_keys := api_keys w; system_flags := fs;
     ticks := ticks w; outbox := outbox w |}.

(** The dictionary [get_maintenance_status] returns. *)
Record maintenance_status := {
  in_maintenance : bool;
  status_level : pyval;
  status_reason : pyval;
  status_feature : pyval;
  status_triggered_by : pyval;
  status_triggered_at : pyval
}.

Definition not_in_maintenance : maintenance_status :=
  {| in_maintenance := false; status_level := PNone; status_reason := PNone;
     status_feature := PNone; status_triggered_by := PNone;
     status_triggered_at := PNone |}.

(** The dictionary [exit_maintenance] returns: ["exited_by"] and
    ["exited_at"] are present only after an actual exit. *)
Record exit_result := {
  result_in_maintenance : bool;
  result_message : string;
  result_exited_by : option (option string);
  result_exited_at : option string
}.

Section Service.

(** The interpreter and the collaborators the service calls into:
    [ast.literal_eval], [str] on a dictionary,
    [datetime.now().isoformat()] at the n-th clock reading, and the
    outcome of a call on the notification service. *)
Variable literal_eval : string -> res pyval.
Variable py_str : pyval -> string.
Variable isoformat : nat -> string.
Variable deliver : notification -> res unit.

(** [datetime.now().isoformat()] *)
Definition now : M world string :=
  fun w =>
    (Ok (isoformat (ticks w)),
     {| api_keys := api_keys w; system_flags := system_flags w;
        ticks := S (ticks w); outbox := outbox w |}).

(** A call on the notification service: the call is made, then it
    returns or raises. *)
Definition notify (n : notification) : M world unit :=
  fun w =>
    (deliver n,
     {| api_keys := api_keys w; system_flags := system_flags w;
        ticks := ticks w; outbox := outbox w ++ [n] |}).

(** [table("api_keys").select(...).eq("feature", feature).execute().data] *)
Definition select_keys_by_feature (f : string) (w : world)
  : list api_key :=
  filter (fun k => String.eqb (key_feature k) f) (api_keys w).

(** [table("system_flags").select(...).eq("flag_name", name).execute().data] *)
Definition select_flags (name : string) (w : world) : list system_flag :=
  filter (fun r => String.eqb (flag_name r) name) (system_flags w).

(** [table("system_flags").update({...}).eq("flag_name", name).execute()] *)
Definition update_flags (name value at_ : string) (by_ : option string)
  : M world unit :=
  modify (fun w =>
    set_flags
      (map (fun r =>
              if String.eqb (flag_name r) name then
                {| flag_name := flag_name r; flag_value := value;
                   updated_at := at_; updated_by := by_ |}
              else r)
           (system_flags w))
      w).

(** [table("system_flags").insert({...}).execute()] *)
Definition insert_flag (name value at_ : string) (by_ : option string)
  : M world unit :=
  modify (fun w =>
    set_flags
      (system_flags w ++
         [{| flag_name := name; flag_value := value;
             updated_at := at_; updated_by := by_ |}])
      w).

(** [sum(1 for k in data if k["status"] == s)] *)
Definition count_status (s : string) (data : list api_key) : Z :=
  Z.of_nat
    (List.length (filter (fun k => String.eqb (key_status k) s) data)).

(** [MaintenanceService.evaluate_maintenance_trigger] *)
Definition evaluate_maintenance_trigger (feature : string) (failures : Z)
  : M world (option string) :=
  (data <- gets (select_keys_by_feature feature) ;;
   match data with
   | [] => ret (Some "soft")
   | _ :: _ =>
       let active_keys := count_status "active" data in
       let degraded_keys := count_status "degraded" data in
       if ((active_keys =? 0) && (degraded_keys =? 0))%Z then
         ret (Some "hard")
       else if ((active_keys =? 0) && (degraded_keys >? 0))%Z then
         ret (Some "soft")
       else if (failures >=? 5)%Z then
         ret (Some "soft")
       else ret None
   end)%py.

(** [MaintenanceService.get_maintenance_status] *)
Definition get_maintenance_status : M world maintenance_status :=
  (data <- gets (select_flags "maintenance_mode") ;;
   match data with
   | [] => ret not_in_maintenance
   | row :: _ =>
       try_except
         (fv <- lift (literal_eval (flag_value row)) ;;
          is_active <- lift (get fv "is_active" (PBool false)) ;;
          if negb (truthy is_active) then ret not_in_maintenance
          else
            l <- lift (get fv "level" PNone) ;;
            r <- lift (get fv "reason" PNone) ;;
            f <- lift (get fv "feature" PNone) ;;
            tb <- lift (get fv "triggered_by" PNone) ;;
            ta <- lift (get fv "triggered_at" PNone) ;;
            ret {| in_maintenance := true; status_level := l;
                   status_reason := r; status_feature := f;
                   status_triggered_by := tb;
                   status_triggered_at := ta |})
         (fun _ => ret not_in_maintenance)
   end)%py.

(** The items of the [maintenance_data] dictionary of
    [enter_maintenance], in the order the source writes them. *)
Definition maintenance_items (level reason : string)
           (feature triggered_by : option string) (at_ : string)
  : list (pyval * pyval) :=
  [ (PStr "level", PStr level);
    (PStr "reason", PStr reason);
    (PStr "feature", of_opt feature);
    (PStr "triggered_by", of_opt triggered_by);
    (PStr "triggered_at", PStr at_);
    (PStr "is_active", PBool true) ].

(** The [maintenance_data] dictionary of [enter_maintenance]. *)
Definition maintenance_data (level reason : string)
           (feature triggered_by : option string) (at_ : string)
  : pyval :=
  PDict (maintenance_items level reason feature triggered_by at_).

Definition invalid_level (level : string) : exn :=
  ValueError ("Invalid maintenance level: " ++ level
              ++ ". Must be 'soft' or 'hard'").

(** [MaintenanceService.enter_maintenance] *)
Definition enter_maintenance (level reason : string)
           (feature triggered_by : option string)
  : M world maintenance_status :=
  (if negb (String.eqb level "soft" || String.eqb level "hard") then
     raise (invalid_level level)
   else
     current_status <- get_maintenance_status ;;
     if in_maintenance current_status
        && negb (eq_str (status_level current_status) "soft"
                 && String.eqb level "hard")
     then ret current_status
     else
       at_ <- now ;;
       let flag_value :=
         maintenance_data level reason feature triggered_by at_ in
       existing_flag <- gets (select_flags "maintenance_mode") ;;
       match existing_flag with
       | _ :: _ =>
           u <- now ;;
           update_flags "maintenance_mode" (py_str flag_value) u
                        triggered_by
       | [] =>
           u <- now ;;
           insert_flag "maintenance_mode" (py_str flag_value) u
                       triggered_by
       end ;;;
       try_except
         (notify (notify_maintenance_triggered level reason feature))
         (fun _ => ret tt) ;;;
       ret {| in_maintenance := true; status_level := PStr level;
              status_reason := PStr reason;
              status_feature := of_opt feature;
              status_triggered_by := of_opt triggered_by;
              status_triggered_at := PStr at_ |})%py.

(** [MaintenanceService.exit_maintenance] *)
Definition exit_maintenance (exited_by : option string)
  : M world exit_result :=
  (current_status <- get_maintenance_status ;;
   if negb (in_maintenance current_status) then
     ret {| result_in_maintenance := false;
            result_message := "Not in maintenance mode";
            result_exited_by := None; result_exited_at := None |}
   else
     flag_result <- gets (select_flags "maintenance_mode") ;;
     match flag_result with
     | row :: _ =>
         fv <- lift (literal_eval (flag_value row)) ;;
         fv <- lift (setitem fv "is_active" (PBool false)) ;;
         t <- now ;;
         fv <- lift (setitem fv "exited_at" (PStr t)) ;;
         fv <- lift (setitem fv "exited_by" (of_opt exited_by)) ;;
         u <- now ;;
         update_flags "maintenance_mode" (py_str fv) u exited_by
     | [] => ret tt
     end ;;;
     (if truthy_opt exited_by then
        try_except
          (notify (notify_admin_override
                     (match exited_by with Some a => a | None => "" end)
                     "exit_maintenance"
                     (status_level current_status)
                     (status_reason current_status)))
          (fun _ => ret tt)
      else ret tt) ;;;
     t <- now ;;
     ret {| result_in_maintenance := false;
            result_message := "Maintenance mode exited";
            result_exited_by := Some exited_by;
            result_exited_at := Some t |})%py.

End Service.

(** ** Observations on the store, used to state the properties *)

(** Some key in [data] has status [s]. *)
Definition has_status (s : string) (data : list api_key) : bool :=
  existsb (fun k => String.eqb (key_status k) s) data.

(** The row [r] after an update of its value. *)
Definition rewritten (value at_ : string) (by_ : option string)
           (r : system_flag) : system_flag :=
  {| flag_name := flag_name r; flag_value := value;
     updated_at := at_; updated_by := by_ |}.

Section Observers.

Variable literal_eval : string -> res pyval.

(** The items of the stored maintenance flag, when the first
    [maintenance_mode] row parses to a dictionary. *)
Definition stored_flag (w : world) : option (list (pyval * pyval)) :=
  match select_flags "maintenance_mode" w with
  | [] => None
  | row :: _ =>
      match literal_eval (flag_value row) with
      | Ok (PDict items) => Some items
      | _ => None
      end
  end.

(** The stored flag, when it marks an active episode. *)
Definition active_flag (w : world) : option (list (pyval * pyval)) :=
  match stored_flag w with
  | Some items =>
      if truthy (dict_get items "is_active" (PBool false))
      then Some items else None
  | None => None
  end.

(** The status reported for the items of an active flag. *)
Definition status_of (items : list (pyval * pyval))
  : maintenance_status :=
  {| in_maintenance := true;
     status_level := dict_get items "level" PNone;
     status_reason := dict_get items "reason" PNone;
     status_feature := dict_get items "feature" PNone;
     status_triggered_by := dict_get items "triggered_by" PNone;
     status_triggered_at := dict_get items "triggered_at" PNone |}.

(** The items [exit_maintenance] writes back for the flag [items]. *)
Definition exited_items (items : list (pyval * pyval)) (at_ : string)
           (exited_by : option string) : list (pyval * pyval) :=
  dict_set
    (dict_set (dict_set items "is_active" (PBool false))
              "exited_at" (PStr at_))
    "exited_by" (of_opt exited_by).

End Observers.

Section Outcomes.

Variable py_str : pyval -> string.
Variable isoformat : nat -> string.

(** The world after the upgrade from "soft" to "hard". *)
Definition upgraded (w : world) (reason : string)
           (feature triggered_by : option string) : world :=
  {| api_keys := api_keys w;
     system_flags :=
       map (fun r =>
              if String.eqb (flag_name r) "maintenance_mode" then
                rewritten
                  (py_str (maintenance_data "hard" reason feature
                             triggered_by (isoformat (ticks w))))
                  (isoformat (S (ticks w))) triggered_by r
              else r)
           (system_flags w);
     ticks := S (S (ticks w));
     outbox :=
       outbox w ++ [notify_maintenance_triggered "hard" reason feature]
  |}.

(** The world after [enter_maintenance] has written a new record:
    existing [maintenance_mode] flags are rewritten, and a flag is
    inserted when there is none. *)
Definition entered (w : world) (level reason : string)
           (feature triggered_by : option string) : world :=
  let value :=
    py_str (maintenance_data level reason feature triggered_by
              (isoformat (ticks w))) in
  {| api_keys := api_keys w;
     system_flags :=
       match select_flags "maintenance_mode" w with
       | _ :: _ =>
           map (fun r =>
                  if String.eqb (flag_name r) "maintenance_mode" then
                    rewritten value (isoformat (S (ticks w)))
                              triggered_by r
                  else r)
               (system_flags w)
       | [] =>
           system_flags w ++
           [{| flag_name := "maintenance_mode"; flag_value := value;
               updated_at := isoformat (S (ticks w));
               updated_by := triggered_by |}]
       end;
     ticks := S (S (ticks w));
     outbox :=
       outbox w ++ [notify_maintenance_triggered level reason feature]
  |}.

(** The world after [exit_maintenance] has closed the episode whose
    flag holds [items]. *)
Definition exited (w : world) (items : list (pyval * pyval))
           (exited_by : option string) : world :=
  {| api_keys := api_keys w;
     system_flags :=
       map (fun r =>
              if String.eqb (flag_name r) "maintenance_mode" then
                rewritten
                  (py_str (PDict (exited_items items
                                    (isoformat (ticks w)) exited_by)))
                  (isoformat (S (ticks w))) exited_by r
              else r)
           (system_flags w);
     ticks := S (S (S (ticks w)));
     outbox :=
       outbox w ++
       (if truthy_opt exited_by then
          [notify_admin_override
             (match exited_by with Some a => a | None => "" end)
             "exit_maintenance"
             (dict_get items "level" PNone)
             (dict_get items "reason" PNone)]
        else [])
  |}.

(** What [exit_maintenance] returns when there is nothing to exit. *)
Definition nothing_to_exit : exit_result :=
  {| result_in_maintenance := false;
     result_message := "Not in maintenance mode";
     result_exited_by := None; result_exited_at := None |}.

End Outcomes.

End Maintenance.

(** * A reference interpreter for the flag codec

    [str] on a dictionary and [ast.literal_eval] belong to the Python
    runtime, and the service is parameterised over them.  This module gives
    one concrete pair, restricted to the layout [str] prints for a flat
    dictionary with string keys, so that the service can be run on concrete
    stores. *)

Module Literal.

(** [repr(v)], for strings free of quotes, backslashes and control
    characters; of the floats only [nan] is printed. *)
Fixpoint repr (v : pyval) : string :=
  match v with
  | PNone => "None"
  | PBool true => "True"
  | PBool false => "False"
  | PInt z => decimal z
  | PFloat _ => "nan"
  | PStr s => "'" ++ s ++ "'"
  | PList l =>
      "[" ++
      (fix elements (l : list pyval) : string :=
         match l with
         | [] => ""
         | x :: [] => repr x
         | x :: r => repr x ++ ", " ++ elements r
         end) l
      ++ "]"
  | PDict items =>
      "{" ++
      (fix entries (l : list (pyval * pyval)) : string :=
         match l with
         | [] => ""
         | (k, x) :: [] => repr k ++ ": " ++ repr x
         | (k, x) :: r => repr k ++ ": " ++ repr x ++ ", " ++ entries r
         end) items
      ++ "}"
  end.

(** The remainder of [s] after the prefix [p], if [s] starts with it. *)
Fixpoint strip_prefix (p s : string) : option string :=
  match p, s with
  | EmptyString, _ => Some s
  | String a p', String b s' =>
      if Ascii.eqb a b then strip_prefix p' s' else None
  | String _ _, EmptyString => None
  end.

(** The body of a single-quoted string whose opening quote has been
    consumed, and what follows the closing quote. *)
Fixpoint read_quoted (s : string) : option (string * string) :=
  match s with
  | EmptyString => None
  | String c rest =>
      if Ascii.eqb c "'"%char then Some (EmptyString, rest)
      else if Ascii.eqb c "\"%char then None
      else
        match read_quoted rest with
        | Some (body, r) => Some (String c body, r)
        | None => None
        end
  end.

(** An atom: [None], [True], [False] or a quoted string. *)
Definition read_atom (s : string) : option (pyval * string) :=
  match strip_prefix "None" s with
  | Some r => Some (PNone, r)
  | None =>
  match strip_prefix "True" s with
  | Some r => Some (PBool true, r)
  | None =>
  match strip_prefix "False" s with
  | Some r => Some (PBool false, r)
  | None =>
  match strip_prefix "'" s with
  | Some r =>
      match read_quoted r with
      | Some (body, r') => Some (PStr body, r')
      | None => None
      end
  | None => None
  end end end end.

(** The entries of a dictionary display after its opening brace, up to
    and including the closing brace, which must end the input.  A key
    written twice keeps its last value. *)
Fixpoint read_entries (fuel : nat) (acc : list (pyval * pyval))
         (s : string) : option (list (pyval * pyval)) :=
  match fuel with
  | O => None
  | S fuel' =>
      match strip_prefix "'" s with
      | None => None
      | Some r0 =>
      match read_quoted r0 with
      | None => None
      | Some (k, r1) =>
      match strip_prefix ": " r1 with
      | None => None
      | Some r2 =>
      match read_atom r2 with
      | None => None
      | Some (x, r3) =>
          let acc' := dict_set acc k x in
          if String.eqb r3 "}" then Some acc'
          else
            match strip_prefix ", " r3 with
            | Some r4 => read_entries fuel' acc' r4
            | None => None
            end
      end end end end
  end.

Definition malformed : exn := ValueError "malformed node or string".

(** [ast.literal_eval(s)] on atoms and flat dictionaries; anything else
    is rejected as malformed. *)
Definition literal_eval (s : string) : res pyval :=
  match strip_prefix "{" s with
  | Some r =>
      if String.eqb r "}" then Ok (PDict [])
      else
        match read_entries (String.length r) [] r with
        | Some items => Ok (PDict items)
        | None => Raise malformed
        end
  | None =>
      match read_atom s with
      | Some (v, EmptyString) => Ok v
      | _ => Raise malformed
      end
  end.

(** A clock whose n-th reading prints as [T<n>]. *)
Definition isoformat (n : nat) : string := "T" ++ decimal (Z.of_nat n).

(** A notification service whose calls all return. *)
Definition deliver (n : Maintenance.notification) : res unit := Ok tt.

End Literal.


(** * Concrete stores *)

Module Examples.

Import Maintenance.

Definition flag (value : string) : system_flag :=
  {| flag_name := "maintenance_mode"; flag_value := value;
     updated_at := "T1"; updated_by := None |}.

Definition store (keys : list api_key) (flags : list system_flag)
  : world :=
  {| api_keys := keys; system_flags := flags; ticks := 2; outbox := [] |}.

Definition key (i : string) (p : Z) (s : string) : api_key :=
  {| key_id := i; key_provider := "gemini"; key_feature := "chat";
     key_value := "secret-" ++ i; key_priority := p; key_status := s;
     key_failure_count := 0 |}.

Definition soft_flag : string :=
  "{'level': 'soft', 'reason': 'keys down', 'feature': 'chat', "
  ++ "'triggered_by': None, 'triggered_at': 'T0', 'is_active': True}".

Definition hard_flag : string :=
  "{'level': 'hard', 'reason': 'keys down', 'feature': 'chat', "
  ++ "'triggered_by': None, 'triggered_at': 'T0', 'is_active': True}".

Definition inactive_flag : string :=
  "{'level': 'soft', 'reason': 'keys down', 'is_active': False}".

Definition in_soft : world := store [] [flag soft_flag].
Definition in_hard : world := store [] [flag hard_flag].

Definition soft_items : list (pyval * pyval) :=
  [ (PStr "level", PStr "soft"); (PStr "reason", PStr "keys down");
    (PStr "feature", PStr "chat"); (PStr "triggered_by", PNone);
    (PStr "triggered_at", PStr "T0"); (PStr "is_active", PBool true) ].

Definition hard_items : list (pyval * pyval) :=
  [ (PStr "level", PStr "hard"); (PStr "reason", PStr "keys down");
    (PStr "feature", PStr "chat"); (PStr "triggered_by", PNone);
    (PStr "triggered_at", PStr "T0"); (PStr "is_active", PBool true) ].

End Examples.

(** * The encryption service ([services/encryption.py]) *)

Module Encryption.

Definition bytes : Type := list byte.

(** The source of [os.urandom]: an unbounded tape of bytes, the number of
    bytes drawn from it so far, and the exception with which the
    operating system refuses a call made at a position of the tape, if it
    refuses it. *)
Record entropy := {
  tape : nat -> byte;
  drawn : nat;
  outage : nat -> option exn
}.

(** The bytes the next [os.urandom(n)] returns. *)
Definition upcoming (n : nat) (e : entropy) : bytes :=
  map (tape e) (seq (drawn e) n).

(** The source after [n] more bytes have been drawn. *)
Definition advance (n : nat) (e : entropy) : entropy :=
  {| tape := tape e; drawn := drawn e + n; outage := outage e |}.

(** [os.urandom(n)] *)
Definition urandom (n : nat) : M entropy bytes :=
  fun e =>
    match outage e (drawn e) with
    | Some x => (Raise x, e)
    | None => (Ok (upcoming n e), advance n e)
    end.

(** The service object: [self.key]; [self.cipher] is [AESGCM(self.key)]. *)
Record EncryptionService := {
  key : bytes
}.

Definition key_not_found : exn :=
  ValueError ("Encryption key not found. Set ENCRYPTION_KEY environment "
              ++ "variable with a base64-encoded 32-byte key.").

Definition bad_key_length (n : nat) : exn :=
  ValueError ("Encryption key must be 32 bytes (256 bits), got "
              ++ decimal (Z.of_nat n) ++ " bytes. "
              ++ "Generate a valid key with: python -c 'import os, base64; "
              ++ "print(base64.b64encode(os.urandom(32)).decode())'").

Definition empty_plaintext : exn :=
  ValueError "Cannot encrypt empty plaintext".

Definition empty_ciphertext : exn :=
  ValueError "Cannot decrypt empty ciphertext".

Definition too_short : exn :=
  ValueError "Invalid ciphertext: too short".

Definition authentication_failed : exn :=
  ValueError ("Failed to decrypt API key: Authentication tag verification "
              ++ "failed. The data may have been tampered with or the "
              ++ "wrong key was used.").

Section Service.

(** The library functions the service is built on:
    [base64.b64encode(d).decode('utf-8')], [base64.b64decode(s)],
    [s.encode('utf-8')], which raises [UnicodeEncodeError] on a text
    that holds a lone surrogate, [b.decode('utf-8')], and
    [AESGCM(key).encrypt(nonce, data, None)] and
    [AESGCM(key).decrypt(nonce, data, None)], the latter raising
    [InvalidTag] when the tag does not verify. *)
Variable b64encode : bytes -> string.
Variable b64decode : string -> res bytes.
Variable utf8_encode : string -> res bytes.
Variable utf8_decode : bytes -> res string.
Variable aesgcm_encrypt : bytes -> bytes -> bytes -> res bytes.
Variable aesgcm_decrypt : bytes -> bytes -> bytes -> res bytes.

(** [EncryptionService.__init__]; [getenv] is the value of the
    [ENCRYPTION_KEY] environment variable. *)
Definition init (encryption_key getenv : option string)
  : res EncryptionService :=
  let key_b64 :=
    if truthy_opt encryption_key then encryption_key else getenv in
  if negb (truthy_opt key_b64) then Raise key_not_found
  else
    match
      res_bind
        (b64decode (match key_b64 with Some s => s | None => "" end))
        (fun k =>
           if negb (List.length k =? 32)%nat
           then Raise (bad_key_length (List.length k))
           else Ok {| key := k |})
    with
    | Ok service => Ok service
    | Raise e => Raise (ValueErrorFrom "Invalid encryption key: " e)
    end.

(** [EncryptionService.encrypt_key] *)
Definition encrypt_key (self : EncryptionService) (plaintext : string)
  : M entropy string :=
  if String.eqb plaintext "" then raise empty_plaintext
  else
    try_except
      (nonce <- urandom 12 ;;
       plaintext_bytes <- lift (utf8_encode plaintext) ;;
       ciphertext <-
         lift (aesgcm_encrypt (key self) nonce plaintext_bytes) ;;
       let encrypted_data := (nonce ++ ciphertext)%list in
       ret (b64encode encrypted_data))%py
      (fun e => raise (ValueErrorFrom "Failed to encrypt API key: " e)).

(** [EncryptionService.decrypt_key] *)
Definition decrypt_key (self : EncryptionService) (ciphertext : string)
  : M entropy string :=
  if String.eqb ciphertext "" then raise empty_ciphertext
  else
    try_except
      (encrypted_data <- lift (b64decode ciphertext) ;;
       if (List.length encrypted_data <? 12)%nat then raise too_short
       else
         let nonce := firstn 12 encrypted_data in
         let ciphertext_with_tag := skipn 12 encrypted_data in
         plaintext_bytes <-
           lift (aesgcm_decrypt (key self) nonce ciphertext_with_tag) ;;
         plaintext <- lift (utf8_decode plaintext_bytes) ;;
         ret plaintext)%py
      (fun e =>
         match e with
         | InvalidTag => raise authentication_failed
         | _ => raise (ValueErrorFrom "Failed to decrypt API key: " e)
         end).

End Service.

(** ** A stand-in for the libraries

    One concrete choice of the library functions, enough to run the
    service: text is carried byte for byte, except that a text holding
    a surrogate is refused, and the cipher appends a 16-byte tag made of
    the nonce and the head of the key.  It makes no claim to secrecy. *)
Module Standin.

Definition b64encode (d : bytes) : string := string_of_list_byte d.

Definition b64decode (s : string) : res bytes :=
  Ok (list_byte_of_string s).

(** A surrogate is written [ED A0..BF xx]; no other character has a
    second byte above [9F] after [ED]. *)
Fixpoint has_surrogate (l : bytes) : bool :=
  match l with
  | b1 :: rest =>
      match rest with
      | b2 :: _ =>
          (Byte.eqb b1 xed && (160 <=? Byte.to_nat b2)%nat)
          || has_surrogate rest
      | [] => false
      end
  | [] => false
  end.

Definition utf8_encode (s : string) : res bytes :=
  if has_surrogate (list_byte_of_string s) then Raise UnicodeEncodeError
  else Ok (list_byte_of_string s).

Definition utf8_decode (b : bytes) : res string :=
  if has_surrogate b then Raise UnicodeDecodeError
  else Ok (string_of_list_byte b).

(** The text that is the one surrogate [U+D800]. *)
Definition lone_surrogate : string :=
  String "237" (String "160" (String "128" EmptyString)).

Definition tag (key nonce : bytes) : bytes :=
  firstn 16 (nonce ++ key)%list.

Definition bytes_eqb (a b : bytes) : bool :=
  if list_eq_dec Byte.byte_eq_dec a b then true else false.

Definition aesgcm_encrypt (key nonce data : bytes) : res bytes :=
  Ok (data ++ tag key nonce)%list.

Definition aesgcm_decrypt (key nonce data : bytes) : res bytes :=
  let n := List.length data - 16 in
  if (List.length data <? 16)%nat then Raise InvalidTag
  else if bytes_eqb (skipn n data) (tag key nonce)
       then Ok (firstn n data)
       else Raise InvalidTag.

(** A tape that counts upwards. *)
Definition counting : entropy :=
  {| tape := fun i =>
               match Byte.of_N (N.of_nat i mod 256) with
               | Some b => b
               | None => x00
               end;
     drawn := 0;
     outage := fun _ => None |}.

(** A source the operating system refuses to read. *)
Definition unavailable : entropy :=
  {| tape := fun _ => x00;
     drawn := 0;
     outage := fun _ => Some (OSError "urandom: no source of randomness") |}.

End Standin.

End Encryption.

(** * The Gemini provider adapter ([services/providers/gemini.py]) *)

Module Gemini.

(** What [await self.client.post(...)] does: it raises, or it returns a
    response with a status code, a body text, and the outcome of
    [response.json()]. *)
Inductive http_outcome : Type :=
| Raised (e : exn)
| Response (status_code : Z) (text : string) (json : res pyval).

(** The error messages of the adapter, by the text they are built from. *)
Inductive error_message : Type :=
| api_error (status_code : Z) (message : pyval)
    (* f"Gemini API error ({status_code}): {error_message}" *)
| no_response_generated   (* "No response generated by Gemini" *)
| no_content              (* "No content in Gemini response" *)
| request_timed_out       (* "Request timed out" *)
| network_error (e : exn) (* f"Network error: {str(e)}" *)
| unexpected_error (e : exn). (* f"Unexpected error: {str(e)}" *)

(** The dictionary [call_gemini] returns; [content] is present on success
    and [error] on failure. *)
Record result := {
  success : bool;
  content : option pyval;
  error : option error_message;
  tokens_used : pyval
}.

Definition failure (m : error_message) : result :=
  {| success := false; content := None; error := Some m;
     tokens_used := PInt 0 |}.

(** The [except] clauses of [call_gemini], in their order. *)
Definition handler (e : exn) : result :=
  match e with
  | TimeoutException => failure request_timed_out
  | RequestError _ => failure (network_error e)
  | _ => failure (unexpected_error e)
  end.

(** The message reported for a status other than 200: the provider's
    [error.message] when the body parses that far, the body text
    otherwise. *)
Definition parsed_error_message (text : string) (json : res pyval)
  : pyval :=
  match
    res_bind json (fun error_json =>
    res_bind (get error_json "error" (PDict [])) (fun err =>
    get err "message" (PStr text)))
  with
  | Ok m => m
  | Raise _ => PStr text
  end.

(** The body of the [try] block once a response with status 200 is in
    hand. *)
Definition read_response (prompt : string) (json : res pyval)
  : res result :=
  res_bind json (fun response_data =>
  res_bind (get response_data "candidates" (PList [])) (fun candidates =>
  if negb (truthy candidates) then Ok (failure no_response_generated)
  else
    res_bind (index0 candidates) (fun candidate =>
    res_bind (get candidate "content" (PDict [])) (fun content =>
    res_bind (get content "parts" (PList [])) (fun parts =>
    if negb (truthy parts) then Ok (failure no_content)
    else
      res_bind (index0 parts) (fun part =>
      res_bind (get part "text" (PStr "")) (fun generated_text =>
      res_bind (get response_data "usageMetadata" (PDict []))
               (fun usage_metadata =>
      res_bind (get usage_metadata "totalTokenCount" (PInt 0))
               (fun tokens_used =>
      res_bind
        (if eq_zero tokens_used then
           res_bind (len generated_text) (fun n =>
           Ok (PInt (Z.of_nat (str_len prompt) / 4 + n / 4)))
         else Ok tokens_used)
        (fun tokens_used =>
      Ok {| success := true; content := Some generated_text;
            error := None; tokens_used := tokens_used |})))))))))).

Section Adapter.

(** The transport: what the POST of the formatted request for
    [(api_key, prompt, system_prompt)] comes back with. *)
Variable post : string -> string -> option string -> http_outcome.

(** [GeminiProvider.call_gemini] *)
Definition call_gemini (api_key prompt : string)
           (system_prompt : option string) : result :=
  match post api_key prompt system_prompt with
  | Raised e => handler e
  | Response status_code text json =>
      if negb (status_code =? 200)%Z then
        failure (api_error status_code (parsed_error_message text json))
      else
        match read_response prompt json with
        | Ok r => r
        | Raise e => handler e
        end
  end.

End Adapter.

(** The chain of lookups behind a successful answer. *)
Record well_formed (response_data generated_text reported : pyval)
  : Prop := {
  wf_candidates :
    exists candidates candidate content parts part,
      get response_data "candidates" (PList []) = Ok candidates /\
      truthy candidates = true /\
      index0 candidates = Ok candidate /\
      get candidate "content" (PDict []) = Ok content /\
      get content "parts" (PList []) = Ok parts /\
      truthy parts = true /\
      index0 parts = Ok part /\
      get part "text" (PStr "") = Ok generated_text;
  wf_usage :
    exists usage_metadata,
      get response_data "usageMetadata" (PDict []) = Ok usage_metadata /\
      get usage_metadata "totalTokenCount" (PInt 0) = Ok reported
}.

(** ** Response bodies *)

(** [{"candidates": [{"content": {"parts": [{"text": text}]}}]}], with
    [usageMetadata.totalTokenCount] when [usage] is given. *)
Definition body (text : pyval) (usage : option pyval) : pyval :=
  PDict
    ((PStr "candidates",
      PList [PDict [(PStr "content",
                     PDict [(PStr "parts",
                             PList [PDict [(PStr "text", text)]])])]])
     :: match usage with
        | Some n => [(PStr "usageMetadata",
                      PDict [(PStr "totalTokenCount", n)])]
        | None => []
        end).

(** A transport that answers every request with status 200 and the given
    body. *)
Definition answering (b : pyval) (_ _ : string) (_ : option string)
  : http_outcome :=
  Response 200 "" (Ok b).

(** The estimate the specification describes:
    [len(prompt + content) / 4]. *)
Definition estimate_of_concatenation (prompt content : string) : Z :=
  Z.of_nat (str_len (prompt ++ content)) / 4.

End Gemini.

(** * The model router's fallback loop *)

Module Router.

Import Maintenance.

(** The world of the router: the store, clock and notification outbox of
    the maintenance service, and the keys the provider adapter has been
    invoked with, oldest first. *)
Record world := {
  base : Maintenance.world;
  invoked : list api_key
}.

(** A computation of the maintenance service, run by the router. *)
Definition on_base {A : Type} (m : M Maintenance.world A) : M world A :=
  fun w =>
    let (r, b) := m (base w) in
    (r, {| base := b; invoked := invoked w |}).

(** The [RouterAttemptResult] returned to callers. *)
Record attempt_result := {
  success : bool;
  content : option pyval;
  error : option Gemini.error_message;
  tokens_used : pyval;
  key_id_used : option string;
  attempts : nat
}.

(** Modelled from the spec: the ordering of [get_all_active_keys] of
    [services/model_router.py], which is not among the sources.  Section
    4.2: all [status = active] records for [(provider, feature)], ordered
    by priority descending, ties in store order.  [insert_key] puts a
    key in front of the first key that does not outrank it. *)
Fixpoint insert_key (k : api_key) (sorted : list api_key) : list api_key :=
  match sorted with
  | [] => [k]
  | h :: t =>
      if (key_priority h <=? key_priority k)%Z then k :: h :: t
      else h :: insert_key k t
  end.

(** Modelled from the spec: the ordering of [get_all_active_keys]
    (section 4.2), as an insertion sort that keeps ties in store
    order. *)
Fixpoint sort_keys (keys : list api_key) : list api_key :=
  match keys with
  | [] => []
  | k :: rest => insert_key k (sort_keys rest)
  end.

(** Modelled from the spec: the filter of [get_all_active_keys]
    (section 4.2): the key belongs to [(provider, feature)] and its
    status is [active]. *)
Definition is_active_for (provider feature : string) (k : api_key)
  : bool :=
  String.eqb (key_provider k) provider
  && String.eqb (key_feature k) feature
  && String.eqb (key_status k) "active".

(** Modelled from the spec: [get_all_active_keys] of
    [services/model_router.py] (section 4.2). *)
Definition get_all_active_keys (provider feature : string)
           (w : Maintenance.world) : list api_key :=
  sort_keys (filter (is_active_for provider feature) (api_keys w)).

(** Modelled from the spec: [record_failure] of the health monitor
    ([services/health_monitor.py], not among the sources).  Section 4.4:
    the key's [failure_count] goes up by exactly 1 and the key becomes
    [degraded] when the new count reaches the threshold. *)
Definition record_failure (failure_threshold : Z) (id : string)
  : M Maintenance.world unit :=
  modify (fun w =>
    {| api_keys :=
         map (fun k =>
                if String.eqb (key_id k) id then
                  let n := (key_failure_count k + 1)%Z in
                  {| key_id := key_id k; key_provider := key_provider k;
                     key_feature := key_feature k;
                     key_value := key_value k;
                     key_priority := key_priority k;
                     key_status :=
                       if (failure_threshold <=? n)%Z then "degraded"
                       else key_status k;
                     key_failure_count := n |}
                else k)
             (api_keys w);
       system_flags := system_flags w;
       ticks := ticks w;
       outbox := outbox w |}).

Section Service.

(** The collaborators of the maintenance service. *)
Variable literal_eval : string -> res pyval.
Variable py_str : pyval -> string.
Variable isoformat : nat -> string.
Variable deliver : notification -> res unit.

(** The encryption service's [decrypt_key] on stored key material, the
    health monitor's threshold, and the provider adapter: what the
    n-th invocation made in this world returns for the decrypted key,
    the prompt and the system prompt. *)
Variable decrypt : string -> string.
Variable failure_threshold : Z.
Variable adapter : nat -> string -> string -> option string
                   -> Gemini.result.

(** Modelled from the spec: step 3 of [execute_with_fallback]
    (section 4.3): decrypt the key and dispatch to the provider
    adapter with (key, prompt, system_prompt). *)
Definition invoke (k : api_key) (prompt : string)
           (system_prompt : option string) : M world Gemini.result :=
  fun w =>
    (Ok (adapter (List.length (invoked w)) (decrypt (key_value k))
                 prompt system_prompt),
     {| base := base w; invoked := invoked w ++ [k] |}).

(** What the adapter answers at the i-th invocation made after world
    [w], when that invocation is made with key [k]. *)
Definition outcome (prompt : string) (system_prompt : option string)
           (w : world) (i : nat) (k : api_key) : Gemini.result :=
  adapter (List.length (invoked w) + i) (decrypt (key_value k)) prompt
          system_prompt.

(** Modelled from the spec: step 6 of [execute_with_fallback].  Once
    the attempts are used up the maintenance trigger is evaluated with
    [failures = attempts], maintenance is entered at the level it
    names, and the failure is returned. *)
Definition escalate (provider feature : string) (attempts : nat)
           (last_error : option Gemini.error_message)
  : M world attempt_result :=
  (level <- on_base (evaluate_maintenance_trigger feature
                       (Z.of_nat attempts)) ;;
   match level with
   | Some l =>
       on_base
         (enter_maintenance literal_eval py_str isoformat deliver l
            ("All API keys failed for " ++ provider ++ "/" ++ feature)
            (Some feature) None) ;;;
       ret tt
   | None => ret tt
   end ;;;
   ret {| success := false; content := None; error := last_error;
          tokens_used := PInt 0; key_id_used := None;
          attempts := attempts |})%py.

(** Modelled from the spec: steps 2 to 5 of [execute_with_fallback],
    over the keys still to try.  [done] attempts have been made and
    [previous] is the key of the last one.  Moving to a fallback key
    sends [notify_fallback(previous, current)]; a success returns at
    once; a failure is recorded and the next key is tried. *)
Fixpoint try_keys (provider feature prompt : string)
         (system_prompt : option string) (keys : list api_key)
         (done : nat) (previous : option api_key)
         (last_error : option Gemini.error_message)
  : M world attempt_result :=
  match keys with
  | [] => escalate provider feature done last_error
  | k :: rest =>
      (match previous with
       | Some p =>
           on_base
             (try_except
                (notify deliver
                   (notify_fallback (key_id p) (key_id k)
                                    provider feature))
                (fun _ => ret tt))
       | None => ret tt
       end ;;;
       r <- invoke k prompt system_prompt ;;
       if Gemini.success r then
         ret {| success := true; content := Gemini.content r;
                error := None; tokens_used := Gemini.tokens_used r;
                key_id_used := Some (key_id k);
                attempts := S done |}
       else
         on_base (record_failure failure_threshold (key_id k)) ;;;
         try_keys provider feature prompt system_prompt rest
                  (S done) (Some k) (Gemini.error r))%py
  end.

(** Modelled from the spec: [ModelRouterService.execute_with_fallback]
    of [services/model_router.py], which is not among the sources.
    Section 4.3: fetch the active keys, try at most [max_retries] of
    them in priority order, return on the first success, and escalate
    to the maintenance service when none succeeds. *)
Definition execute_with_fallback (provider feature prompt : string)
           (system_prompt : option string) (max_retries : nat)
  : M world attempt_result :=
  (keys <- gets (fun w => get_all_active_keys provider feature (base w)) ;;
   try_keys provider feature prompt system_prompt
            (firstn max_retries keys) 0 None None)%py.

End Service.

(** The keys are in descending priority order. *)
Fixpoint descending (keys : list api_key) : bool :=
  match keys with
  | [] => true
  | k :: rest =>
      forallb (fun k' => (key_priority k' <=? key_priority k)%Z) rest
      && descending rest
  end.

(** An adapter that fails its first [n] invocations and succeeds from
    then on. *)
Definition failing_first (n i : nat) (api_key prompt : string)
           (system_prompt : option string) : Gemini.result :=
  if (i <? n)%nat then Gemini.failure Gemini.request_timed_out
  else {| Gemini.success := true;
          Gemini.content := Some (PStr ("answer via " ++ api_key));
          Gemini.error := None; Gemini.tokens_used := PInt 10 |}.

Definition three_keys : world :=
  {| base :=
       Examples.store
         [Examples.key "k10" 10 "active"; Examples.key "k50" 50 "active";
          Examples.key "k5" 5 "active"; Examples.key "k1000" 1000 "degraded"]
         [];
     invoked := [] |}.

End Router.
From Stdlib Require QArith.


(** * The exit script ([exit_maintenance.py]) *)

Module ExitScript.

Import Maintenance.

(** What the script prints, by the message. *)
Inductive printed : Type :=
| current_mode (value : string)
    (* f"Current maintenance mode: {current_status}" *)
| already_out   (* "System is already out of maintenance mode" *)
| exited_ok.    (* "Successfully exited maintenance mode" and the hints *)

(** [table("system_flags").update({"flag_value": value})
    .eq("flag_name", name).execute()]: only the value column is
    written. *)
Definition set_flag_value (name value : string) : M world unit :=
  modify (fun w =>
    set_flags
      (map (fun r =>
              if String.eqb (flag_name r) name then
                {| flag_name := flag_name r; flag_value := value;
                   updated_at := updated_at r;
                   updated_by := updated_by r |}
              else r)
           (system_flags w))
      w).

(** [exit_maintenance_mode], once the client is created: the lines it
    prints. *)
Definition exit_maintenance_mode : M world (list printed) :=
  (data <- gets (select_flags "maintenance_mode") ;;
   match data with
   | row :: _ =>
       let current_status := flag_value row in
       if String.eqb current_status "off" then
         ret [current_mode current_status; already_out]
       else
         set_flag_value "maintenance_mode" "off" ;;;
         ret [current_mode current_status; exited_ok]
   | [] =>
       set_flag_value "maintenance_mode" "off" ;;;
       ret [exited_ok]
   end)%py.

End ExitScript.

(** * The module level of [services/encryption.py] *)

Module EncryptionModule.

Import Encryption.

(** The state the module-level functions work on: the global
    [_encryption_service], the [ENCRYPTION_KEY] environment variable, and
    the source of [os.urandom]. *)
Record process := {
  cached : option EncryptionService;
  environ : option string;
  random : entropy
}.

(** [os.environ["ENCRYPTION_KEY"] = v], or its deletion for [None]. *)
Definition setenv (v : option string) (p : process) : process :=
  {| cached := cached p; environ := v; random := random p |}.

(** A method of the service, run on the entropy of the process. *)
Definition on_random {A : Type} (m : M entropy A) : M process A :=
  fun p =>
    let (r, e) := m (random p) in
    (r, {| cached := cached p; environ := environ p; random := e |}).

Section Libraries.

Variable b64encode : bytes -> string.
Variable b64decode : string -> res bytes.
Variable utf8_encode : string -> res bytes.
Variable utf8_decode : bytes -> res string.
Variable aesgcm_encrypt : bytes -> bytes -> bytes -> res bytes.
Variable aesgcm_decrypt : bytes -> bytes -> bytes -> res bytes.

(** [get_encryption_service] *)
Definition get_encryption_service : M process EncryptionService :=
  fun p =>
    match cached p with
    | Some service => (Ok service, p)
    | None =>
        match init b64decode None (environ p) with
        | Ok service =>
            (Ok service,
             {| cached := Some service; environ := environ p;
                random := random p |})
        | Raise e => (Raise e, p)
        end
    end.

(** The module-level [encrypt_key] *)
Definition encrypt_key (plaintext : string) : M process string :=
  (service <- get_encryption_service ;;
   on_random
     (Encryption.encrypt_key b64encode utf8_encode aesgcm_encrypt
        service plaintext))%py.

(** The module-level [decrypt_key] *)
Definition decrypt_key (ciphertext : string) : M process string :=
  (service <- get_encryption_service ;;
   on_random
     (Encryption.decrypt_key b64decode utf8_decode aesgcm_decrypt
        service ciphertext))%py.

End Libraries.

(** The exception is a [ValueError]. *)
Definition is_value_error (e : exn) : bool :=
  match e with
  | ValueError _ | ValueErrorFrom _ _ => true
  | _ => false
  end.

(** A key text that the stand-in codec decodes to 32 bytes. *)
Definition key_text : string := "0123456789abcdef0123456789abcdef".

(** A process that has not created its service yet. *)
Definition fresh (env : option string) : process :=
  {| cached := None; environ := env; random := Standin.counting |}.

End EncryptionModule.

(** * Requests and streaming of the Gemini adapter
      ([services/providers/gemini.py]) *)

Module GeminiStream.

(** ** The request payload *)

(** [{"text": text}] *)
Record part := { text : string }.

(** [{"role": role, "parts": parts}] *)
Record content := { role : string; parts : list part }.

(** The [generationConfig] entry; the two decimals are the literals of
    the source. *)
Record generation_config := {
  temperature : QArith_base.Q;
  topK : Z;
  topP : QArith_base.Q;
  maxOutputTokens : Z
}.

(** [{"category": category, "threshold": threshold}] *)
Record safety_setting := { category : string; threshold : string }.

Record request_payload := {
  contents : list content;
  generationConfig : generation_config;
  safetySettings : list safety_setting
}.

Definition user_message (t : string) : content :=
  {| role := "user"; parts := [{| text := t |}] |}.

(** [GeminiProvider.format_request] *)
Definition format_request (prompt : string)
           (system_prompt : option string) : request_payload :=
  let contents := [] in
  let contents :=
    match system_prompt with
    | Some s =>
        if truthy (PStr s) then
          (contents ++ [user_message ("System: " ++ s)])%list
        else contents
    | None => contents
    end in
  let contents := (contents ++ [user_message prompt])%list in
  {| contents := contents;
     generationConfig :=
       {| temperature := QArith_base.Qmake 7 10;
          topK := 40;
          topP := QArith_base.Qmake 95 100;
          maxOutputTokens := 2048 |};
     safetySettings :=
       [ {| category := "HARM_CATEGORY_HARASSMENT";
            threshold := "BLOCK_MEDIUM_AND_ABOVE" |};
         {| category := "HARM_CATEGORY_HATE_SPEECH";
            threshold := "BLOCK_MEDIUM_AND_ABOVE" |};
         {| category := "HARM_CATEGORY_SEXUALLY_EXPLICIT";
            threshold := "BLOCK_MEDIUM_AND_ABOVE" |};
         {| category := "HARM_CATEGORY_DANGEROUS_CONTENT";
            threshold := "BLOCK_MEDIUM_AND_ABOVE" |} ] |}.

(** ** The streamed response *)

(** What [self.client.stream("POST", ...)] does: entering it raises, or
    it gives a response with a status code, the outcome of
    [response.aread()], the lines [response.aiter_lines()] delivers, the
    exception that ends the iteration early if there is one, and the
    exception raised on closing the response if there is one. *)
Inductive stream_outcome : Type :=
| StreamRaised (e : exn)
| StreamResponse (status_code : Z) (aread : res unit)
                 (lines : list string) (broken : option exn)
                 (closed : option exn).

(** What the generator yields, by the text it is built from. *)
Inductive chunk : Type :=
| yielded_text (v : pyval)   (* yield text *)
| status_error (status_code : Z)
    (* f"Error: Gemini API returned status {response.status_code}" *)
| timed_out                  (* "Error: Request timed out" *)
| network_error (e : exn)    (* f"Error: Network error - {str(e)}" *)
| other_error (e : exn).     (* f"Error: {str(e)}" *)

Definition is_text (c : chunk) : bool :=
  match c with yielded_text _ => true | _ => false end.

(** The [except] clauses of [call_gemini_streaming], in their order. *)
Definition handler (e : exn) : chunk :=
  match e with
  | TimeoutException => timed_out
  | RequestError _ => network_error e
  | _ => other_error e
  end.

(** [line[n:]] *)
Fixpoint slice_from (n : nat) (line : string) : string :=
  match n, line with
  | O, _ => line
  | S n', String _ rest => slice_from n' rest
  | S _, EmptyString => EmptyString
  end.

(** The text a decoded chunk carries, if it carries one:
    [candidates[0].content.parts[0].text] when each level is present and
    the text is truthy. *)
Definition chunk_text (data : pyval) : res (option pyval) :=
  res_bind (get data "candidates" (PList [])) (fun candidates =>
  if truthy candidates then
    res_bind (index0 candidates) (fun candidate =>
    res_bind (get candidate "content" (PDict [])) (fun content =>
    res_bind (get content "parts" (PList [])) (fun parts =>
    if truthy parts then
      res_bind (index0 parts) (fun part =>
      res_bind (get part "text" (PStr "")) (fun text =>
      if truthy text then Ok (Some text) else Ok None))
    else Ok None)))
  else Ok None).

(** What one line of the response leads to. *)
Inductive line_outcome : Type :=
| skip                 (* nothing is yielded, the loop goes on *)
| yield (v : pyval)    (* [yield text], then the loop goes on *)
| stop (e : exn).      (* an exception leaves the loop *)

Section Stream.

(** [str.strip] and [json.loads]. *)
Variable strip : string -> string.
Variable json_loads : string -> res pyval.

(** The body of the [async for] loop.  Only [json.JSONDecodeError] is
    caught inside the loop. *)
Definition read_line (line : string) : line_outcome :=
  if negb (truthy (PStr (strip line))) then skip
  else if String.prefix "data: " line then
    let data_str := slice_from 6 line in
    match res_bind (json_loads data_str) chunk_text with
    | Ok (Some text) => yield text
    | Ok None => skip
    | Raise JSONDecodeError => skip
    | Raise e => stop e
    end
  else skip.

(** The [async for] loop: the chunks it yields, and the exception that
    leaves it if there is one. *)
Fixpoint read_lines (lines : list string) (broken : option exn)
  : list chunk * option exn :=
  match lines with
  | [] => ([], broken)
  | line :: rest =>
      match read_line line with
      | skip => read_lines rest broken
      | yield v =>
          let (chunks, raised) := read_lines rest broken in
          (yielded_text v :: chunks, raised)
      | stop e => ([], Some e)
      end
  end.

(** No line leaves the loop with an exception. *)
Definition readable (lines : list string) : Prop :=
  Forall (fun line => forall e, read_line line <> stop e) lines.

(** The block under [async with ... as response]. *)
Definition read_stream (status_code : Z) (aread : res unit)
           (lines : list string) (broken : option exn)
  : list chunk * option exn :=
  if negb (status_code =? 200)%Z then
    match aread with
    | Ok _ => ([status_error status_code], None)
    | Raise e => ([], Some e)
    end
  else read_lines lines broken.

(** Everything the generator yields once the transport has answered.
    The response is closed when its block is left; an exception
    raised there replaces the one that left the block. *)
Definition drain (o : stream_outcome) : list chunk :=
  match o with
  | StreamRaised e => [handler e]
  | StreamResponse status_code aread lines broken closed =>
      let (chunks, raised) :=
        read_stream status_code aread lines broken in
      (chunks ++
       match closed, raised with
       | Some e, _ => [handler e]
       | None, Some e => [handler e]
       | None, None => []
       end)%list
  end.

(** The transport: what the streaming POST of a payload with an API
    key comes back with. *)
Variable stream : string -> request_payload -> stream_outcome.

(** [GeminiProvider.call_gemini_streaming], as the list of everything
    it yields. *)
Definition call_gemini_streaming (api_key prompt : string)
           (system_prompt : option string) : list chunk :=
  drain (stream api_key (format_request prompt system_prompt)).

End Stream.

(** A line the loop passes over: blank, not a [data: ] line, or a
    payload that [json.loads] rejects. *)
Definition passed_over (strip : string -> string)
           (json_loads : string -> res pyval) (line : string) : Prop :=
  strip line = "" \/
  String.prefix "data: " line = false \/
  json_loads (slice_from 6 line) = Raise JSONDecodeError.

(** ** A reference wire format *)

Module Wire.

Definition is_space (c : ascii) : bool :=
  let n := nat_of_ascii c in
  ((n =? 32) || ((9 <=? n) && (n <=? 13))
   || ((28 <=? n) && (n <=? 31)))%nat.

Fixpoint lstrip (l : list ascii) : list ascii :=
  match l with
  | c :: rest => if is_space c then lstrip rest else l
  | [] => []
  end.

(** [str.strip] on ASCII text. *)
Definition strip (s : string) : string :=
  string_of_list_ascii
    (rev (lstrip (rev (lstrip (list_ascii_of_string s))))).

Definition quote : string := String "034"%char EmptyString.

(** The text up to the next double quote, and what follows the
    quote. *)
Fixpoint read_quoted (s : string) : option (string * string) :=
  match s with
  | EmptyString => None
  | String c rest =>
      if Ascii.eqb c "034"%char then Some (EmptyString, rest)
      else if Ascii.eqb c "\"%char then None
      else
        match read_quoted rest with
        | Some (body, r) => Some (String c body, r)
        | None => None
        end
  end.

Definition chunk_open : string :=
  "{" ++ quote ++ "candidates" ++ quote ++ ": [{" ++
  quote ++ "content" ++ quote ++ ": {" ++
  quote ++ "parts" ++ quote ++ ": [{" ++
  quote ++ "text" ++ quote ++ ": " ++ quote.

Definition chunk_close : string := "}]}}]}".

(** The line that carries [t] as a chunk of the answer. *)
Definition data_line (t : string) : string :=
  "data: " ++ chunk_open ++ t ++ quote ++ chunk_close.

(** [json.loads] on the empty object, the empty array and the chunk
    objects of the provider; anything else is rejected. *)
Definition json_loads (s : string) : res pyval :=
  if String.eqb s "{}" then Ok (PDict [])
  else if String.eqb s "[]" then Ok (PList [])
  else
    match Literal.strip_prefix chunk_open s with
    | Some r =>
        match read_quoted r with
        | Some (t, r') =>
            if String.eqb r' chunk_close then
              Ok (Gemini.body (PStr t) None)
            else Raise JSONDecodeError
        | None => Raise JSONDecodeError
        end
    | None => Raise JSONDecodeError
    end.

End Wire.

End GeminiStream.

(** * The key script ([add_api_key.py]) *)

Module AddApiKey.

Import Encryption.

(** What the script prints, by the message. *)
Inductive printed : Type :=
| error_encrypting (e : exn)
    (* f"Error encrypting API key: {e}" and the two hints *)
| sql_header       (* the two comment lines that open the output *)
| delete_comment   (* "-- First, delete any existing keys ..." *)
| delete_sql (provider : string)
    (* f"DELETE FROM api_keys WHERE provider = '{provider}';\n" *)
| insert_comment   (* "-- Now insert the API key for all features" *)
| insert_sql (provider feature encrypted_key : string) (priority : Z)
             (status : string)
    (* the INSERT INTO api_keys statement, with failure_count 0 *)
| verify_comment   (* "\n-- Verify the keys were added:" *)
| verify_sql       (* the SELECT statement *)
| notes (provider : string)
    (* the rule, "IMPORTANT NOTES:" and the seven notes *)
| features_configured (n : nat)
    (* f"\n{len(features)} features configured:" *)
| feature_line (feature : string)   (* the tick and the feature *)
| restart_hint.    (* "\nAfter running the SQL, restart ..." *)

(** How the call ends: it returns, or [sys.exit(code)] ends the
    process. *)
Inductive ending : Type :=
| returned
| exited (code : Z).

Definition features : list string :=
  ["chat"; "flashcard"; "mcq"; "highyield"; "explain"; "map";
   "clinical"; "osce"; "safety"; "image"; "embedding"].

(** The statements among the printed lines that change the table. *)
Definition is_write (l : printed) : bool :=
  match l with
  | delete_sql _ | insert_sql _ _ _ _ _ => true
  | _ => false
  end.

Section Libraries.

Variable b64encode : bytes -> string.
Variable b64decode : string -> res bytes.
Variable utf8_encode : string -> res bytes.
Variable aesgcm_encrypt : bytes -> bytes -> bytes -> res bytes.

(** [generate_sql_for_api_key]: what it prints and how it ends, on
    the process the module-level [encrypt_key] works on. *)
Definition generate_sql_for_api_key (api_key provider : string)
           (p : EncryptionModule.process)
  : (list printed * ending) * EncryptionModule.process :=
  match
    EncryptionModule.encrypt_key b64encode b64decode utf8_encode
      aesgcm_encrypt api_key p
  with
  | (Raise e, p') => (([error_encrypting e], exited 1), p')
  | (Ok encrypted_key, p') =>
      ((([sql_header; delete_comment; delete_sql provider;
          insert_comment]
        ++ map (fun feature =>
                  let priority := 100%Z in
                  let status := "active" in
                  insert_sql provider feature encrypted_key priority
                             status)
               features
        ++ [verify_comment; verify_sql; notes provider;
            features_configured (List.length features)]
        ++ map feature_line features
        ++ [restart_hint])%list,
        returned),
       p')
  end.

End Libraries.

End AddApiKey.

(** * Properties of the maintenance service *)

Module MaintenanceProps.

Import Maintenance.

(** ** Evaluating the trigger *)

Lemma count_status_zero (s : string) (data : list api_key) :
  (count_status s data =? 0)%Z = negb (has_status s data).
Proof.
  unfold count_status, has_status.
  induction data as [|k rest IH]; [reflexivity|].
  cbn [filter existsb].
  destruct (String.eqb (key_status k) s); cbn [orb negb].
  - cbn [List.length]. apply Z.eqb_neq. lia.
  - exact IH.
Qed.

Lemma count_status_pos (s : string) (data : list api_key) :
  (count_status s data >? 0)%Z = has_status s data.
Proof.
  pose proof (count_status_zero s data) as Hz.
  assert (0 <= count_status s data)%Z by (unfold count_status; lia).
  destruct (has_status s data); cbn [negb] in Hz.
  - apply Z.eqb_neq in Hz. apply Z.gtb_lt. lia.
  - apply Z.eqb_eq in Hz. rewrite Hz. reflexivity.
Qed.

(** C2.  [evaluate_maintenance_trigger] reads the keys of the feature and
    changes nothing; it answers "soft" when the feature has no key at
    all, "hard" when it has keys but none is active or degraded, "soft"
    when none is active but one is degraded, "soft" when one is active
    and [failures >= 5], and [None] in the remaining case (one is active
    and [failures < 5]). *)
Theorem evaluate_maintenance_trigger_levels :
  forall (w : world) (feature : string) (failures : Z),
    let data := select_keys_by_feature feature w in
    let answer := evaluate_maintenance_trigger feature failures w in
    (data = [] -> answer = (Ok (Some "soft"), w)) /\
    (data <> [] -> has_status "active" data = false ->
     has_status "degraded" data = false ->
     answer = (Ok (Some "hard"), w)) /\
    (has_status "active" data = false ->
     has_status "degraded" data = true ->
     answer = (Ok (Some "soft"), w)) /\
    (has_status "active" data = true -> (failures >= 5)%Z ->
     answer = (Ok (Some "soft"), w)) /\
    (has_status "active" data = true -> (failures < 5)%Z ->
     answer = (Ok None, w)).
Proof.
  intros w feature failures data answer.
  subst answer.
  unfold evaluate_maintenance_trigger, bind, gets, ret.
  fold data.
  repeat split.
  - intros ->. reflexivity.
  - intros Hne Ha Hd.
    destruct data as [|k rest] eqn:E; [congruence|].
    rewrite !count_status_zero, Ha, Hd. reflexivity.
  - intros Ha Hd.
    destruct data as [|k rest] eqn:E; [discriminate|].
    rewrite !count_status_zero, count_status_pos, Ha, Hd. reflexivity.
  - intros Ha Hf.
    destruct data as [|k rest] eqn:E; [discriminate|].
    rewrite !count_status_zero, Ha. cbn [negb andb].
    replace (failures >=? 5)%Z with true; [reflexivity|].
    symmetry. apply Z.geb_le. lia.
  - intros Ha Hf.
    destruct data as [|k rest] eqn:E; [discriminate|].
    rewrite !count_status_zero, Ha. cbn [negb andb].
    replace (failures >=? 5)%Z with false; [reflexivity|].
    symmetry. rewrite Z.geb_leb. apply Z.leb_gt. lia.
Qed.

Lemma evaluate_maintenance_trigger_valid (w : world) (feature : string)
      (failures : Z) :
  exists l,
    evaluate_maintenance_trigger feature failures w = (Ok l, w) /\
    (l = None \/ l = Some "soft" \/ l = Some "hard").
Proof.
  unfold evaluate_maintenance_trigger, bind, gets, ret.
  destruct (select_keys_by_feature feature w); [eauto|].
  repeat match goal with
         | |- context [if ?c then _ else _] => destruct c
         end; eauto.
Qed.

Section Reads.

Variable literal_eval : string -> res pyval.

Lemma get_maintenance_status_eq (w : world) :
  get_maintenance_status literal_eval w =
    (Ok (match active_flag literal_eval w with
         | Some items => status_of items
         | None => not_in_maintenance
         end), w).
Proof.
  unfold get_maintenance_status, active_flag, stored_flag,
    bind, gets, try_except, lift, ret.
  destruct (select_flags "maintenance_mode" w) as [|row rest];
    [reflexivity|].
  destruct (literal_eval (flag_value row)) as [v|e]; [|reflexivity].
  destruct v; try reflexivity.
  cbn [get].
  destruct (truthy (dict_get items "is_active" (PBool false)));
    reflexivity.
Qed.

Lemma active_flag_inv (w : world) (items : list (pyval * pyval)) :
  active_flag literal_eval w = Some items ->
  exists row rest,
    select_flags "maintenance_mode" w = row :: rest /\
    literal_eval (flag_value row) = Ok (PDict items) /\
    truthy (dict_get items "is_active" (PBool false)) = true.
Proof.
  unfold active_flag, stored_flag.
  destruct (select_flags "maintenance_mode" w) as [|row rest];
    [discriminate|].
  destruct (literal_eval (flag_value row)) as [v|e] eqn:Ev;
    [|discriminate].
  destruct v; try discriminate.
  destruct (truthy (dict_get items0 "is_active" (PBool false))) eqn:E;
    [|discriminate].
  intros [= <-]. exists row, rest. auto.
Qed.

(** The service reports an episode exactly when the stored flag is an
    active one, and then reports the entries of that flag. *)
Lemma in_maintenance_iff_active (w : world) (st : maintenance_status) :
  get_maintenance_status literal_eval w = (Ok st, w) /\
  in_maintenance st = true <->
  exists items,
    active_flag literal_eval w = Some items /\ st = status_of items.
Proof.
  rewrite get_maintenance_status_eq.
  destruct (active_flag literal_eval w) as [items|].
  - split.
    + intros [[= <-] _]. exists items. auto.
    + intros (items' & [= <-] & ->). split; reflexivity.
  - split.
    + intros [[= <-] Hin]. discriminate Hin.
    + intros (items' & Hno & _). discriminate Hno.
Qed.

(** C8.  [get_maintenance_status] always returns (it never raises) and
    leaves the world as it found it.  It reports "not in maintenance"
    when no [maintenance_mode] flag is stored, when the stored value
    does not parse, when it parses to something that is not a
    dictionary, and when the dictionary's [is_active] entry is missing
    or false. *)
Theorem get_maintenance_status_fails_open :
  forall w : world,
    let rows := select_flags "maintenance_mode" w in
    let read := get_maintenance_status literal_eval w in
    (exists st, read = (Ok st, w)) /\
    (rows = [] -> read = (Ok not_in_maintenance, w)) /\
    (forall row rest e,
        rows = row :: rest ->
        literal_eval (flag_value row) = Raise e ->
        read = (Ok not_in_maintenance, w)) /\
    (forall row rest v,
        rows = row :: rest ->
        literal_eval (flag_value row) = Ok v ->
        is_dict v = false ->
        read = (Ok not_in_maintenance, w)) /\
    (forall row rest items,
        rows = row :: rest ->
        literal_eval (flag_value row) = Ok (PDict items) ->
        truthy (dict_get items "is_active" (PBool false)) = false ->
        read = (Ok not_in_maintenance, w)).
Proof.
  intros w rows read. subst rows read.
  rewrite get_maintenance_status_eq.
  unfold active_flag, stored_flag.
  repeat split.
  - eexists. reflexivity.
  - intros ->. reflexivity.
  - intros row rest e -> ->. reflexivity.
  - intros row rest v -> -> Hd. destruct v; try reflexivity.
    discriminate.
  - intros row rest items -> -> ->. reflexivity.
Qed.

End Reads.

(** ** Dictionary updates *)

Lemma key_is_PStr (key key' : string) :
  key_is key (PStr key') = String.eqb key' key.
Proof. reflexivity. Qed.

Lemma dict_get_set_same (items : list (pyval * pyval)) (key : string)
      (v d : pyval) :
  dict_get (dict_set items key v) key d = v.
Proof.
  induction items as [|[k x] rest IH]; cbn [dict_set dict_get].
  - rewrite key_is_PStr, String.eqb_refl. reflexivity.
  - destruct (key_is key k) eqn:E; cbn [dict_get]; rewrite E.
    + reflexivity.
    + exact IH.
Qed.

Lemma key_is_inj (key key' : string) (k : pyval) :
  key_is key k = true -> key_is key' k = true -> key = key'.
Proof.
  destruct k; try discriminate. cbn.
  intros H1 H2. apply String.eqb_eq in H1, H2. congruence.
Qed.

Lemma dict_get_set_other (items : list (pyval * pyval))
      (key key' : string) (v d : pyval) :
  key <> key' ->
  dict_get (dict_set items key' v) key d = dict_get items key d.
Proof.
  intros Hne.
  induction items as [|[k x] rest IH]; cbn [dict_set dict_get].
  - rewrite key_is_PStr.
    destruct (String.eqb key' key) eqn:E; [|reflexivity].
    apply String.eqb_eq in E. congruence.
  - destruct (key_is key' k) eqn:E'; cbn [dict_get].
    + destruct (key_is key k) eqn:E; [|reflexivity].
      exfalso. apply Hne. eapply key_is_inj; eassumption.
    + destruct (key_is key k); [reflexivity | exact IH].
Qed.

(** ** Writes to the flag table *)

Section Transitions.

Variable literal_eval : string -> res pyval.
Variable py_str : pyval -> string.
Variable isoformat : nat -> string.
Variable deliver : notification -> res unit.

Local Abbreviation status := (get_maintenance_status literal_eval).
Local Abbreviation enter :=
  (enter_maintenance literal_eval py_str isoformat deliver).
Local Abbreviation exit_ :=
  (exit_maintenance literal_eval py_str isoformat deliver).
Local Abbreviation active := (active_flag literal_eval).

(** An episode is kept as it is unless the call is the upgrade from
    "soft" to "hard". *)
Lemma enter_maintenance_keeps
      (w : world) (level reason : string)
      (feature triggered_by : option string)
      (items : list (pyval * pyval)) :
  level = "soft" \/ level = "hard" ->
  active w = Some items ->
  eq_str (dict_get items "level" PNone) "soft"
    && String.eqb level "hard" = false ->
  enter level reason feature triggered_by w = (Ok (status_of items), w).
Proof.
  intros Hlevel Hact Hnot.
  unfold enter_maintenance.
  replace (negb (String.eqb level "soft" || String.eqb level "hard"))
    with false by (destruct Hlevel as [-> | ->]; reflexivity).
  unfold bind at 1.
  rewrite get_maintenance_status_eq, Hact.
  cbn [in_maintenance status_of status_level andb].
  rewrite Hnot. reflexivity.
Qed.

(** With a valid level the call returns: it never raises. *)
Lemma enter_maintenance_returns
      (w : world) (level reason : string)
      (feature triggered_by : option string) :
  level = "soft" \/ level = "hard" ->
  exists st w',
    enter level reason feature triggered_by w = (Ok st, w').
Proof.
  intros Hlevel.
  unfold enter_maintenance.
  replace (negb (String.eqb level "soft" || String.eqb level "hard"))
    with false by (destruct Hlevel as [-> | ->]; reflexivity).
  unfold bind at 1.
  rewrite get_maintenance_status_eq.
  match goal with
  | |- context [if ?c then _ else _] => destruct c
  end.
  - eexists. eexists. reflexivity.
  - unfold bind, now, gets, try_except, notify, ret, update_flags,
      insert_flag, modify.
    cbn.
    destruct (filter _ (system_flags w)); destruct (deliver _);
      eexists; eexists; reflexivity.
Qed.

Lemma enter_maintenance_upgrades
      (w : world) (reason : string)
      (feature triggered_by : option string)
      (items : list (pyval * pyval)) :
  active w = Some items ->
  dict_get items "level" PNone = PStr "soft" ->
  enter "hard" reason feature triggered_by w =
    (Ok {| in_maintenance := true; status_level := PStr "hard";
           status_reason := PStr reason;
           status_feature := of_opt feature;
           status_triggered_by := of_opt triggered_by;
           status_triggered_at := PStr (isoformat (ticks w)) |},
     upgraded py_str isoformat w reason feature triggered_by).
Proof.
  intros Hact Hsoft.
  destruct (active_flag_inv _ _ _ Hact) as (row & rest & Hrows & _ & _).
  unfold enter_maintenance.
  replace (negb (String.eqb "hard" "soft" || String.eqb "hard" "hard"))
    with false by reflexivity.
  replace (String.eqb "hard" "hard") with true by reflexivity.
  unfold bind at 1.
  rewrite get_maintenance_status_eq, Hact.
  cbn [in_maintenance status_of status_level].
  rewrite Hsoft.
  unfold bind, now, gets, try_except, notify, ret, update_flags, modify.
  unfold select_flags in Hrows. cbn. rewrite Hrows.
  unfold upgraded, rewritten, set_flags. cbn.
  destruct (deliver _); reflexivity.
Qed.

Lemma select_flags_rewritten (fs : list system_flag)
      (value at_ : string) (by_ : option string) :
  filter (fun r => String.eqb (flag_name r) "maintenance_mode")
    (map (fun r =>
            if String.eqb (flag_name r) "maintenance_mode"
            then rewritten value at_ by_ r else r) fs) =
  map (rewritten value at_ by_)
    (filter (fun r => String.eqb (flag_name r) "maintenance_mode") fs).
Proof.
  induction fs as [|r rest IH]; [reflexivity|].
  cbn [map filter].
  destruct (String.eqb (flag_name r) "maintenance_mode") eqn:E.
  - cbn [rewritten flag_name]. rewrite E. cbn [map].
    f_equal. exact IH.
  - rewrite E. exact IH.
Qed.

Lemma other_flags_rewritten (fs : list system_flag)
      (value at_ : string) (by_ : option string) :
  filter (fun r => negb (String.eqb (flag_name r) "maintenance_mode"))
    (map (fun r =>
            if String.eqb (flag_name r) "maintenance_mode"
            then rewritten value at_ by_ r else r) fs) =
  filter (fun r => negb (String.eqb (flag_name r) "maintenance_mode"))
    fs.
Proof.
  induction fs as [|r rest IH]; [reflexivity|].
  cbn [map filter].
  destruct (String.eqb (flag_name r) "maintenance_mode") eqn:E.
  - cbn [rewritten flag_name]. rewrite E. exact IH.
  - rewrite E. cbn [negb]. f_equal. exact IH.
Qed.

Lemma exit_maintenance_idle (w : world) (exited_by : option string) :
  active w = None ->
  exit_ exited_by w = (Ok nothing_to_exit, w).
Proof.
  intros Hact.
  unfold exit_maintenance. unfold bind at 1.
  rewrite get_maintenance_status_eq, Hact. reflexivity.
Qed.

Lemma exit_maintenance_active
      (w : world) (exited_by : option string)
      (items : list (pyval * pyval)) :
  active w = Some items ->
  exit_ exited_by w =
    (Ok {| result_in_maintenance := false;
           result_message := "Maintenance mode exited";
           result_exited_by := Some exited_by;
           result_exited_at := Some (isoformat (S (S (ticks w)))) |},
     exited py_str isoformat w items exited_by).
Proof.
  intros Hact.
  destruct (active_flag_inv _ _ _ Hact) as (row & rest & Hrows & Hev & _).
  unfold exit_maintenance. unfold bind at 1.
  rewrite get_maintenance_status_eq, Hact.
  cbn [in_maintenance status_of negb].
  unfold bind, now, gets, lift, try_except, notify, ret, update_flags,
    modify.
  cbn. rewrite Hrows, Hev. cbn.
  unfold exited, rewritten, set_flags, exited_items. cbn.
  destruct exited_by as [admin|]; cbn.
  - destruct (negb (String.eqb admin "")); cbn.
    + destruct (deliver _); cbn; rewrite ?app_nil_r; reflexivity.
    + rewrite ?app_nil_r. reflexivity.
  - rewrite ?app_nil_r. reflexivity.
Qed.

Lemma select_flags_upgraded
      (w : world) (reason : string)
      (feature triggered_by : option string) :
  select_flags "maintenance_mode"
    (upgraded py_str isoformat w reason feature triggered_by) =
  map (rewritten
         (py_str (maintenance_data "hard" reason feature triggered_by
                    (isoformat (ticks w))))
         (isoformat (S (ticks w))) triggered_by)
      (select_flags "maintenance_mode" w).
Proof. apply select_flags_rewritten. Qed.

Lemma select_flags_exited
      (w : world) (items : list (pyval * pyval))
      (exited_by : option string) :
  select_flags "maintenance_mode"
    (exited py_str isoformat w items exited_by) =
  map (rewritten
         (py_str (PDict (exited_items items (isoformat (ticks w))
                           exited_by)))
         (isoformat (S (ticks w))) exited_by)
      (select_flags "maintenance_mode" w).
Proof. apply select_flags_rewritten. Qed.

Lemma in_map_rewritten (value at_ : string) (by_ : option string)
      (rows : list system_flag) (row : system_flag) :
  In row (map (rewritten value at_ by_) rows) -> flag_value row = value.
Proof.
  intros Hin. apply in_map_iff in Hin.
  destruct Hin as [r [<- _]]. reflexivity.
Qed.

(** From a world without an active episode the call writes the
    record and reports it. *)
Lemma enter_maintenance_fresh
      (w : world) (level reason : string)
      (feature triggered_by : option string) :
  level = "soft" \/ level = "hard" ->
  active w = None ->
  enter level reason feature triggered_by w =
    (Ok {| in_maintenance := true; status_level := PStr level;
           status_reason := PStr reason;
           status_feature := of_opt feature;
           status_triggered_by := of_opt triggered_by;
           status_triggered_at := PStr (isoformat (ticks w)) |},
     entered py_str isoformat w level reason feature triggered_by).
Proof.
  intros Hlevel Hact.
  unfold enter_maintenance.
  replace (negb (String.eqb level "soft" || String.eqb level "hard"))
    with false by (destruct Hlevel as [-> | ->]; reflexivity).
  unfold bind at 1.
  rewrite get_maintenance_status_eq, Hact.
  cbn [in_maintenance not_in_maintenance andb].
  unfold bind, now, gets, try_except, notify, ret, update_flags,
    insert_flag, modify.
  unfold entered, rewritten, set_flags, select_flags. cbn.
  destruct (filter _ (system_flags w)); cbn;
    destruct (deliver _); reflexivity.
Qed.

Lemma select_flags_entered
      (w : world) (level reason : string)
      (feature triggered_by : option string) :
  exists row rest,
    select_flags "maintenance_mode"
      (entered py_str isoformat w level reason feature triggered_by)
    = row :: rest /\
    flag_value row
    = py_str (maintenance_data level reason feature triggered_by
                (isoformat (ticks w))).
Proof.
  unfold entered, select_flags at 1. cbn [system_flags].
  destruct (select_flags "maintenance_mode" w) as [|r0 rows] eqn:E.
  - unfold select_flags in E. rewrite filter_app, E. cbn.
    eexists. eexists. split; reflexivity.
  - rewrite select_flags_rewritten.
    unfold select_flags in E. rewrite E. cbn [map].
    eexists. eexists. split; reflexivity.
Qed.

(** When the interpreter reads back what [str] printed for the record,
    the world that holds the record is in an active episode. *)
Lemma active_entered
      (w : world) (level reason : string)
      (feature triggered_by : option string) :
  literal_eval
    (py_str (maintenance_data level reason feature triggered_by
               (isoformat (ticks w))))
  = Ok (maintenance_data level reason feature triggered_by
          (isoformat (ticks w))) ->
  active (entered py_str isoformat w level reason feature triggered_by)
  = Some (maintenance_items level reason feature triggered_by
            (isoformat (ticks w))).
Proof.
  intros Hrt.
  destruct (select_flags_entered w level reason feature triggered_by)
    as (row & rest & Hrows & Hvalue).
  unfold active_flag, stored_flag.
  rewrite Hrows, Hvalue, Hrt. reflexivity.
Qed.

(** Entering "soft" and then "hard" ends at level "hard"; entering
    "hard" and then "soft" ends at level "hard" too, the second call
    changing nothing. *)
Lemma enter_soft_then_hard
      (w : world) (r1 r2 : string) (f1 f2 b1 b2 : option string) :
  (forall level reason feature triggered_by at_,
      literal_eval
        (py_str (maintenance_data level reason feature triggered_by at_))
      = Ok (maintenance_data level reason feature triggered_by at_)) ->
  active w = None ->
  let w1 := snd (enter "soft" r1 f1 b1 w) in
  let w2 := snd (enter "hard" r2 f2 b2 w1) in
  exists st, status w2 = (Ok st, w2) /\
             in_maintenance st = true /\
             status_level st = PStr "hard".
Proof.
  intros Hrt Hact w1 w2. subst w1 w2.
  rewrite (enter_maintenance_fresh w "soft" r1 f1 b1
             (or_introl eq_refl) Hact).
  cbn [snd].
  pose proof (active_entered w "soft" r1 f1 b1 (Hrt _ _ _ _ _)) as Ha1.
  rewrite (enter_maintenance_upgrades _ r2 f2 b2 _ Ha1 eq_refl).
  cbn [snd].
  rewrite get_maintenance_status_eq.
  unfold active_flag, stored_flag.
  destruct (active_flag_inv _ _ _ Ha1) as (row & rest & Hrows & _ & _).
  rewrite select_flags_upgraded, Hrows.
  cbn [map rewritten flag_value]. rewrite Hrt.
  eexists. repeat split; reflexivity.
Qed.

Lemma enter_hard_then_soft
      (w : world) (r1 r2 : string) (f1 f2 b1 b2 : option string) :
  (forall level reason feature triggered_by at_,
      literal_eval
        (py_str (maintenance_data level reason feature triggered_by at_))
      = Ok (maintenance_data level reason feature triggered_by at_)) ->
  active w = None ->
  let w1 := snd (enter "hard" r1 f1 b1 w) in
  snd (enter "soft" r2 f2 b2 w1) = w1 /\
  exists st, status w1 = (Ok st, w1) /\
             in_maintenance st = true /\
             status_level st = PStr "hard".
Proof.
  intros Hrt Hact w1. subst w1.
  rewrite (enter_maintenance_fresh w "hard" r1 f1 b1
             (or_intror eq_refl) Hact).
  cbn [snd].
  pose proof (active_entered w "hard" r1 f1 b1 (Hrt _ _ _ _ _)) as Ha1.
  split.
  - rewrite (enter_maintenance_keeps _ "soft" r2 f2 b2 _
               (or_introl eq_refl) Ha1 eq_refl).
    reflexivity.
  - rewrite get_maintenance_status_eq, Ha1.
    eexists. repeat split; reflexivity.
Qed.

(** C3.  While an episode is active, [enter_maintenance] at the same
    level, or at "soft" while the episode is "hard", returns the
    current status and changes nothing, so the level is never lowered.
    Entering "hard" during a "soft" episode returns level "hard" and
    rewrites every stored [maintenance_mode] flag to the new record,
    whose level is "hard"; read back, the status is "hard". *)
Theorem enter_maintenance_never_downgrades :
  forall (w : world) (level reason : string)
         (feature triggered_by : option string)
         (items : list (pyval * pyval)),
    active w = Some items ->
    level = "soft" \/ level = "hard" ->
    let current := dict_get items "level" PNone in
    let after := enter level reason feature triggered_by w in
    let record :=
      maintenance_data "hard" reason feature triggered_by
                       (isoformat (ticks w)) in
    (current = PStr level \/ current = PStr "hard" ->
     after = (Ok (status_of items), w)) /\
    (current = PStr "soft" -> level = "hard" ->
     (exists st, fst after = Ok st /\ in_maintenance st = true /\
                 status_level st = PStr "hard") /\
     select_flags "maintenance_mode" (snd after) <> [] /\
     (forall row,
         In row (select_flags "maintenance_mode" (snd after)) ->
         flag_value row = py_str record) /\
     get record "level" PNone = Ok (PStr "hard") /\
     (literal_eval (py_str record) = Ok record ->
      exists st, status (snd after) = (Ok st, snd after) /\
                 in_maintenance st = true /\
                 status_level st = PStr "hard")).
Proof.
  intros w level reason feature triggered_by items Hact Hlevel
         current after record.
  subst current after record.
  split.
  - intros Hsame.
    apply enter_maintenance_keeps; [exact Hlevel | exact Hact |].
    destruct Hsame as [-> | ->].
    + destruct Hlevel as [-> | ->]; reflexivity.
    + reflexivity.
  - intros Hsoft ->.
    destruct (active_flag_inv _ _ _ Hact) as (row0 & rest & Hrows & _ & _).
    rewrite (enter_maintenance_upgrades w reason feature triggered_by
               items Hact Hsoft).
    cbn [fst snd].
    rewrite select_flags_upgraded, Hrows.
    repeat split.
    + eexists. repeat split; reflexivity.
    + discriminate.
    + intros row Hin. eapply in_map_rewritten. exact Hin.
    + intros Hrt.
      rewrite get_maintenance_status_eq.
      unfold active_flag, stored_flag.
      rewrite select_flags_upgraded, Hrows.
      cbn [map rewritten flag_value]. rewrite Hrt.
      eexists. repeat split; reflexivity.
Qed.

(** C9, as amended.  [exit_maintenance] returns
    [{in_maintenance: False}] and changes nothing when no episode is
    active.  Otherwise it returns [in_maintenance: False] with the
    given [exited_by], and rewrites every stored [maintenance_mode]
    flag to the old dictionary with [is_active] false and
    [exited_at]/[exited_by] recorded.  It calls [notify_admin_override]
    exactly when [exited_by] is a non-empty string; with no
    [exited_by], and with an empty one, no notification is sent. *)
Theorem exit_maintenance_notifies_named_admin :
  forall (w : world) (exited_by : option string),
    let after := exit_ exited_by w in
    (active w = None -> after = (Ok nothing_to_exit, w)) /\
    (forall items,
        active w = Some items ->
        let items' :=
          exited_items items (isoformat (ticks w)) exited_by in
        (exists r, fst after = Ok r /\
                   result_in_maintenance r = false /\
                   result_exited_by r = Some exited_by) /\
        select_flags "maintenance_mode" (snd after) <> [] /\
        (forall row,
            In row (select_flags "maintenance_mode" (snd after)) ->
            flag_value row = py_str (PDict items') /\
            updated_by row = exited_by) /\
        dict_get items' "is_active" PNone = PBool false /\
        dict_get items' "exited_at" PNone
          = PStr (isoformat (ticks w)) /\
        dict_get items' "exited_by" (PBool true) = of_opt exited_by /\
        (forall admin,
            exited_by = Some admin -> admin <> "" ->
            outbox (snd after) =
              (outbox w ++
               [notify_admin_override admin "exit_maintenance"
                  (dict_get items "level" PNone)
                  (dict_get items "reason" PNone)])%list) /\
        (exited_by = None \/ exited_by = Some "" ->
         outbox (snd after) = outbox w)).
Proof.
  intros w exited_by after. subst after.
  split.
  - apply exit_maintenance_idle.
  - intros items Hact items'. subst items'.
    destruct (active_flag_inv _ _ _ Hact) as (row0 & rest & Hrows & _ & _).
    rewrite (exit_maintenance_active w exited_by items Hact).
    cbn [fst snd].
    rewrite select_flags_exited, Hrows.
    split; [|split; [|split; [|split; [|split; [|split; [|split]]]]]].
    + eexists. repeat split; reflexivity.
    + discriminate.
    + intros row Hin. split.
      * eapply in_map_rewritten. exact Hin.
      * apply in_map_iff in Hin. destruct Hin as [r [<- _]]. reflexivity.
    + unfold exited_items.
      rewrite !dict_get_set_other by discriminate.
      apply dict_get_set_same.
    + unfold exited_items.
      rewrite dict_get_set_other by discriminate.
      apply dict_get_set_same.
    + unfold exited_items. apply dict_get_set_same.
    + intros admin -> Hne. unfold exited. cbn [outbox truthy_opt].
      apply String.eqb_neq in Hne. rewrite Hne. reflexivity.
    + intros [-> | ->]; unfold exited; cbn [outbox truthy_opt];
        cbn; apply app_nil_r.
Qed.

(** C10.  When [exit_maintenance] closes an active episode, the
    [maintenance_mode] rows stay in the table, as many as before and
    at least one, and each of them now holds the dictionary that was
    read with [is_active], [exited_at] and [exited_by] set: every
    other key, and in particular [level], [reason], [feature],
    [triggered_by] and [triggered_at], keeps the value it had.  When
    the interpreter reads back what [str] printed, that dictionary is
    the flag the service reads next.  Flags of other names and the
    key table are left alone. *)
Theorem exit_maintenance_preserves_fields :
  forall (w : world) (exited_by : option string)
         (items : list (pyval * pyval)),
    active w = Some items ->
    let after := snd (exit_ exited_by w) in
    let items' := exited_items items (isoformat (ticks w)) exited_by in
    select_flags "maintenance_mode" after <> [] /\
    List.length (select_flags "maintenance_mode" after)
      = List.length (select_flags "maintenance_mode" w) /\
    (forall row,
        In row (select_flags "maintenance_mode" after) ->
        flag_value row = py_str (PDict items')) /\
    (literal_eval (py_str (PDict items')) = Ok (PDict items') ->
     stored_flag literal_eval after = Some items') /\
    (forall key d,
        key <> "is_active" -> key <> "exited_at" ->
        key <> "exited_by" ->
        dict_get items' key d = dict_get items key d) /\
    (dict_get items' "level" PNone = dict_get items "level" PNone /\
     dict_get items' "reason" PNone = dict_get items "reason" PNone /\
     dict_get items' "feature" PNone = dict_get items "feature" PNone /\
     dict_get items' "triggered_by" PNone
       = dict_get items "triggered_by" PNone /\
     dict_get items' "triggered_at" PNone
       = dict_get items "triggered_at" PNone) /\
    (dict_get items' "is_active" PNone = PBool false /\
     dict_get items' "exited_at" PNone = PStr (isoformat (ticks w)) /\
     dict_get items' "exited_by" (PBool true) = of_opt exited_by) /\
    filter (fun r => negb (String.eqb (flag_name r) "maintenance_mode"))
           (system_flags after)
      = filter
          (fun r => negb (String.eqb (flag_name r) "maintenance_mode"))
          (system_flags w) /\
    api_keys after = api_keys w.
Proof.
  intros w exited_by items Hact after items'. subst after items'.
  destruct (active_flag_inv _ _ _ Hact) as (row0 & rest & Hrows & _ & _).
  rewrite (exit_maintenance_active w exited_by items Hact).
  cbn [snd].
  assert (Hother : forall key d,
             key <> "is_active" -> key <> "exited_at" ->
             key <> "exited_by" ->
             dict_get (exited_items items (isoformat (ticks w)) exited_by)
                      key d = dict_get items key d).
  { intros key d H1 H2 H3. unfold exited_items.
    rewrite !dict_get_set_other by assumption. reflexivity. }
  split; [|split; [|split; [|split; [|split; [|split; [|split;
    [|split]]]]]]].
  - rewrite select_flags_exited, Hrows. discriminate.
  - rewrite select_flags_exited, length_map. reflexivity.
  - intros row Hin. rewrite select_flags_exited in Hin.
    eapply in_map_rewritten. exact Hin.
  - intros Hrt. unfold stored_flag.
    rewrite select_flags_exited, Hrows.
    cbn [map rewritten flag_value]. rewrite Hrt. reflexivity.
  - exact Hother.
  - repeat split; apply Hother; discriminate.
  - unfold exited_items. repeat split.
    + rewrite !dict_get_set_other by discriminate.
      apply dict_get_set_same.
    + rewrite dict_get_set_other by discriminate.
      apply dict_get_set_same.
    + apply dict_get_set_same.
  - unfold exited. cbn [system_flags]. apply other_flags_rewritten.
  - reflexivity.
Qed.

End Transitions.

(** ** The properties on concrete stores *)

Import Examples.

Local Abbreviation status_c := (get_maintenance_status Literal.literal_eval).
Local Abbreviation enter_c :=
  (enter_maintenance Literal.literal_eval Literal.repr Literal.isoformat
                     Literal.deliver).
Local Abbreviation exit_c :=
  (exit_maintenance Literal.literal_eval Literal.repr Literal.isoformat
                    Literal.deliver).

Lemma evaluate_maintenance_trigger_levels_witness :
  let unconfigured := store [key "k1" 10 "active"] [] in
  let disabled := store [key "k1" 10 "disabled"; key "k2" 5 "disabled"] [] in
  let degraded := store [key "k1" 10 "degraded"; key "k2" 5 "disabled"] [] in
  let healthy := store [key "k1" 10 "active"; key "k2" 5 "degraded"] [] in
  evaluate_maintenance_trigger "mcq" 10 unconfigured
    = (Ok (Some "soft"), unconfigured) /\
  evaluate_maintenance_trigger "chat" 10 disabled
    = (Ok (Some "hard"), disabled) /\
  evaluate_maintenance_trigger "chat" 0 degraded
    = (Ok (Some "soft"), degraded) /\
  evaluate_maintenance_trigger "chat" 5 healthy
    = (Ok (Some "soft"), healthy) /\
  evaluate_maintenance_trigger "chat" 4 healthy = (Ok None, healthy).
Proof.
  intros unconfigured disabled degraded healthy.
  split; [|split; [|split; [|split]]].
  - apply (proj1 (evaluate_maintenance_trigger_levels unconfigured "mcq" 10)).
    reflexivity.
  - apply (proj1 (proj2
             (evaluate_maintenance_trigger_levels disabled "chat" 10))).
    + discriminate.
    + reflexivity.
    + reflexivity.
  - apply (proj1 (proj2 (proj2
             (evaluate_maintenance_trigger_levels degraded "chat" 0)))).
    + reflexivity.
    + reflexivity.
  - apply (proj1 (proj2 (proj2 (proj2
             (evaluate_maintenance_trigger_levels healthy "chat" 5))))).
    + reflexivity.
    + lia.
  - apply (proj2 (proj2 (proj2 (proj2
             (evaluate_maintenance_trigger_levels healthy "chat" 4))))).
    + reflexivity.
    + lia.
Defined.

Lemma get_maintenance_status_fails_open_witness :
  let absent := store [] [] in
  let switched_off := store [] [flag "off"] in
  let not_a_dict := store [] [flag "None"] in
  let inactive := store [] [flag inactive_flag] in
  status_c absent = (Ok not_in_maintenance, absent) /\
  status_c switched_off = (Ok not_in_maintenance, switched_off) /\
  status_c not_a_dict = (Ok not_in_maintenance, not_a_dict) /\
  status_c inactive = (Ok not_in_maintenance, inactive).
Proof.
  intros absent switched_off not_a_dict inactive.
  split; [|split; [|split]].
  - apply (proj1 (proj2
             (get_maintenance_status_fails_open Literal.literal_eval absent))).
    reflexivity.
  - apply (proj1 (proj2 (proj2
             (get_maintenance_status_fails_open Literal.literal_eval
                switched_off)))
             (flag "off") [] Literal.malformed).
    + reflexivity.
    + reflexivity.
  - apply (proj1 (proj2 (proj2 (proj2
             (get_maintenance_status_fails_open Literal.literal_eval
                not_a_dict))))
             (flag "None") [] PNone).
    + reflexivity.
    + reflexivity.
    + reflexivity.
  - apply (proj2 (proj2 (proj2 (proj2
             (get_maintenance_status_fails_open Literal.literal_eval
                inactive))))
             (flag inactive_flag) []
             [ (PStr "level", PStr "soft");
               (PStr "reason", PStr "keys down");
               (PStr "is_active", PBool false) ]).
    + reflexivity.
    + reflexivity.
    + reflexivity.
Defined.

Lemma enter_maintenance_never_downgrades_witness :
  enter_c "soft" "again" None None in_hard
    = (Ok (status_of hard_items), in_hard) /\
  enter_c "soft" "again" None None in_soft
    = (Ok (status_of soft_items), in_soft) /\
  exists st,
    status_c (snd (enter_c "hard" "worse" (Some "chat") None in_soft))
      = (Ok st, snd (enter_c "hard" "worse" (Some "chat") None in_soft)) /\
    in_maintenance st = true /\ status_level st = PStr "hard".
Proof.
  split; [|split].
  - apply (proj1 (enter_maintenance_never_downgrades
                    Literal.literal_eval Literal.repr Literal.isoformat
                    Literal.deliver in_hard "soft" "again" None None
                    hard_items eq_refl (or_introl eq_refl))).
    right. reflexivity.
  - apply (proj1 (enter_maintenance_never_downgrades
                    Literal.literal_eval Literal.repr Literal.isoformat
                    Literal.deliver in_soft "soft" "again" None None
                    soft_items eq_refl (or_introl eq_refl))).
    left. reflexivity.
  - apply (proj2 (enter_maintenance_never_downgrades
                    Literal.literal_eval Literal.repr Literal.isoformat
                    Literal.deliver in_soft "hard" "worse" (Some "chat")
                    None soft_items eq_refl (or_intror eq_refl))
             eq_refl eq_refl).
    reflexivity.
Defined.

Lemma exit_maintenance_notifies_named_admin_witness :
  exit_c (Some "admin-7") (store [] []) = (Ok nothing_to_exit, store [] []) /\
  outbox (snd (exit_c (Some "admin-7") in_soft))
    = [notify_admin_override "admin-7" "exit_maintenance"
         (PStr "soft") (PStr "keys down")] /\
  outbox (snd (exit_c None in_soft)) = [].
Proof.
  split; [|split].
  - apply (proj1 (exit_maintenance_notifies_named_admin
                    Literal.literal_eval Literal.repr Literal.isoformat
                    Literal.deliver (store [] []) (Some "admin-7"))).
    reflexivity.
  - apply (proj2 (exit_maintenance_notifies_named_admin
                    Literal.literal_eval Literal.repr Literal.isoformat
                    Literal.deliver in_soft (Some "admin-7"))
             soft_items eq_refl).
    + reflexivity.
    + discriminate.
  - apply (proj2 (exit_maintenance_notifies_named_admin
                    Literal.literal_eval Literal.repr Literal.isoformat
                    Literal.deliver in_soft None)
             soft_items eq_refl).
    left. reflexivity.
Defined.

(** C9, as stated, fails for an empty [exited_by]: the argument is
    provided, recorded in the flag and returned, the episode is closed,
    and no override notification is sent. *)
Lemma exit_maintenance_empty_admin_counterexample :
  let exited_by := Some "" in
  let after := exit_c exited_by in_soft in
  active_flag Literal.literal_eval in_soft = Some soft_items /\
  (exists r, fst after = Ok r /\ result_exited_by r = Some exited_by) /\
  stored_flag Literal.literal_eval (snd after)
    = Some (exited_items soft_items "T2" exited_by) /\
  active_flag Literal.literal_eval (snd after) = None /\
  outbox (snd after) = outbox in_soft /\
  ~ (outbox (snd after) <> outbox in_soft <-> exited_by <> None).
Proof.
  vm_compute.
  split; [reflexivity|].
  split; [eexists; split; reflexivity|].
  split; [reflexivity|]. split; [reflexivity|]. split; [reflexivity|].
  intros [_ Hfires]. apply Hfires; [discriminate | reflexivity].
Qed.

Lemma exit_maintenance_preserves_fields_witness :
  let after := snd (exit_c (Some "admin-7") in_soft) in
  let items' := exited_items soft_items "T2" (Some "admin-7") in
  select_flags "maintenance_mode" after <> [] /\
  (forall row,
      In row (select_flags "maintenance_mode" after) ->
      flag_value row = Literal.repr (PDict items')) /\
  stored_flag Literal.literal_eval after = Some items' /\
  dict_get items' "level" PNone = PStr "soft" /\
  dict_get items' "is_active" PNone = PBool false.
Proof.
  intros after items'.
  pose proof (exit_maintenance_preserves_fields
                Literal.literal_eval Literal.repr Literal.isoformat
                Literal.deliver in_soft (Some "admin-7") soft_items
                eq_refl) as H.
  cbv zeta in H.
  destruct H as (Hsome & _ & Hrows & Hstored & _ & (Hlevel & _)
                 & (Hactive & _) & _).
  split; [exact Hsome|]. split; [exact Hrows|].
  split; [apply Hstored; reflexivity|].
  split; [exact Hlevel | exact Hactive].
Defined.

End MaintenanceProps.

(** * Properties of the encryption service *)

Module EncryptionProps.

Import Encryption.

Lemma upcoming_length (n : nat) (e : entropy) :
  List.length (upcoming n e) = n.
Proof. unfold upcoming. rewrite length_map, length_seq. reflexivity. Qed.

Lemma app_inj_length {A : Type} (a b c d : list A) :
  List.length a = List.length c ->
  (a ++ b = c ++ d)%list -> a = c /\ b = d.
Proof.
  revert c. induction a as [|x a IH]; intros [|y c] Hlen Heq;
    try discriminate.
  - split; [reflexivity | exact Heq].
  - cbn in Hlen, Heq. injection Heq as -> Heq.
    destruct (IH c) as [-> ->]; [lia | exact Heq |].
    split; reflexivity.
Qed.

Lemma Ok_inj {A : Type} (a b : A) : Ok a = Ok b -> a = b.
Proof. intros H. injection H as H. exact H. Qed.

Lemma split_at_length {A : Type} (a b : list A) :
  firstn (List.length a) (a ++ b) = a /\
  skipn (List.length a) (a ++ b) = b.
Proof.
  induction a as [|x a [IHf IHs]]; [split; reflexivity|].
  cbn [List.length app firstn skipn]. rewrite IHf, IHs.
  split; reflexivity.
Qed.

Section Contract.

Variable b64encode : bytes -> string.
Variable b64decode : string -> res bytes.
Variable utf8_encode : string -> res bytes.
Variable utf8_decode : bytes -> res string.
Variable aesgcm_encrypt : bytes -> bytes -> bytes -> res bytes.
Variable aesgcm_decrypt : bytes -> bytes -> bytes -> res bytes.

Local Abbreviation make := (init b64decode).
Local Abbreviation encrypt :=
  (encrypt_key b64encode utf8_encode aesgcm_encrypt).
Local Abbreviation decrypt :=
  (decrypt_key b64decode utf8_decode aesgcm_decrypt).

(** ** What holds of any libraries *)

Lemma init_key_length (encryption_key getenv : option string)
      (self : EncryptionService) :
  make encryption_key getenv = Ok self -> List.length (key self) = 32.
Proof.
  unfold init.
  destruct (negb (truthy_opt _)); [discriminate|].
  destruct (b64decode _) as [k|e]; cbn [res_bind]; [|discriminate].
  destruct (List.length k =? 32)%nat eqn:E; cbn [negb];
    [|discriminate].
  intros [= <-]. cbn [key]. apply Nat.eqb_eq. exact E.
Qed.

(** Decryption reads no entropy and leaves the world alone. *)
Lemma decrypt_key_pure (self : EncryptionService) (c : string)
      (e e' : entropy) :
  fst (decrypt self c e) = fst (decrypt self c e') /\
  snd (decrypt self c e) = e.
Proof.
  unfold decrypt_key.
  destruct (String.eqb c ""); [split; reflexivity|].
  unfold try_except, bind, lift, raise, ret.
  destruct (b64decode c) as [d|x]; [|destruct x; split; reflexivity].
  destruct (List.length d <? 12)%nat; [split; reflexivity|].
  destruct (aesgcm_decrypt _ _ _) as [p|x];
    [|destruct x; split; reflexivity].
  destruct (utf8_decode p) as [s|x]; [|destruct x]; split; reflexivity.
Qed.

Lemma decrypt_key_empty (self : EncryptionService) (e : entropy) :
  decrypt self "" e = (Raise empty_ciphertext, e).
Proof. reflexivity. Qed.

Lemma decrypt_key_too_short (self : EncryptionService) (c : string)
      (d : bytes) (e : entropy) :
  c <> "" -> b64decode c = Ok d -> List.length d < 12 ->
  decrypt self c e =
    (Raise (ValueErrorFrom "Failed to decrypt API key: " too_short), e).
Proof.
  intros Hc Hd Hlen. unfold decrypt_key.
  apply String.eqb_neq in Hc. rewrite Hc.
  unfold try_except, bind, lift, raise. rewrite Hd.
  apply Nat.ltb_lt in Hlen. rewrite Hlen. reflexivity.
Qed.

Lemma decrypt_key_invalid_tag (self : EncryptionService) (c : string)
      (d : bytes) (e : entropy) :
  c <> "" -> b64decode c = Ok d -> 12 <= List.length d ->
  aesgcm_decrypt (key self) (firstn 12 d) (skipn 12 d) = Raise InvalidTag ->
  decrypt self c e = (Raise authentication_failed, e).
Proof.
  intros Hc Hd Hlen Htag. unfold decrypt_key.
  apply String.eqb_neq in Hc. rewrite Hc.
  unfold try_except, bind, lift, raise. rewrite Hd.
  replace (List.length d <? 12)%nat with false
    by (symmetry; apply Nat.ltb_ge; exact Hlen).
  rewrite Htag. reflexivity.
Qed.

(** Every byte of the decoded blob is handed to the cipher: two
    different blobs of at least 12 bytes differ in the nonce or in the
    ciphertext-with-tag that [decrypt_key] passes on. *)
Lemma decrypt_key_covers_blob (d d' : bytes) :
  d <> d' ->
  (firstn 12 d, skipn 12 d) <> (firstn 12 d', skipn 12 d').
Proof.
  intros Hne Heq. apply Hne.
  rewrite <- (firstn_skipn 12 d), <- (firstn_skipn 12 d').
  set (n := 12) in *.
  assert (Hf : firstn n d = firstn n d') by congruence.
  assert (Hs : skipn n d = skipn n d') by congruence.
  rewrite Hf, Hs. reflexivity.
Qed.

(** A plaintext comes back only from a blob the cipher accepted. *)
Lemma decrypt_key_returns (self : EncryptionService) (c x : string)
      (e : entropy) :
  fst (decrypt self c e) = Ok x ->
  exists d p,
    b64decode c = Ok d /\ 12 <= List.length d /\
    aesgcm_decrypt (key self) (firstn 12 d) (skipn 12 d) = Ok p /\
    utf8_decode p = Ok x.
Proof.
  unfold decrypt_key.
  destruct (String.eqb c ""); [discriminate|].
  unfold try_except, bind, lift, raise, ret.
  destruct (b64decode c) as [d|y]; [|destruct y; discriminate].
  destruct (List.length d <? 12)%nat eqn:El; [discriminate|].
  destruct (aesgcm_decrypt _ _ _) as [p|y] eqn:Ea;
    [|destruct y; discriminate].
  destruct (utf8_decode p) as [s|y] eqn:Eu; [|destruct y; discriminate].
  cbn [fst]. intros [= <-].
  exists d, p. apply Nat.ltb_ge in El. auto.
Qed.

(** ** What holds of libraries that meet their contract *)

Hypothesis b64_round_trip : forall d, b64decode (b64encode d) = Ok d.
Hypothesis b64_nonempty : forall d, d <> [] -> b64encode d <> "".
Hypothesis utf8_round_trip :
  forall s b, utf8_encode s = Ok b -> utf8_decode b = Ok s.
Hypothesis aesgcm_round_trip :
  forall key nonce data,
    List.length key = 32 -> List.length nonce = 12 ->
    exists c,
      aesgcm_encrypt key nonce data = Ok c /\
      aesgcm_decrypt key nonce c = Ok data.

Lemma encrypt_key_then_decrypt
      (self : EncryptionService) (x : string) (b : bytes)
      (e : entropy) :
  List.length (key self) = 32 -> x <> "" ->
  utf8_encode x = Ok b -> outage e (drawn e) = None ->
  exists c,
    aesgcm_encrypt (key self) (upcoming 12 e) b = Ok c /\
    encrypt self x e =
      (Ok (b64encode (upcoming 12 e ++ c)%list), advance 12 e) /\
    forall e', decrypt self (b64encode (upcoming 12 e ++ c)%list) e'
               = (Ok x, e').
Proof.
  intros Hkey Hx Hb Hout.
  destruct (aesgcm_round_trip (key self) (upcoming 12 e) b
              Hkey (upcoming_length 12 e)) as (c & Henc & Hdec).
  exists c. split; [exact Henc|]. split.
  - unfold encrypt_key. apply String.eqb_neq in Hx. rewrite Hx.
    unfold try_except, bind, urandom, lift, ret.
    rewrite Hout, Hb, Henc. reflexivity.
  - intros e'. unfold decrypt_key.
    assert (Hne : b64encode (upcoming 12 e ++ c)%list <> "").
    { apply b64_nonempty. intros Habs.
      apply (f_equal (@List.length byte)) in Habs.
      rewrite length_app, upcoming_length in Habs. cbn in Habs. lia. }
    apply String.eqb_neq in Hne. rewrite Hne.
    unfold try_except, bind, lift, raise, ret.
    rewrite b64_round_trip.
    replace (List.length (upcoming 12 e ++ c)%list <? 12)%nat with false
      by (symmetry; apply Nat.ltb_ge;
          rewrite length_app, upcoming_length; lia).
    destruct (split_at_length (upcoming 12 e) c) as [Hf Hs].
    rewrite upcoming_length in Hf, Hs.
    rewrite Hf, Hs, Hdec, (utf8_round_trip _ _ Hb). reflexivity.
Qed.

(** C4, as amended.  With a key the constructor accepts (32 bytes), a
    non-empty plaintext [x] that UTF-8 encodes, and [os.urandom]
    answering, [encrypt_key] returns a blob that [decrypt_key] turns
    back into [x], and so does a second call.  Each call draws its
    nonce from [os.urandom]: the first takes the next 12 bytes, the
    second the 12 bytes after those, and each blob, decoded, starts
    with the nonce of its call.  The two blobs are equal exactly when
    the two nonces drawn are equal.  [decrypt_key] gives the same
    answer in every world and changes none. *)
Theorem encrypt_decrypt_round_trip :
  forall (encryption_key getenv : option string)
         (self : EncryptionService) (x : string) (b : bytes)
         (e0 : entropy),
    make encryption_key getenv = Ok self ->
    x <> "" ->
    utf8_encode x = Ok b ->
    outage e0 (drawn e0) = None ->
    outage e0 (drawn e0 + 12) = None ->
    let first := encrypt self x e0 in
    let second := encrypt self x (snd first) in
    let nonce1 := map (tape e0) (seq (drawn e0) 12) in
    let nonce2 := map (tape e0) (seq (drawn e0 + 12) 12) in
    exists c1 c2 d1 d2,
      fst first = Ok c1 /\ fst second = Ok c2 /\
      (forall e, decrypt self c1 e = (Ok x, e)) /\
      (forall e, decrypt self c2 e = (Ok x, e)) /\
      snd first = advance 12 e0 /\
      snd second = advance 12 (advance 12 e0) /\
      b64decode c1 = Ok d1 /\ firstn 12 d1 = nonce1 /\
      b64decode c2 = Ok d2 /\ firstn 12 d2 = nonce2 /\
      (c1 = c2 <-> nonce1 = nonce2) /\
      (forall c e e',
          fst (decrypt self c e) = fst (decrypt self c e') /\
          snd (decrypt self c e) = e).
Proof.
  intros encryption_key getenv self x b e0 Hinit Hx Hb Hout1 Hout2
         first second nonce1 nonce2.
  subst first second.
  pose proof (init_key_length _ _ _ Hinit) as Hkey.
  destruct (encrypt_key_then_decrypt self x b e0 Hkey Hx Hb Hout1)
    as (t1 & Hseal1 & Henc1 & Hdec1).
  rewrite Henc1. cbn [fst snd].
  destruct (encrypt_key_then_decrypt self x b (advance 12 e0)
              Hkey Hx Hb Hout2)
    as (t2 & Hseal2 & Henc2 & Hdec2).
  rewrite Henc2. cbn [fst snd].
  change (upcoming 12 e0) with nonce1 in *.
  change (upcoming 12 (advance 12 e0)) with nonce2 in *.
  assert (Hlen1 : List.length nonce1 = 12)
    by (subst nonce1; rewrite length_map, length_seq; reflexivity).
  assert (Hlen2 : List.length nonce2 = 12)
    by (subst nonce2; rewrite length_map, length_seq; reflexivity).
  exists (b64encode (nonce1 ++ t1)%list), (b64encode (nonce2 ++ t2)%list),
         (nonce1 ++ t1)%list, (nonce2 ++ t2)%list.
  split; [reflexivity|]. split; [reflexivity|].
  split; [exact Hdec1|]. split; [exact Hdec2|].
  split; [reflexivity|]. split; [reflexivity|].
  split; [apply b64_round_trip|].
  split.
  { destruct (split_at_length nonce1 t1) as [Hf _].
    rewrite Hlen1 in Hf. exact Hf. }
  split; [apply b64_round_trip|].
  split.
  { destruct (split_at_length nonce2 t2) as [Hf _].
    rewrite Hlen2 in Hf. exact Hf. }
  split.
  - split.
    + intros Heq.
      apply (f_equal b64decode) in Heq.
      rewrite !b64_round_trip in Heq. apply Ok_inj in Heq.
      apply app_inj_length in Heq; [|congruence].
      apply Heq.
    + intros Heq. rewrite <- Heq in Hseal2.
      rewrite Hseal1 in Hseal2. apply Ok_inj in Hseal2.
      rewrite <- Heq, Hseal2. reflexivity.
  - intros c e e'. apply decrypt_key_pure.
Qed.

End Contract.

(** ** The stand-in libraries meet the contract *)

Lemma standin_b64_round_trip (d : bytes) :
  Standin.b64decode (Standin.b64encode d) = Ok d.
Proof.
  unfold Standin.b64decode, Standin.b64encode.
  rewrite list_byte_of_string_of_list_byte. reflexivity.
Defined.

Lemma standin_b64_nonempty (d : bytes) :
  d <> [] -> Standin.b64encode d <> "".
Proof.
  destruct d as [|b d]; [congruence|]. intros _. discriminate.
Defined.

Lemma standin_utf8_round_trip (s : string) (b : bytes) :
  Standin.utf8_encode s = Ok b -> Standin.utf8_decode b = Ok s.
Proof.
  unfold Standin.utf8_decode, Standin.utf8_encode.
  destruct (Standin.has_surrogate (list_byte_of_string s)) eqn:E;
    [discriminate|].
  intros H. apply Ok_inj in H. subst b. rewrite E.
  rewrite string_of_list_byte_of_string. reflexivity.
Defined.

Lemma standin_aesgcm_round_trip (key nonce data : bytes) :
  List.length key = 32 -> List.length nonce = 12 ->
  exists c,
    Standin.aesgcm_encrypt key nonce data = Ok c /\
    Standin.aesgcm_decrypt key nonce c = Ok data.
Proof.
  intros Hk Hn. eexists. split; [reflexivity|].
  unfold Standin.aesgcm_decrypt.
  assert (Htag : List.length (Standin.tag key nonce) = 16).
  { unfold Standin.tag. rewrite length_firstn, length_app. lia. }
  rewrite length_app, Htag.
  replace (List.length data + 16 <? 16)%nat with false
    by (symmetry; apply Nat.ltb_ge; lia).
  replace (List.length data + 16 - 16) with (List.length data) by lia.
  destruct (split_at_length data (Standin.tag key nonce)) as [Hf Hs].
  rewrite Hf, Hs.
  unfold Standin.bytes_eqb.
  destruct (list_eq_dec byte_eq_dec _ _); [reflexivity | congruence].
Defined.

Lemma encrypt_decrypt_round_trip_witness :
  exists self c1 c2,
    init Standin.b64decode (Some "0123456789abcdef0123456789abcdef") None
      = Ok self /\
    fst (encrypt_key Standin.b64encode Standin.utf8_encode
                     Standin.aesgcm_encrypt self "sk-live-123"
                     Standin.counting) = Ok c1 /\
    fst (encrypt_key Standin.b64encode Standin.utf8_encode
                     Standin.aesgcm_encrypt self "sk-live-123"
                     (advance 12 Standin.counting)) = Ok c2 /\
    c1 <> c2 /\
    decrypt_key Standin.b64decode Standin.utf8_decode
                Standin.aesgcm_decrypt self c1 Standin.counting
      = (Ok "sk-live-123", Standin.counting) /\
    decrypt_key Standin.b64decode Standin.utf8_decode
                Standin.aesgcm_decrypt self c2 Standin.counting
      = (Ok "sk-live-123", Standin.counting).
Proof.
  eexists.
  destruct (encrypt_decrypt_round_trip
              Standin.b64encode Standin.b64decode
              Standin.utf8_encode Standin.utf8_decode
              Standin.aesgcm_encrypt Standin.aesgcm_decrypt
              standin_b64_round_trip standin_b64_nonempty
              standin_utf8_round_trip standin_aesgcm_round_trip
              (Some "0123456789abcdef0123456789abcdef") None
              _ "sk-live-123" _ Standin.counting eq_refl
              ltac:(discriminate) eq_refl eq_refl eq_refl)
    as (c1 & c2 & d1 & d2 & Hc1 & Hc2 & H1 & H2 & Hs1 & _ & _ & _ & _ & _
        & Hfresh & _).
  exists c1, c2.
  split; [reflexivity|].
  split; [exact Hc1|].
  split; [rewrite <- Hs1; exact Hc2|].
  split; [|split; [apply H1 | apply H2]].
  intros Heq. apply Hfresh in Heq. vm_compute in Heq. discriminate Heq.
Defined.

(** C4, as stated, fails on a plaintext that UTF-8 cannot encode: for
    the text that is one lone surrogate, which is not empty,
    [encrypt_key] raises "Failed to encrypt API key: ..." under a valid
    key, so there is no blob to decrypt. *)
Lemma encrypt_key_lone_surrogate_counterexample :
  exists self,
    init Standin.b64decode (Some "0123456789abcdef0123456789abcdef") None
      = Ok self /\
    Standin.lone_surrogate <> "" /\
    fst (encrypt_key Standin.b64encode Standin.utf8_encode
                     Standin.aesgcm_encrypt self Standin.lone_surrogate
                     Standin.counting)
    = Raise (ValueErrorFrom "Failed to encrypt API key: "
                            UnicodeEncodeError).
Proof.
  eexists. split; [reflexivity|]. split; [discriminate|]. reflexivity.
Qed.

End EncryptionProps.

(** * Properties of the Gemini adapter *)

Module GeminiProps.

Import Gemini.

Lemma failure_not_success (m : error_message) :
  success (failure m) = false.
Proof. reflexivity. Qed.

Lemma handler_not_success (e : exn) : success (handler e) = false.
Proof. destruct e; reflexivity. Qed.


(** [bind_ok H as x E]: the scrutinee of the bind at the head of [H]
    returned [x], by [E]. *)
Tactic Notation "bind_ok" hyp(H) "as" ident(x) ident(E) :=
  match type of H with
  | res_bind ?r _ = Ok _ =>
      destruct r as [x|] eqn:E; cbn [res_bind] in H; [|discriminate H]
  end.

(** A successful reading went through every lookup, and its token count
    is the reported one unless that is zero, in which case it is the
    estimate. *)
Lemma read_response_success (prompt : string) (json : res pyval)
      (r : result) :
  read_response prompt json = Ok r ->
  success r = true ->
  exists response_data generated_text reported,
    json = Ok response_data /\
    well_formed response_data generated_text reported /\
    content r = Some generated_text /\
    error r = None /\
    (eq_zero reported = false -> tokens_used r = reported) /\
    (eq_zero reported = true ->
     exists n, len generated_text = Ok n /\
               tokens_used r =
                 PInt (Z.of_nat (str_len prompt) / 4 + n / 4)).
Proof.
  unfold read_response. intros H Hs.
  bind_ok H as response_data Hjson.
  bind_ok H as candidates Hcandidates.
  destruct (truthy candidates) eqn:Tc; cbn [negb] in H;
    [|injection H as <-; discriminate Hs].
  bind_ok H as candidate Hcandidate.
  bind_ok H as content_ Hcontent.
  bind_ok H as parts Hparts.
  destruct (truthy parts) eqn:Tp; cbn [negb] in H;
    [|injection H as <-; discriminate Hs].
  bind_ok H as part Hpart.
  bind_ok H as generated_text Htext.
  bind_ok H as usage_metadata Husage.
  bind_ok H as reported Hreported.
  bind_ok H as tokens Htokens.
  injection H as <-. cbn [content error tokens_used].
  exists response_data, generated_text, reported.
  split; [reflexivity|].
  split.
  { constructor.
    - exists candidates, candidate, content_, parts, part.
      repeat split; assumption.
    - exists usage_metadata. split; assumption. }
  split; [reflexivity|]. split; [reflexivity|].
  destruct (eq_zero reported).
  - split; [discriminate|]. intros _.
    bind_ok Htokens as n Hlen. injection Htokens as <-.
    exists n. split; reflexivity.
  - split; [|discriminate]. intros _.
    injection Htokens as <-. reflexivity.
Qed.



Section Adapter.

Variable post : string -> string -> option string -> http_outcome.

Local Abbreviation call := (call_gemini post).


Lemma call_gemini_success (api_key prompt : string)
      (system_prompt : option string) :
  success (call api_key prompt system_prompt) = true ->
  exists text json,
    post api_key prompt system_prompt = Response 200 text json /\
    read_response prompt json = Ok (call api_key prompt system_prompt).
Proof.
  unfold call_gemini.
  destruct (post api_key prompt system_prompt) as [e|code text json].
  - rewrite handler_not_success. discriminate.
  - destruct (code =? 200)%Z eqn:Ec; cbn [negb].
    + apply Z.eqb_eq in Ec. subst code.
      destruct (read_response prompt json) as [r|e] eqn:E.
      * intros _. exists text, json. split; [reflexivity | exact E].
      * rewrite handler_not_success. discriminate.
    + discriminate.
Qed.

(** X22.  Reported usage.  A successful answer comes from a response
    with status 200 whose body leads through [candidates[0]],
    [content] and [parts[0]] to a text, which is the content of the
    answer; it carries no error, and when the provider reports a
    [totalTokenCount] that is not zero, [tokens_used] is that
    count. *)
Theorem call_gemini_reports_provider_usage :
  forall (api_key prompt : string) (system_prompt : option string),
    let r := call api_key prompt system_prompt in
    success r = true ->
    exists text json response_data generated_text reported,
      post api_key prompt system_prompt = Response 200 text json /\
      json = Ok response_data /\
      well_formed response_data generated_text reported /\
      content r = Some generated_text /\
      error r = None /\
      (eq_zero reported = false -> tokens_used r = reported).
Proof.
  intros api_key prompt system_prompt r Hs. subst r.
  destruct (call_gemini_success _ _ _ Hs) as (text & json & Hpost & Hread).
  destruct (read_response_success _ _ _ Hread Hs)
    as (response_data & generated_text & reported &
        Hjson & Hwf & Hcontent & Herror & Hreported & _).
  exists text, json, response_data, generated_text, reported.
  repeat (split; [assumption|]). exact Hreported.
Qed.


End Adapter.

(** ** The adapter on concrete responses *)


(** C6 fails on a short exchange.  The answer "d" to the prompt "abc",
    with no usage reported, is a success with non-empty content whose
    token count is 0: the code adds [len("abc") // 4] and
    [len("d") // 4], where [len(prompt + content) / 4] is 1. *)
Lemma call_gemini_short_answer_counterexample :
  let r := call_gemini (answering (body (PStr "d") None)) "key" "abc" None in
  success r = true /\
  content r = Some (PStr "d") /\
  tokens_used r = PInt 0 /\
  estimate_of_concatenation "abc" "d" = 1%Z /\
  tokens_used r <> PInt (estimate_of_concatenation "abc" "d").
Proof. vm_compute. repeat split; try reflexivity. discriminate. Qed.

(** C7 fails on an empty text.  Status 200 with a candidate whose only
    part has the text "" is a success with empty content, with or
    without reported usage. *)
Lemma call_gemini_empty_text_counterexample :
  call_gemini (answering (body (PStr "") None)) "key" "hello" None
  = {| success := true; content := Some (PStr ""); error := None;
       tokens_used := PInt 1 |} /\
  call_gemini (answering (body (PStr "") (Some (PInt 7)))) "key" "hello" None
  = {| success := true; content := Some (PStr ""); error := None;
       tokens_used := PInt 7 |}.
Proof. split; reflexivity. Qed.

(** The estimate counts characters, and a reported count of [0.0] is a
    missing count: the prompt "hi" with an answer of two emoji, each
    four bytes long, is estimated at [2 // 4 + 2 // 4]. *)
Example call_gemini_estimate_counts_characters :
  let emoji :=
    String "240" (String "159" (String "152" (String "128" ""))) in
  tokens_used
    (call_gemini
       (answering (body (PStr (emoji ++ emoji))
                        (Some (PFloat PrimFloat.zero))))
       "key" "hi" None)
  = PInt 0.
Proof. reflexivity. Qed.

Lemma call_gemini_reports_provider_usage_witness :
  tokens_used
    (call_gemini
       (answering (body (PStr "Paris is the capital.") (Some (PInt 25))))
       "key" "What is the capital of France?" None)
  = PInt 25.
Proof.
  destruct (call_gemini_reports_provider_usage
              (answering
                 (body (PStr "Paris is the capital.") (Some (PInt 25))))
              "key" "What is the capital of France?" None eq_refl)
    as (text & json & rd & g & reported & Hpost & Hjson & _).
  reflexivity.
Defined.


End GeminiProps.

(** * Properties of the fallback loop *)

Module RouterProps.

Import Maintenance Router.

(** ** The order of the keys *)

Lemma forallb_insert_key (p : api_key -> bool) (k : api_key)
      (l : list api_key) :
  forallb p (insert_key k l) = p k && forallb p l.
Proof.
  induction l as [|h t IH]; cbn [insert_key forallb].
  - reflexivity.
  - destruct (key_priority h <=? key_priority k)%Z; cbn [forallb].
    + reflexivity.
    + rewrite IH. destruct (p k), (p h); reflexivity.
Qed.

Lemma forallb_below (a b : Z) (l : list api_key) :
  (a <= b)%Z ->
  forallb (fun k' => (key_priority k' <=? a)%Z) l = true ->
  forallb (fun k' => (key_priority k' <=? b)%Z) l = true.
Proof.
  intros Hab H. rewrite forallb_forall in *.
  intros x Hx. specialize (H x Hx).
  apply Z.leb_le in H. apply Z.leb_le. lia.
Qed.

Lemma descending_insert_key (k : api_key) (l : list api_key) :
  descending l = true -> descending (insert_key k l) = true.
Proof.
  induction l as [|h t IH]; cbn [insert_key descending]; [reflexivity|].
  intros H. apply andb_prop in H. destruct H as [Hh Ht].
  destruct (key_priority h <=? key_priority k)%Z eqn:E.
  - cbn [descending forallb]. rewrite E, Hh, Ht. cbn [andb].
    apply Z.leb_le in E.
    rewrite (forallb_below _ _ _ E Hh). reflexivity.
  - cbn [descending]. rewrite forallb_insert_key, Hh, (IH Ht).
    apply Z.leb_gt in E.
    replace (key_priority k <=? key_priority h)%Z with true
      by (symmetry; apply Z.leb_le; lia).
    reflexivity.
Qed.

Lemma descending_sort_keys (l : list api_key) :
  descending (sort_keys l) = true.
Proof.
  induction l as [|k rest IH]; [reflexivity|].
  cbn [sort_keys]. apply descending_insert_key. exact IH.
Qed.

Lemma in_insert_key (x k : api_key) (l : list api_key) :
  In x (insert_key k l) <-> x = k \/ In x l.
Proof.
  induction l as [|h t IH]; cbn [insert_key].
  - cbn. intuition auto.
  - destruct (key_priority h <=? key_priority k)%Z; cbn [In].
    + intuition auto.
    + rewrite IH. intuition auto.
Qed.

Lemma in_sort_keys (x : api_key) (l : list api_key) :
  In x (sort_keys l) <-> In x l.
Proof.
  induction l as [|k rest IH]; cbn [sort_keys]; [reflexivity|].
  rewrite in_insert_key, IH. cbn [In]. intuition auto.
Qed.

(** The keys handed to the loop are exactly the active keys of the
    provider and feature. *)
Lemma get_all_active_keys_active (provider feature : string)
      (w : Maintenance.world) (k : api_key) :
  In k (get_all_active_keys provider feature w) <->
  In k (api_keys w) /\ is_active_for provider feature k = true.
Proof.
  unfold get_all_active_keys. rewrite in_sort_keys. apply filter_In.
Qed.

(** ** The loop *)

Lemma on_base_ok {A : Type} (m : M Maintenance.world A) (w : world)
      (a : A) (b : Maintenance.world) :
  m (base w) = (Ok a, b) ->
  on_base m w = (Ok a, {| base := b; invoked := invoked w |}).
Proof. intros H. unfold on_base. rewrite H. reflexivity. Qed.

Section Loop.

Variable literal_eval : string -> res pyval.
Variable py_str : pyval -> string.
Variable isoformat : nat -> string.
Variable deliver : notification -> res unit.
Variable decrypt : string -> string.
Variable failure_threshold : Z.
Variable adapter : nat -> string -> string -> option string
                   -> Gemini.result.

Variable provider feature prompt : string.
Variable system_prompt : option string.

Local Abbreviation loop :=
  (try_keys literal_eval py_str isoformat deliver decrypt
            failure_threshold adapter provider feature prompt
            system_prompt).

Local Abbreviation outcome :=
  (Router.outcome decrypt adapter prompt system_prompt).

Lemma escalate_returns (done : nat)
      (last_error : option Gemini.error_message) (w : world) :
  exists w',
    escalate literal_eval py_str isoformat deliver provider feature done
            last_error w
    = (Ok {| success := false; content := None; error := last_error;
             tokens_used := PInt 0; key_id_used := None;
             attempts := done |}, w') /\
    invoked w' = invoked w.
Proof.
  unfold escalate.
  destruct (MaintenanceProps.evaluate_maintenance_trigger_valid
              (base w) feature (Z.of_nat done)) as (l & Hl & Hvalid).
  unfold bind at 1. rewrite (on_base_ok _ _ _ _ Hl).
  destruct Hvalid as [-> | Hvalid].
  - eexists. split; reflexivity.
  - assert (Hlevel : exists s, l = Some s /\ (s = "soft" \/ s = "hard")).
    { destruct Hvalid as [-> | ->]; eexists; split; eauto. }
    destruct Hlevel as (s & -> & Hs).
    destruct (MaintenanceProps.enter_maintenance_returns
                literal_eval py_str isoformat deliver (base w) s
                ("All API keys failed for " ++ provider ++ "/" ++ feature)
                (Some feature) None Hs) as (st & b & Henter).
    unfold bind. cbn [base invoked].
    erewrite on_base_ok by (cbn [base]; exact Henter).
    unfold ret. eexists. split; reflexivity.
Qed.

Lemma fallback_notice (p k : api_key) (w : world) :
  exists b,
    on_base
      (try_except
         (notify deliver
            (notify_fallback (key_id p) (key_id k) provider feature))
         (fun _ => ret tt)) w
    = (Ok tt, {| base := b; invoked := invoked w |}).
Proof.
  unfold on_base, try_except, notify, ret.
  destruct (deliver _) as [[]|e]; eexists; reflexivity.
Qed.

(** The loop over [keys] always returns.  It invokes the adapter on a
    prefix of [keys], in order; the attempts it reports are the
    invocations it made; every invocation before the last one failed;
    on success the last invocation succeeded and its key is the one
    reported; on failure every key was tried. *)
Lemma try_keys_spec (keys : list api_key) :
  forall (done : nat) (previous : option api_key)
         (last_error : option Gemini.error_message) (w : world),
  exists r w' n,
    loop keys done previous last_error w = (Ok r, w') /\
    n <= List.length keys /\
    invoked w' = (invoked w ++ firstn n keys)%list /\
    attempts r = done + n /\
    (forall j k,
        S j < n -> nth_error keys j = Some k ->
        Gemini.success (outcome w j k) = false) /\
    (if success r then
       exists i k,
         n = S i /\ nth_error keys i = Some k /\
         key_id_used r = Some (key_id k) /\
         Gemini.success (outcome w i k) = true
     else
       n = List.length keys /\
       forall j k,
         nth_error keys j = Some k ->
         Gemini.success (outcome w j k) = false).
Proof.
  induction keys as [|k rest IH]; intros done previous last_error w.
  - cbn [try_keys].
    destruct (escalate_returns done last_error w) as (w' & Hg & Hinv).
    exists {| success := false; content := None; error := last_error;
              tokens_used := PInt 0; key_id_used := None;
              attempts := done |}, w', 0.
    cbn [success attempts List.length firstn].
    rewrite app_nil_r, Nat.add_0_r.
    split; [exact Hg|]. split; [lia|]. split; [exact Hinv|].
    split; [reflexivity|].
    split; [intros j k Hj; lia|].
    split; [reflexivity|].
    intros j k Hj. destruct j; discriminate.
  - cbn [try_keys].
    assert (Hnotice :
              exists b,
                match previous with
                | Some p =>
                    on_base
                      (try_except
                         (notify deliver
                            (notify_fallback (key_id p) (key_id k)
                                             provider feature))
                         (fun _ => ret tt))
                | None => ret tt
                end w = (Ok tt, {| base := b; invoked := invoked w |})).
    { destruct previous as [p|].
      - apply fallback_notice.
      - exists (base w). destruct w. reflexivity. }
    destruct Hnotice as (b & Hnotice).
    unfold bind at 1. rewrite Hnotice.
    unfold bind at 1. unfold invoke at 1. cbn [base invoked].
    replace (adapter (List.length (invoked w)) (decrypt (key_value k))
                     prompt system_prompt)
      with (outcome w 0 k)
      by (unfold Router.outcome; rewrite Nat.add_0_r; reflexivity).
    destruct (Gemini.success (outcome w 0 k)) eqn:Hk.
    + eexists. eexists. exists 1.
      unfold ret. split; [reflexivity|].
      cbn [success attempts key_id_used List.length firstn invoked].
      split; [lia|]. split; [reflexivity|]. split; [lia|].
      split; [intros j k' Hj; lia|].
      exists 0, k. repeat split. exact Hk.
    + unfold bind at 1.
      unfold on_base at 1, record_failure at 1, modify. cbn [base invoked].
      match goal with
      | |- context [loop rest (S done) (Some k) ?e ?w1] =>
          assert (Hshift : forall j k',
                     outcome w1 j k' = outcome w (S j) k')
            by (intros j k'; unfold Router.outcome; cbn [invoked];
                rewrite length_app; cbn [List.length]; f_equal; lia);
          destruct (IH (S done) (Some k) e w1)
            as (r & w' & n & Hrun & Hn & Hinv & Hatt & Hbefore & Hlast)
      end.
      exists r, w', (S n).
      rewrite Hrun. cbn [invoked] in Hinv.
      split; [reflexivity|].
      split; [cbn [List.length]; lia|].
      split.
      { rewrite Hinv. cbn [firstn]. rewrite <- app_assoc. reflexivity. }
      split; [lia|].
      split.
      { intros j k' Hj Hnth. destruct j as [|j].
        - cbn in Hnth. injection Hnth as <-. exact Hk.
        - cbn [nth_error] in Hnth. rewrite <- Hshift.
          apply Hbefore; [lia | exact Hnth]. }
      destruct (success r).
      * destruct Hlast as (i & k' & -> & Hnth & Hid & Hok).
        exists (S i), k'. repeat split; auto.
        rewrite <- Hshift. exact Hok.
      * destruct Hlast as (-> & Hall). split; [reflexivity|].
        intros j k' Hnth. destruct j as [|j].
        -- cbn in Hnth. injection Hnth as <-. exact Hk.
        -- cbn [nth_error] in Hnth. rewrite <- Hshift.
           apply Hall. exact Hnth.
Qed.

(** C1.  Called with at least one active key, [execute_with_fallback]
    returns a result.  The keys it works through are in descending
    priority order and it invokes the adapter on a prefix of them, in
    that order, [attempts] being the number of invocations.  When it
    reports success, the last invocation succeeded, every earlier one
    failed, the reported key is the key of that invocation and no
    later key was tried.  It reports failure only when no key within
    the retry budget gets a successful answer, and when every adapter
    call fails it reports failure with
    [attempts = min(number of active keys, max_retries)]. *)
Theorem execute_with_fallback_first_success_wins :
  forall (max_retries : nat) (w : world),
    let keys := get_all_active_keys provider feature (base w) in
    let budget := firstn max_retries keys in
    let run :=
      execute_with_fallback literal_eval py_str isoformat deliver decrypt
        failure_threshold adapter provider feature prompt system_prompt
        max_retries w in
    keys <> [] ->
    descending keys = true /\
    exists r,
      fst run = Ok r /\
      attempts r <= List.length budget /\
      invoked (snd run)
        = (invoked w ++ firstn (attempts r) budget)%list /\
      (success r = true ->
       exists i k,
         attempts r = S i /\
         nth_error budget i = Some k /\
         key_id_used r = Some (key_id k) /\
         Gemini.success (outcome w i k) = true /\
         forall j k',
           j < i -> nth_error budget j = Some k' ->
           Gemini.success (outcome w j k') = false) /\
      (success r = false ->
       forall j k',
         nth_error budget j = Some k' ->
         Gemini.success (outcome w j k') = false) /\
      ((forall j k',
           nth_error budget j = Some k' ->
           Gemini.success (outcome w j k') = false) ->
       success r = false /\
       attempts r = Nat.min (List.length keys) max_retries).
Proof.
  intros max_retries w keys budget run Hkeys.
  split; [apply descending_sort_keys|].
  subst run. unfold execute_with_fallback, bind, gets.
  fold keys. fold budget.
  destruct (try_keys_spec budget 0 None None w)
    as (r & w' & n & Hrun & Hn & Hinv & Hatt & Hbefore & Hlast).
  rewrite Hrun. cbn [fst snd]. cbn [Nat.add] in Hatt.
  exists r. rewrite Hatt.
  split; [reflexivity|]. split; [exact Hn|]. split; [exact Hinv|].
  split; [|split].
  - intros Hs. rewrite Hs in Hlast.
    destruct Hlast as (i & k & -> & Hnth & Hid & Hok).
    exists i, k. repeat split; auto.
    intros j k' Hj. apply Hbefore. lia.
  - intros Hs. rewrite Hs in Hlast. apply Hlast.
  - intros Hall.
    destruct (success r) eqn:Hs.
    + destruct Hlast as (i & k & -> & Hnth & Hid & Hok).
      rewrite (Hall i k Hnth) in Hok. discriminate.
    + destruct Hlast as (-> & _). split; [reflexivity|].
      subst budget. rewrite length_firstn. lia.
Qed.

End Loop.

(** ** The loop on a concrete pool *)

Local Abbreviation run_c n :=
  (execute_with_fallback Literal.literal_eval Literal.repr Literal.isoformat
     Literal.deliver (fun s => s) 3%Z (failing_first n) "gemini" "chat"
     "hello" None).

Lemma execute_with_fallback_first_success_wins_witness :
  (exists r,
      fst (run_c 1 3 three_keys) = Ok r /\
      success r = true /\ attempts r = 2 /\ key_id_used r = Some "k10" /\
      map key_id (invoked (snd (run_c 1 3 three_keys))) = ["k50"; "k10"]) /\
  (exists r,
      fst (run_c 9 2 three_keys) = Ok r /\
      success r = false /\ attempts r = 2 /\
      map key_id (invoked (snd (run_c 9 2 three_keys))) = ["k50"; "k10"]).
Proof.
  split.
  - destruct (execute_with_fallback_first_success_wins
                Literal.literal_eval Literal.repr Literal.isoformat
                Literal.deliver (fun s => s) 3%Z (failing_first 1)
                "gemini" "chat" "hello" None 3 three_keys
                ltac:(discriminate))
      as (_ & r & Hr & _).
    exists r. split; [exact Hr|].
    vm_compute in Hr. injection Hr as <-.
    repeat split; reflexivity.
  - destruct (execute_with_fallback_first_success_wins
                Literal.literal_eval Literal.repr Literal.isoformat
                Literal.deliver (fun s => s) 3%Z (failing_first 9)
                "gemini" "chat" "hello" None 2 three_keys
                ltac:(discriminate))
      as (_ & r & Hr & _ & _ & _ & _ & Hall).
    exists r. split; [exact Hr|].
    destruct Hall as [Hs Ha].
    + intros j k' Hnth.
      destruct j as [|[|[|j]]]; cbn in Hnth; try discriminate;
        injection Hnth as <-; reflexivity.
    + split; [exact Hs|]. split; [exact Ha|].
      reflexivity.
Defined.

End RouterProps.

(** * Further properties of the maintenance service *)

Module MaintenanceMore.

Import Maintenance MaintenanceProps Examples.

(** The number of stored [maintenance_mode] flags. *)
Local Abbreviation flag_rows w :=
  (List.length (select_flags "maintenance_mode" w)).

(** X6.  More failures never switch the trigger off or change its level:
    when [evaluate_maintenance_trigger] names a level for some failure
    count, it names the same level for every larger count. *)
Theorem evaluate_maintenance_trigger_monotone :
  forall (w : world) (feature : string) (failures more : Z)
         (level : string),
    (failures <= more)%Z ->
    fst (evaluate_maintenance_trigger feature failures w)
      = Ok (Some level) ->
    evaluate_maintenance_trigger feature more w = (Ok (Some level), w).
Proof.
  intros w feature failures more level Hle.
  unfold evaluate_maintenance_trigger, bind, gets, ret.
  destruct (select_keys_by_feature feature w) as [|k rest];
    cbn [fst]; [intros [= <-]; reflexivity|].
  destruct ((count_status "active" (k :: rest) =? 0)%Z
            && (count_status "degraded" (k :: rest) =? 0)%Z);
    cbn [fst]; [intros [= <-]; reflexivity|].
  destruct ((count_status "active" (k :: rest) =? 0)%Z
            && (count_status "degraded" (k :: rest) >? 0)%Z);
    cbn [fst]; [intros [= <-]; reflexivity|].
  destruct (failures >=? 5)%Z eqn:E; cbn [fst]; [|discriminate].
  intros [= <-].
  replace (more >=? 5)%Z with true; [reflexivity|].
  symmetry. apply Z.geb_le. apply Z.geb_le in E. lia.
Qed.

Section Service.

Variable literal_eval : string -> res pyval.
Variable py_str : pyval -> string.
Variable isoformat : nat -> string.
Variable deliver : notification -> res unit.

Local Abbreviation status := (get_maintenance_status literal_eval).
Local Abbreviation enter :=
  (enter_maintenance literal_eval py_str isoformat deliver).
Local Abbreviation exit_ :=
  (exit_maintenance literal_eval py_str isoformat deliver).
Local Abbreviation active := (active_flag literal_eval).

(** The interpreter reads back what [str] prints for [v]. *)
Local Abbreviation reads_back v := (literal_eval (py_str v) = Ok v).

(** Whether [enter_maintenance] keeps the running episode instead of
    writing a new record. *)
Local Abbreviation keeps w level :=
  (match active w with
   | Some items =>
       negb (eq_str (dict_get items "level" PNone) "soft"
             && String.eqb level "hard")
   | None => false
   end).

(** With a valid level the call either keeps the world or writes the
    record. *)
Lemma enter_maintenance_world
      (w : world) (level reason : string)
      (feature triggered_by : option string) :
  level = "soft" \/ level = "hard" ->
  snd (enter level reason feature triggered_by w) =
    if keeps w level then w
    else entered py_str isoformat w level reason feature triggered_by.
Proof.
  intros Hlevel.
  destruct (active w) as [items|] eqn:Hact.
  - destruct (eq_str (dict_get items "level" PNone) "soft"
              && String.eqb level "hard") eqn:Hup; cbn [negb].
    + apply andb_prop in Hup. destruct Hup as [Hsoft Hhard].
      apply String.eqb_eq in Hhard. subst level.
      destruct (dict_get items "level" PNone) eqn:Hl; try discriminate.
      cbn [eq_str] in Hsoft. apply String.eqb_eq in Hsoft. subst s.
      rewrite (enter_maintenance_upgrades literal_eval py_str isoformat
                 deliver w reason feature triggered_by items Hact Hl).
      cbn [snd]. unfold upgraded, entered.
      destruct (active_flag_inv _ _ _ Hact) as (row & rest & Hrows & _).
      rewrite Hrows. reflexivity.
    + rewrite (enter_maintenance_keeps literal_eval py_str isoformat
                 deliver w level reason feature triggered_by items
                 Hlevel Hact Hup).
      reflexivity.
  - rewrite (enter_maintenance_fresh literal_eval py_str isoformat
               deliver w level reason feature triggered_by Hlevel Hact).
    reflexivity.
Qed.

Lemma flag_rows_entered
      (w : world) (level reason : string)
      (feature triggered_by : option string) :
  flag_rows (entered py_str isoformat w level reason feature triggered_by)
  = Nat.max 1 (flag_rows w).
Proof.
  unfold entered, select_flags at 1. cbn [system_flags].
  destruct (select_flags "maintenance_mode" w) as [|r0 rows] eqn:E.
  - unfold select_flags in E. rewrite filter_app, E. reflexivity.
  - rewrite select_flags_rewritten.
    unfold select_flags in E. rewrite E, length_map.
    cbn [List.length]. lia.
Qed.

(** X1.  [enter_maintenance] with a level other than "soft" and "hard"
    raises the [ValueError] that names the level, before it reads the
    flag: the tables, the clock and the notification outbox are as
    they were, whether or not an episode is running. *)
Theorem enter_maintenance_rejects_level :
  forall (w : world) (level reason : string)
         (feature triggered_by : option string),
    level <> "soft" -> level <> "hard" ->
    enter level reason feature triggered_by w
    = (Raise (ValueError ("Invalid maintenance level: " ++ level
                          ++ ". Must be 'soft' or 'hard'")), w).
Proof.
  intros w level reason feature triggered_by Hs Hh.
  unfold enter_maintenance.
  apply String.eqb_neq in Hs, Hh. rewrite Hs, Hh. reflexivity.
Qed.

(** X2.  The flag stays a singleton.  A call of [enter_maintenance]
    with a valid level makes the number of [maintenance_mode] rows
    one when there is none and leaves it alone when there is one or
    more; [exit_maintenance] never changes it.  A table with at most
    one such row keeps at most one. *)
Theorem maintenance_flag_stays_single :
  forall (w : world) (level reason : string)
         (feature triggered_by exited_by : option string),
    level = "soft" \/ level = "hard" ->
    let entered_world := snd (enter level reason feature triggered_by w) in
    let exited_world := snd (exit_ exited_by w) in
    (flag_rows w = 0 -> flag_rows entered_world = 1) /\
    (0 < flag_rows w -> flag_rows entered_world = flag_rows w) /\
    flag_rows exited_world = flag_rows w /\
    (flag_rows w <= 1 ->
     flag_rows entered_world <= 1 /\ flag_rows exited_world <= 1).
Proof.
  intros w level reason feature triggered_by exited_by Hlevel
         entered_world exited_world.
  assert (Henter : flag_rows entered_world = Nat.max 1 (flag_rows w)).
  { subst entered_world.
    rewrite (enter_maintenance_world w level reason feature triggered_by
               Hlevel).
    destruct (active w) as [items|] eqn:Hact.
    - destruct (active_flag_inv _ _ _ Hact) as (row & rest & Hrows & _).
      destruct (negb _).
      + rewrite Hrows. cbn [List.length]. lia.
      + rewrite flag_rows_entered. reflexivity.
    - rewrite flag_rows_entered. reflexivity. }
  assert (Hexit : flag_rows exited_world = flag_rows w).
  { subst exited_world.
    destruct (active w) as [items|] eqn:Hact.
    - rewrite (exit_maintenance_active literal_eval py_str isoformat
                 deliver w exited_by items Hact).
      cbn [snd]. rewrite select_flags_exited, length_map. reflexivity.
    - rewrite (exit_maintenance_idle literal_eval py_str isoformat
                 deliver w exited_by Hact).
      reflexivity. }
  split; [intros H0; rewrite Henter, H0; reflexivity|].
  split; [intros Hpos; rewrite Henter; lia|].
  split; [exact Hexit|].
  intros Hone. split; lia.
Qed.

(** When the call does not keep a running episode it writes the record
    and reports it. *)
Lemma enter_maintenance_writes
      (w : world) (level reason : string)
      (feature triggered_by : option string) :
  level = "soft" \/ level = "hard" ->
  keeps w level = false ->
  enter level reason feature triggered_by w =
    (Ok {| in_maintenance := true; status_level := PStr level;
           status_reason := PStr reason;
           status_feature := of_opt feature;
           status_triggered_by := of_opt triggered_by;
           status_triggered_at := PStr (isoformat (ticks w)) |},
     entered py_str isoformat w level reason feature triggered_by).
Proof.
  intros Hlevel Hkeeps.
  destruct (active w) as [items|] eqn:Hact.
  - apply negb_false_iff in Hkeeps.
    apply andb_prop in Hkeeps. destruct Hkeeps as [Hsoft Hhard].
    apply String.eqb_eq in Hhard. subst level.
    destruct (dict_get items "level" PNone) eqn:Hl; try discriminate.
    cbn [eq_str] in Hsoft. apply String.eqb_eq in Hsoft. subst s.
    rewrite (enter_maintenance_upgrades literal_eval py_str isoformat
               deliver w reason feature triggered_by items Hact Hl).
    unfold upgraded, entered.
    destruct (active_flag_inv _ _ _ Hact) as (row & rest & Hrows & _).
    rewrite Hrows. reflexivity.
  - apply enter_maintenance_fresh; assumption.
Qed.

(** X3.  What [enter_maintenance] returns when it writes a record is
    what [get_maintenance_status] reports next, provided the
    interpreter reads back the record [str] printed: the same level,
    reason, feature, trigger and time, with [in_maintenance] true. *)
Theorem enter_maintenance_then_status :
  forall (w : world) (level reason : string)
         (feature triggered_by : option string),
    level = "soft" \/ level = "hard" ->
    keeps w level = false ->
    reads_back (maintenance_data level reason feature triggered_by
                  (isoformat (ticks w))) ->
    let run := enter level reason feature triggered_by w in
    status (snd run) = (fst run, snd run) /\
    exists st, fst run = Ok st /\ in_maintenance st = true /\
               status_level st = PStr level.
Proof.
  intros w level reason feature triggered_by Hlevel Hkeeps Hrt run.
  subst run.
  rewrite (enter_maintenance_writes w level reason feature triggered_by
             Hlevel Hkeeps).
  cbn [fst snd]. split.
  - rewrite get_maintenance_status_eq.
    rewrite (active_entered literal_eval py_str isoformat w level reason
               feature triggered_by Hrt).
    reflexivity.
  - eexists. repeat split; reflexivity.
Qed.

(** X4.  After [exit_maintenance] has closed an episode, and provided
    the interpreter reads back the dictionary [str] printed, the
    status is "not in maintenance", a second [exit_maintenance] is a
    no-op that sends nothing, and the flag still holds the level and
    reason of the closed episode. *)
Theorem exit_maintenance_then_status :
  forall (w : world) (exited_by again : option string)
         (items : list (pyval * pyval)),
    active w = Some items ->
    let items' := exited_items items (isoformat (ticks w)) exited_by in
    reads_back (PDict items') ->
    let w1 := snd (exit_ exited_by w) in
    status w1 = (Ok not_in_maintenance, w1) /\
    exit_ again w1 = (Ok nothing_to_exit, w1) /\
    stored_flag literal_eval w1 = Some items' /\
    dict_get items' "level" PNone = dict_get items "level" PNone /\
    dict_get items' "reason" PNone = dict_get items "reason" PNone.
Proof.
  intros w exited_by again items Hact items' Hrt w1. subst w1.
  destruct (active_flag_inv _ _ _ Hact) as (row & rest & Hrows & _ & _).
  rewrite (exit_maintenance_active literal_eval py_str isoformat deliver
             w exited_by items Hact).
  cbn [snd].
  assert (Hstored :
            stored_flag literal_eval
              (exited py_str isoformat w items exited_by) = Some items').
  { unfold stored_flag. rewrite select_flags_exited, Hrows.
    cbn [map rewritten flag_value]. fold items'. rewrite Hrt.
    reflexivity. }
  assert (Hidle :
            active (exited py_str isoformat w items exited_by) = None).
  { unfold active_flag. rewrite Hstored. subst items'.
    unfold exited_items.
    rewrite !dict_get_set_other by discriminate.
    rewrite dict_get_set_same. reflexivity. }
  split; [|split; [|split; [|split]]].
  - rewrite get_maintenance_status_eq, Hidle. reflexivity.
  - apply exit_maintenance_idle. exact Hidle.
  - exact Hstored.
  - subst items'. unfold exited_items.
    rewrite !dict_get_set_other by discriminate. reflexivity.
  - subst items'. unfold exited_items.
    rewrite !dict_get_set_other by discriminate. reflexivity.
Qed.

(** X5.  From a world without an active episode, and provided the
    interpreter reads back the records [str] prints: entering "soft"
    and then "hard" ends in a "hard" episode, and entering "hard" and
    then "soft" ends in the "hard" episode of the first call, the
    second call having changed nothing. *)
Theorem enter_maintenance_twice :
  forall (w : world) (r1 r2 : string) (f1 f2 b1 b2 : option string),
    (forall level,
        level = "soft" \/ level = "hard" ->
        reads_back (maintenance_data level r1 f1 b1
                      (isoformat (ticks w)))) ->
    reads_back (maintenance_data "hard" r2 f2 b2
                  (isoformat (S (S (ticks w))))) ->
    active w = None ->
    let soft := snd (enter "soft" r1 f1 b1 w) in
    let soft_hard := snd (enter "hard" r2 f2 b2 soft) in
    let hard := snd (enter "hard" r1 f1 b1 w) in
    let hard_soft := snd (enter "soft" r2 f2 b2 hard) in
    (exists st, status soft_hard = (Ok st, soft_hard) /\
                in_maintenance st = true /\
                status_level st = PStr "hard" /\
                status_reason st = PStr r2) /\
    hard_soft = hard /\
    (exists st, status hard_soft = (Ok st, hard_soft) /\
                in_maintenance st = true /\
                status_level st = PStr "hard" /\
                status_reason st = PStr r1).
Proof.
  intros w r1 r2 f1 f2 b1 b2 Hrt1 Hrt2 Hact
         soft soft_hard hard hard_soft.
  subst soft soft_hard hard hard_soft.
  rewrite (enter_maintenance_fresh literal_eval py_str isoformat deliver
             w "soft" r1 f1 b1 (or_introl eq_refl) Hact).
  rewrite (enter_maintenance_fresh literal_eval py_str isoformat deliver
             w "hard" r1 f1 b1 (or_intror eq_refl) Hact).
  cbn [snd].
  pose proof (active_entered literal_eval py_str isoformat w "soft"
                r1 f1 b1 (Hrt1 _ (or_introl eq_refl))) as Hsoft.
  pose proof (active_entered literal_eval py_str isoformat w "hard"
                r1 f1 b1 (Hrt1 _ (or_intror eq_refl))) as Hhard.
  rewrite (enter_maintenance_upgrades literal_eval py_str isoformat
             deliver _ r2 f2 b2 _ Hsoft eq_refl).
  rewrite (enter_maintenance_keeps literal_eval py_str isoformat deliver
             _ "soft" r2 f2 b2 _ (or_introl eq_refl) Hhard eq_refl).
  cbn [snd].
  split; [|split].
  - rewrite get_maintenance_status_eq.
    unfold active_flag, stored_flag.
    destruct (active_flag_inv _ _ _ Hsoft) as (row & rest & Hrows & _).
    rewrite select_flags_upgraded, Hrows.
    cbn [map rewritten flag_value entered ticks].
    rewrite Hrt2.
    eexists. repeat split; reflexivity.
  - reflexivity.
  - rewrite get_maintenance_status_eq, Hhard.
    eexists. repeat split; reflexivity.
Qed.

End Service.

(** ** The exit script *)

Lemma select_flags_set_value (fs : list system_flag) (value : string) :
  filter (fun r => String.eqb (flag_name r) "maintenance_mode")
    (map (fun r =>
            if String.eqb (flag_name r) "maintenance_mode" then
              {| flag_name := flag_name r; flag_value := value;
                 updated_at := updated_at r; updated_by := updated_by r |}
            else r) fs) =
  map (fun r =>
         {| flag_name := flag_name r; flag_value := value;
            updated_at := updated_at r; updated_by := updated_by r |})
    (filter (fun r => String.eqb (flag_name r) "maintenance_mode") fs).
Proof.
  induction fs as [|r rest IH]; [reflexivity|].
  cbn [map filter].
  destruct (String.eqb (flag_name r) "maintenance_mode") eqn:E.
  - cbn [flag_name]. rewrite E. cbn [map]. f_equal. exact IH.
  - rewrite E. exact IH.
Qed.

Lemma other_flags_set_value (fs : list system_flag) (value : string) :
  filter (fun r => negb (String.eqb (flag_name r) "maintenance_mode"))
    (map (fun r =>
            if String.eqb (flag_name r) "maintenance_mode" then
              {| flag_name := flag_name r; flag_value := value;
                 updated_at := updated_at r; updated_by := updated_by r |}
            else r) fs) =
  filter (fun r => negb (String.eqb (flag_name r) "maintenance_mode")) fs.
Proof.
  induction fs as [|r rest IH]; [reflexivity|].
  cbn [map filter].
  destruct (String.eqb (flag_name r) "maintenance_mode") eqn:E.
  - cbn [flag_name]. rewrite E. exact IH.
  - rewrite E. cbn [negb]. f_equal. exact IH.
Qed.

(** The first [maintenance_mode] flag of a world, the one the service
    reads. *)
Local Abbreviation first_flag w :=
  (match select_flags "maintenance_mode" w with
   | row :: _ => Some (flag_value row)
   | [] => None
   end).

(** X7.  After the exit script has run on a store that holds a
    [maintenance_mode] flag, the flag the service reads is "off", so the
    service reports "not in maintenance" as soon as the interpreter
    rejects "off" as a literal.  The script writes nothing but flag
    values: no notification is sent, the clock, the key table, the other
    flags and the number of flags are as before.  On a store without the
    flag it changes nothing, and running it a second time changes
    nothing. *)
Theorem exit_script_switches_off :
  forall (literal_eval : string -> res pyval) (w : world),
    let w1 := snd (ExitScript.exit_maintenance_mode w) in
    (first_flag w <> None -> first_flag w1 = Some "off") /\
    (first_flag w = None -> w1 = w) /\
    (first_flag w <> None ->
     (exists e, literal_eval "off" = Raise e) ->
     get_maintenance_status literal_eval w1 = (Ok not_in_maintenance, w1)) /\
    outbox w1 = outbox w /\ ticks w1 = ticks w /\
    api_keys w1 = api_keys w /\
    List.length (system_flags w1) = List.length (system_flags w) /\
    filter (fun r => negb (String.eqb (flag_name r) "maintenance_mode"))
           (system_flags w1)
    = filter (fun r => negb (String.eqb (flag_name r) "maintenance_mode"))
             (system_flags w) /\
    snd (ExitScript.exit_maintenance_mode w1) = w1.
Proof.
  intros literal_eval w w1. subst w1.
  unfold ExitScript.exit_maintenance_mode, bind, gets, ret,
    ExitScript.set_flag_value, modify.
  destruct (select_flags "maintenance_mode" w) as [|row rest] eqn:Hrows.
  - (* no flag: the update matches no row *)
    cbn [snd].
    assert (Hsame :
              set_flags
                (map (fun r =>
                        if String.eqb (flag_name r) "maintenance_mode" then
                          {| flag_name := flag_name r; flag_value := "off";
                             updated_at := updated_at r;
                             updated_by := updated_by r |}
                        else r) (system_flags w)) w = w).
    { unfold set_flags. destruct w as [ks fs t o].
      cbn [api_keys system_flags ticks outbox] in *. f_equal.
      unfold select_flags in Hrows. cbn [system_flags] in Hrows.
      induction fs as [|r fs IH]; [reflexivity|].
      cbn [filter] in Hrows. cbn [map].
      destruct (String.eqb (flag_name r) "maintenance_mode");
        [discriminate|].
      f_equal. apply IH. exact Hrows. }
    rewrite Hsame, Hrows. cbn [snd]. rewrite Hsame.
    repeat split; try reflexivity; try congruence.
  - destruct (String.eqb (flag_value row) "off") eqn:Hoff; cbn [snd].
    + (* already off: nothing is written *)
      rewrite Hrows, Hoff. cbn [snd].
      apply String.eqb_eq in Hoff.
      split; [intros _; rewrite Hoff; reflexivity|].
      split; [intros _; reflexivity|].
      split.
      { intros _ [e He].
        rewrite get_maintenance_status_eq.
        unfold active_flag, stored_flag. rewrite Hrows, Hoff, He.
        reflexivity. }
      repeat split; reflexivity.
    + (* the flags are switched off *)
      unfold select_flags in Hrows |- *. unfold set_flags.
      cbn [system_flags].
      rewrite select_flags_set_value, Hrows.
      cbn [map flag_value].
      split; [intros _; reflexivity|].
      split; [intros Hnone; discriminate|].
      split.
      { intros _ [e He].
        rewrite get_maintenance_status_eq.
        unfold active_flag, stored_flag, select_flags.
        cbn [system_flags]. rewrite select_flags_set_value, Hrows.
        cbn [map flag_value]. rewrite He. reflexivity. }
      cbn [outbox ticks api_keys system_flags].
      rewrite length_map, other_flags_set_value.
      repeat split; reflexivity.
Qed.

(** ** On concrete stores *)

Local Abbreviation status_c := (get_maintenance_status Literal.literal_eval).
Local Abbreviation enter_c :=
  (enter_maintenance Literal.literal_eval Literal.repr Literal.isoformat
                     Literal.deliver).
Local Abbreviation exit_c :=
  (exit_maintenance Literal.literal_eval Literal.repr Literal.isoformat
                    Literal.deliver).

Lemma enter_maintenance_rejects_level_witness :
  fst (enter_c "medium" "keys down" None None in_soft)
  = Raise (invalid_level "medium") /\
  snd (enter_c "medium" "keys down" None None in_soft) = in_soft.
Proof.
  rewrite (enter_maintenance_rejects_level
             Literal.literal_eval Literal.repr Literal.isoformat
             Literal.deliver in_soft "medium" "keys down" None None
             ltac:(discriminate) ltac:(discriminate)).
  split; reflexivity.
Defined.

Lemma maintenance_flag_stays_single_witness :
  List.length
    (select_flags "maintenance_mode"
       (snd (enter_c "soft" "keys down" None None (store [] [])))) = 1 /\
  List.length
    (select_flags "maintenance_mode"
       (snd (enter_c "hard" "worse" None None in_soft))) = 1 /\
  List.length
    (select_flags "maintenance_mode" (snd (exit_c None in_soft))) = 1.
Proof.
  split; [|split].
  - apply (proj1
             (maintenance_flag_stays_single
                Literal.literal_eval Literal.repr Literal.isoformat
                Literal.deliver (store [] []) "soft" "keys down" None None
                None (or_introl eq_refl))).
    reflexivity.
  - apply (proj1 (proj2
             (maintenance_flag_stays_single
                Literal.literal_eval Literal.repr Literal.isoformat
                Literal.deliver in_soft "hard" "worse" None None
                None (or_intror eq_refl)))).
    cbn. lia.
  - apply (proj1 (proj2 (proj2
             (maintenance_flag_stays_single
                Literal.literal_eval Literal.repr Literal.isoformat
                Literal.deliver in_soft "hard" "worse" None None
                None (or_intror eq_refl))))).
Defined.

Lemma enter_maintenance_then_status_witness :
  let run := enter_c "soft" "keys down" (Some "chat") None (store [] []) in
  status_c (snd run) = (fst run, snd run).
Proof.
  apply (enter_maintenance_then_status
           Literal.literal_eval Literal.repr Literal.isoformat
           Literal.deliver (store [] []) "soft" "keys down" (Some "chat")
           None (or_introl eq_refl) eq_refl eq_refl).
Defined.

Lemma exit_maintenance_then_status_witness :
  let w1 := snd (exit_c (Some "admin-7") in_soft) in
  status_c w1 = (Ok not_in_maintenance, w1) /\
  exit_c None w1 = (Ok nothing_to_exit, w1).
Proof.
  destruct (exit_maintenance_then_status
              Literal.literal_eval Literal.repr Literal.isoformat
              Literal.deliver in_soft (Some "admin-7") None soft_items
              eq_refl eq_refl) as (Hstatus & Hagain & _).
  split; [exact Hstatus | exact Hagain].
Defined.

Lemma enter_maintenance_twice_witness :
  let idle := store [] [] in
  let hard := snd (enter_c "hard" "keys down" None None idle) in
  snd (enter_c "soft" "better" None None hard) = hard /\
  exists st,
    status_c (snd (enter_c "hard" "worse" None None
                     (snd (enter_c "soft" "keys down" None None idle))))
    = (Ok st,
       snd (enter_c "hard" "worse" None None
              (snd (enter_c "soft" "keys down" None None idle)))) /\
    status_level st = PStr "hard".
Proof.
  destruct (enter_maintenance_twice
              Literal.literal_eval Literal.repr Literal.isoformat
              Literal.deliver (store [] []) "keys down" "worse"
              None None None None
              ltac:(intros level [-> | ->]; reflexivity)
              eq_refl eq_refl)
    as ((st & Hst & _ & Hlevel & _) & _).
  destruct (enter_maintenance_twice
              Literal.literal_eval Literal.repr Literal.isoformat
              Literal.deliver (store [] []) "keys down" "better"
              None None None None
              ltac:(intros level [-> | ->]; reflexivity)
              eq_refl eq_refl)
    as (_ & Hsame & _).
  split; [exact Hsame|].
  exists st. split; [exact Hst | exact Hlevel].
Defined.

Lemma evaluate_maintenance_trigger_monotone_witness :
  let healthy := store [key "k1" 10 "active"; key "k2" 5 "degraded"] [] in
  evaluate_maintenance_trigger "chat" 9 healthy = (Ok (Some "soft"), healthy).
Proof.
  apply (evaluate_maintenance_trigger_monotone
           (store [key "k1" 10 "active"; key "k2" 5 "degraded"] [])
           "chat" 5 9 "soft").
  - lia.
  - reflexivity.
Defined.

Lemma exit_script_switches_off_witness :
  let w1 := snd (ExitScript.exit_maintenance_mode in_hard) in
  status_c w1 = (Ok not_in_maintenance, w1) /\
  snd (ExitScript.exit_maintenance_mode (store [] [])) = store [] [].
Proof.
  split.
  - apply (proj1 (proj2 (proj2
             (exit_script_switches_off Literal.literal_eval in_hard)))).
    + discriminate.
    + eexists. reflexivity.
  - apply (proj1 (proj2
             (exit_script_switches_off Literal.literal_eval (store [] [])))).
    reflexivity.
Defined.

End MaintenanceMore.

(** * Further properties of the encryption service *)

Module EncryptionMore.

Import Encryption EncryptionProps.

Section Libraries.

Variable b64encode : bytes -> string.
Variable b64decode : string -> res bytes.
Variable utf8_encode : string -> res bytes.
Variable utf8_decode : bytes -> res string.
Variable aesgcm_encrypt : bytes -> bytes -> bytes -> res bytes.
Variable aesgcm_decrypt : bytes -> bytes -> bytes -> res bytes.

Local Abbreviation make := (init b64decode).
Local Abbreviation encrypt :=
  (encrypt_key b64encode utf8_encode aesgcm_encrypt).
Local Abbreviation decrypt :=
  (decrypt_key b64decode utf8_decode aesgcm_decrypt).

(** X8.  The constructor takes its key from the argument when that is
    a non-empty string and from [ENCRYPTION_KEY] otherwise, so an
    empty argument falls back to the environment.  It succeeds
    exactly when the chosen text is non-empty and decodes to 32
    bytes, which become the key; with no text it raises "Encryption
    key not found", and a decoding error or another length is raised
    as "Invalid encryption key: ..." naming the cause. *)
Theorem init_accepts_32_bytes :
  forall (encryption_key getenv : option string),
    let chosen :=
      match encryption_key with
      | Some (String _ _) => encryption_key
      | _ => getenv
      end in
    make encryption_key getenv = make chosen None /\
    (forall self,
        make encryption_key getenv = Ok self <->
        exists s, chosen = Some s /\ s <> "" /\
                  b64decode s = Ok (key self) /\
                  List.length (key self) = 32) /\
    (chosen = None \/ chosen = Some "" ->
     make encryption_key getenv = Raise key_not_found) /\
    (forall s k,
        chosen = Some s -> s <> "" -> b64decode s = Ok k ->
        List.length k <> 32 ->
        make encryption_key getenv
        = Raise (ValueErrorFrom "Invalid encryption key: "
                   (bad_key_length (List.length k)))) /\
    (forall s e,
        chosen = Some s -> s <> "" -> b64decode s = Raise e ->
        make encryption_key getenv
        = Raise (ValueErrorFrom "Invalid encryption key: " e)).
Proof.
  intros encryption_key getenv chosen.
  assert (Hchosen : make encryption_key getenv = make chosen None).
  { subst chosen. unfold init.
    destruct encryption_key as [[|c s]|]; cbn [truthy_opt String.eqb negb];
      try reflexivity.
    - destruct getenv as [[|c s]|]; reflexivity.
    - destruct getenv as [[|c s]|]; reflexivity. }
  split; [exact Hchosen|].
  rewrite Hchosen. clearbody chosen. clear Hchosen encryption_key getenv.
  unfold init.
  destruct chosen as [[|c s]|]; cbn [truthy_opt String.eqb negb].
  - (* Some "" *)
    split; [|split; [|split]].
    + intros self. split; [discriminate|].
      intros (s & [= <-] & Hne & _). congruence.
    + reflexivity.
    + intros s k [= <-] Hne. congruence.
    + intros s e [= <-] Hne. congruence.
  - (* Some (String c s) *)
    split; [|split; [|split]].
    + intros self. split.
      * destruct (b64decode (String c s)) as [k|e] eqn:Hd;
          cbn [res_bind]; [|discriminate].
        destruct (List.length k =? 32)%nat eqn:El; cbn [negb];
          [|discriminate].
        intros [= <-]. exists (String c s). cbn [key].
        apply Nat.eqb_eq in El.
        repeat split; auto. discriminate.
      * intros (s' & [= <-] & _ & Hd & Hlen).
        rewrite Hd. cbn [res_bind].
        apply Nat.eqb_eq in Hlen. rewrite Hlen. cbn [negb].
        destruct self. reflexivity.
    + intros [H | H]; discriminate.
    + intros s' k [= <-] _ Hd Hlen. rewrite Hd. cbn [res_bind].
      apply Nat.eqb_neq in Hlen. rewrite Hlen. reflexivity.
    + intros s' e [= <-] _ Hd. rewrite Hd. reflexivity.
  - (* None *)
    split; [|split; [|split]].
    + intros self. split; [discriminate|].
      intros (s & Habs & _). discriminate.
    + reflexivity.
    + intros s k Habs. discriminate.
    + intros s e Habs. discriminate.
Qed.

(** X9.  [encrypt_key] refuses an empty plaintext without drawing
    entropy.  For any other plaintext it calls [os.urandom] first:
    when that raises, the call raises "Failed to encrypt API key: ..."
    naming the cause and nothing is drawn; otherwise exactly 12 bytes
    are drawn, also when the encoding or the cipher then fails, in
    which case it raises "Failed to encrypt API key: ..." naming the
    cause.  When the cipher returns [c], the result is the text
    encoding of the nonce followed by [c]: decoded again, its first 12
    bytes are the nonce drawn, the rest is [c], and with a 16-byte tag
    it is 28 bytes longer than the encoded plaintext. *)
Theorem encrypt_key_blob_layout :
  forall (self : EncryptionService) (x : string) (e : entropy),
    let run := encrypt self x e in
    let nonce := upcoming 12 e in
    (x = "" -> run = (Raise empty_plaintext, e)) /\
    (forall cause,
        x <> "" -> outage e (drawn e) = Some cause ->
        run
        = (Raise (ValueErrorFrom "Failed to encrypt API key: " cause),
           e)) /\
    (x <> "" -> outage e (drawn e) = None ->
     tape (snd run) = tape e /\ drawn (snd run) = drawn e + 12 /\
     outage (snd run) = outage e) /\
    (forall cause,
        x <> "" -> outage e (drawn e) = None ->
        utf8_encode x = Raise cause ->
        fst run
        = Raise (ValueErrorFrom "Failed to encrypt API key: " cause)) /\
    (forall data cause,
        x <> "" -> outage e (drawn e) = None ->
        utf8_encode x = Ok data ->
        aesgcm_encrypt (key self) nonce data = Raise cause ->
        fst run
        = Raise (ValueErrorFrom "Failed to encrypt API key: " cause)) /\
    (forall data c,
        x <> "" -> outage e (drawn e) = None ->
        utf8_encode x = Ok data ->
        aesgcm_encrypt (key self) nonce data = Ok c ->
        fst run = Ok (b64encode (nonce ++ c)%list)) /\
    (forall data c,
        x <> "" -> outage e (drawn e) = None ->
        utf8_encode x = Ok data ->
        aesgcm_encrypt (key self) nonce data = Ok c ->
        b64decode (b64encode (nonce ++ c)%list) = Ok (nonce ++ c)%list ->
        exists out blob,
          fst run = Ok out /\ b64decode out = Ok blob /\
          firstn 12 blob = nonce /\ skipn 12 blob = c /\
          (List.length c = List.length data + 16 ->
           List.length blob = List.length data + 28)).
Proof.
  intros self x e run nonce. subst run.
  unfold encrypt_key.
  split; [intros ->; reflexivity|].
  destruct (String.eqb x "") eqn:Hx.
  { apply String.eqb_eq in Hx. subst x.
    repeat split; intros; congruence. }
  unfold try_except, bind, urandom, lift, ret, raise.
  fold nonce.
  split; [|split; [|split; [|split; [|split]]]].
  - intros cause _ ->. reflexivity.
  - intros _ ->.
    destruct (utf8_encode x) as [data|];
      [destruct (aesgcm_encrypt (key self) nonce data)|];
      repeat split; reflexivity.
  - intros cause _ -> ->. reflexivity.
  - intros data cause _ -> -> ->. reflexivity.
  - intros data c _ -> -> ->. reflexivity.
  - intros data c _ -> -> -> Hb64.
    exists (b64encode (nonce ++ c)%list), (nonce ++ c)%list.
    split; [reflexivity|]. split; [exact Hb64|].
    destruct (split_at_length nonce c) as [Hf Hs].
    subst nonce. rewrite upcoming_length in Hf, Hs.
    split; [exact Hf|]. split; [exact Hs|].
    intros Hlen. rewrite length_app, upcoming_length, Hlen. lia.
Qed.

(** X10.  Only [ValueError] leaves the service.  Whatever the
    libraries raise, an exception raised by the constructor, by
    [encrypt_key] or by [decrypt_key] is a [ValueError]: an exception
    of [os.urandom] or of the UTF-8 encoding is raised as "Failed to
    encrypt API key: ..." naming it, and an exception of the base64
    decoding other than [InvalidTag] as "Failed to decrypt API key:
    ..." naming it. *)
Theorem encryption_raises_only_value_error :
  forall (encryption_key getenv : option string)
         (self : EncryptionService) (text : string) (e : entropy)
         (raised : exn),
    (make encryption_key getenv = Raise raised ->
     EncryptionModule.is_value_error raised = true) /\
    (fst (encrypt self text e) = Raise raised ->
     EncryptionModule.is_value_error raised = true) /\
    (fst (decrypt self text e) = Raise raised ->
     EncryptionModule.is_value_error raised = true) /\
    (text <> "" -> outage e (drawn e) = Some raised ->
     fst (encrypt self text e)
     = Raise (ValueErrorFrom "Failed to encrypt API key: " raised)) /\
    (text <> "" -> outage e (drawn e) = None ->
     utf8_encode text = Raise raised ->
     fst (encrypt self text e)
     = Raise (ValueErrorFrom "Failed to encrypt API key: " raised)) /\
    (text <> "" -> b64decode text = Raise raised ->
     raised <> InvalidTag ->
     fst (decrypt self text e)
     = Raise (ValueErrorFrom "Failed to decrypt API key: " raised)).
Proof.
  intros encryption_key getenv self text e raised.
  split; [|split; [|split; [|split; [|split]]]].
  - unfold init.
    destruct (negb (truthy_opt _)); [intros [= <-]; reflexivity|].
    destruct (res_bind _ _); [discriminate|].
    intros [= <-]. reflexivity.
  - unfold encrypt_key.
    destruct (String.eqb text ""); [intros [= <-]; reflexivity|].
    unfold try_except, bind, urandom, lift, ret, raise.
    destruct (outage e (drawn e));
      [cbn [fst]; intros [= <-]; reflexivity|].
    destruct (utf8_encode text) as [data|];
      [|cbn [fst]; intros [= <-]; reflexivity].
    destruct (aesgcm_encrypt _ _ _); cbn [fst]; [discriminate|].
    intros [= <-]. reflexivity.
  - unfold decrypt_key.
    destruct (String.eqb text ""); [intros [= <-]; reflexivity|].
    unfold try_except, bind, lift, ret, raise.
    destruct (b64decode text) as [d|x];
      [|destruct x; cbn [fst]; intros [= <-]; reflexivity].
    destruct (List.length d <? 12)%nat;
      [cbn [fst]; intros [= <-]; reflexivity|].
    destruct (aesgcm_decrypt _ _ _) as [b|x];
      [|destruct x; cbn [fst]; intros [= <-]; reflexivity].
    destruct (utf8_decode b) as [s|x];
      [cbn [fst]; discriminate
      |destruct x; cbn [fst]; intros [= <-]; reflexivity].
  - intros Hx Hout. unfold encrypt_key.
    apply String.eqb_neq in Hx. rewrite Hx.
    unfold try_except, bind, urandom, raise. rewrite Hout. reflexivity.
  - intros Hx Hout Henc. unfold encrypt_key.
    apply String.eqb_neq in Hx. rewrite Hx.
    unfold try_except, bind, urandom, lift, raise.
    rewrite Hout, Henc. reflexivity.
  - intros Hx Hdec Hne. unfold decrypt_key.
    apply String.eqb_neq in Hx. rewrite Hx.
    unfold try_except, bind, lift, raise. rewrite Hdec.
    destruct raised; try reflexivity. congruence.
Qed.

Local Abbreviation service := (EncryptionModule.get_encryption_service
                                 b64decode).

(** X11.  [get_encryption_service] creates the service once.  After a
    call that returned a service, every later call returns that same
    service and changes nothing, whatever [ENCRYPTION_KEY] has become
    in the meantime; a call that raised has cached nothing, so the
    next call reads the environment again. *)
Theorem get_encryption_service_caches :
  forall (p : EncryptionModule.process),
    let run := service p in
    (forall self,
        fst run = Ok self ->
        EncryptionModule.cached (snd run) = Some self /\
        EncryptionModule.random (snd run) = EncryptionModule.random p /\
        forall v,
          service (EncryptionModule.setenv v (snd run))
          = (Ok self, EncryptionModule.setenv v (snd run))) /\
    (forall e,
        fst run = Raise e ->
        snd run = p /\ EncryptionModule.cached p = None /\
        forall v,
          fst (service (EncryptionModule.setenv v p))
          = init b64decode None v).
Proof.
  intros p run. subst run.
  unfold EncryptionModule.get_encryption_service.
  destruct (EncryptionModule.cached p) as [s|] eqn:Hc.
  - split.
    + intros self [= <-]. cbn [snd]. rewrite Hc.
      split; [reflexivity|]. split; [reflexivity|].
      intros v. cbn [EncryptionModule.setenv EncryptionModule.cached].
      rewrite Hc. reflexivity.
    + intros e Habs. discriminate.
  - destruct (init b64decode None (EncryptionModule.environ p))
      as [s|e0] eqn:Hi.
    + split.
      * intros self [= <-].
        cbn [snd EncryptionModule.cached EncryptionModule.random].
        split; [reflexivity|]. split; [reflexivity|].
        intros v. reflexivity.
      * intros e Habs. discriminate.
    + split.
      * intros self Habs. discriminate.
      * intros e _. cbn [snd]. split; [reflexivity|].
        split; [reflexivity|].
        intros v.
        cbn [EncryptionModule.setenv EncryptionModule.cached
             EncryptionModule.environ].
        rewrite Hc.
        destruct (init b64decode None v); reflexivity.
Qed.

(** X13.  [decrypt_key] fails with a labelled error and returns only
    what the cipher released.  An empty text raises "Cannot decrypt
    empty ciphertext"; a text that decodes to fewer than 12 bytes
    raises "Failed to decrypt API key: Invalid ciphertext: too short";
    an [InvalidTag] from the cipher raises the authentication-failure
    message; and a plaintext is returned only when the text decoded
    to at least 12 bytes, the cipher accepted the first 12 bytes as
    nonce and the rest as ciphertext under the service's key, and the
    released bytes decoded as UTF-8.  Two different blobs never
    present the same nonce and ciphertext to the cipher. *)
Theorem decrypt_key_labels_failures :
  forall (self : EncryptionService) (c : string) (e : entropy),
    let run := decrypt self c e in
    (c = "" -> run = (Raise empty_ciphertext, e)) /\
    (forall d,
        c <> "" -> b64decode c = Ok d -> List.length d < 12 ->
        run = (Raise (ValueErrorFrom "Failed to decrypt API key: "
                        too_short), e)) /\
    (forall d,
        c <> "" -> b64decode c = Ok d -> 12 <= List.length d ->
        aesgcm_decrypt (key self) (firstn 12 d) (skipn 12 d)
        = Raise InvalidTag ->
        run = (Raise authentication_failed, e)) /\
    (forall x,
        fst run = Ok x ->
        exists d p,
          b64decode c = Ok d /\ 12 <= List.length d /\
          aesgcm_decrypt (key self) (firstn 12 d) (skipn 12 d) = Ok p /\
          utf8_decode p = Ok x) /\
    (forall d d' : bytes,
        d <> d' ->
        (firstn 12 d, skipn 12 d) <> (firstn 12 d', skipn 12 d')).
Proof.
  intros self c e run. subst run.
  split; [intros ->; apply decrypt_key_empty|].
  split; [intros d Hc Hd Hlen; eapply decrypt_key_too_short; eassumption|].
  split; [intros d Hc Hd Hlen Htag;
          eapply decrypt_key_invalid_tag; eassumption|].
  split; [intros x Hx; eapply decrypt_key_returns; exact Hx|].
  intros d d'. apply decrypt_key_covers_blob.
Qed.

(** ** With libraries that meet their contract *)

Hypothesis b64_round_trip : forall d, b64decode (b64encode d) = Ok d.
Hypothesis b64_nonempty : forall d, d <> [] -> b64encode d <> "".
Hypothesis utf8_round_trip :
  forall s b, utf8_encode s = Ok b -> utf8_decode b = Ok s.
Hypothesis aesgcm_round_trip :
  forall key nonce data,
    List.length key = 32 -> List.length nonce = 12 ->
    exists c,
      aesgcm_encrypt key nonce data = Ok c /\
      aesgcm_decrypt key nonce c = Ok data.

(** X12.  The module-level [encrypt_key] and [decrypt_key] round-trip
    through the cached service: in a process that starts without a
    service and with a valid [ENCRYPTION_KEY], [encrypt_key(x)], for
    a non-empty [x] that UTF-8 encodes and with [os.urandom]
    answering, returns a blob that [decrypt_key] turns back into [x],
    and it still does after [ENCRYPTION_KEY] has been changed or
    deleted, because the key in use is the one read first. *)
Theorem module_functions_round_trip :
  forall (p : EncryptionModule.process) (self : EncryptionService)
         (x : string) (data : bytes) (v : option string),
    EncryptionModule.cached p = None ->
    init b64decode None (EncryptionModule.environ p) = Ok self ->
    x <> "" ->
    utf8_encode x = Ok data ->
    outage (EncryptionModule.random p)
           (drawn (EncryptionModule.random p)) = None ->
    let first :=
      EncryptionModule.encrypt_key b64encode b64decode utf8_encode
        aesgcm_encrypt x p in
    exists c,
      fst first = Ok c /\
      EncryptionModule.cached (snd first) = Some self /\
      fst (EncryptionModule.decrypt_key b64decode utf8_decode
             aesgcm_decrypt c (EncryptionModule.setenv v (snd first)))
      = Ok x.
Proof.
  intros p self x data v Hc Hinit Hx Hdata Hout first. subst first.
  pose proof (init_key_length _ _ _ _ Hinit) as Hkey.
  destruct (encrypt_key_then_decrypt
              b64encode b64decode utf8_encode utf8_decode
              aesgcm_encrypt aesgcm_decrypt
              b64_round_trip b64_nonempty utf8_round_trip
              aesgcm_round_trip self x data (EncryptionModule.random p)
              Hkey Hx Hdata Hout) as (c & _ & Henc & Hdec).
  exists (b64encode (upcoming 12 (EncryptionModule.random p) ++ c)%list).
  unfold EncryptionModule.encrypt_key, EncryptionModule.decrypt_key,
    bind, EncryptionModule.get_encryption_service.
  rewrite Hc, Hinit.
  unfold EncryptionModule.on_random.
  cbn [EncryptionModule.random EncryptionModule.cached
       EncryptionModule.environ].
  rewrite Henc. cbn [fst snd EncryptionModule.cached].
  split; [reflexivity|]. split; [reflexivity|].
  cbn [EncryptionModule.setenv EncryptionModule.cached
       EncryptionModule.random].
  rewrite Hdec. reflexivity.
Qed.

End Libraries.

(** ** With the stand-in libraries *)

Lemma init_accepts_32_bytes_witness :
  init Standin.b64decode (Some "") (Some EncryptionModule.key_text)
  = init Standin.b64decode (Some EncryptionModule.key_text) None /\
  init Standin.b64decode None None = Raise key_not_found /\
  init Standin.b64decode (Some "short") (Some EncryptionModule.key_text)
  = Raise (ValueErrorFrom "Invalid encryption key: " (bad_key_length 5)).
Proof.
  split; [|split].
  - apply (proj1 (init_accepts_32_bytes Standin.b64decode
                    (Some "") (Some EncryptionModule.key_text))).
  - apply (proj1 (proj2 (proj2
             (init_accepts_32_bytes Standin.b64decode None None)))).
    left. reflexivity.
  - apply (proj1 (proj2 (proj2 (proj2
             (init_accepts_32_bytes Standin.b64decode
                (Some "short") (Some EncryptionModule.key_text)))))
             "short" (list_byte_of_string "short")).
    + reflexivity.
    + discriminate.
    + reflexivity.
    + cbn. lia.
Defined.

Lemma encrypt_key_blob_layout_witness :
  exists out blob,
    fst (encrypt_key Standin.b64encode Standin.utf8_encode
           Standin.aesgcm_encrypt
           {| key := list_byte_of_string EncryptionModule.key_text |}
           "sk-live-123" Standin.counting) = Ok out /\
    Standin.b64decode out = Ok blob /\
    firstn 12 blob = upcoming 12 Standin.counting /\
    List.length blob = 39.
Proof.
  destruct (proj2 (proj2 (proj2 (proj2 (proj2 (proj2
             (encrypt_key_blob_layout
                Standin.b64encode Standin.b64decode Standin.utf8_encode
                Standin.aesgcm_encrypt
                {| key := list_byte_of_string EncryptionModule.key_text |}
                "sk-live-123" Standin.counting))))))
             _ _ ltac:(discriminate) eq_refl eq_refl eq_refl
             (standin_b64_round_trip _))
    as (out & blob & Hout & Hblob & Hnonce & _ & Hlen).
  exists out, blob.
  split; [exact Hout|]. split; [exact Hblob|]. split; [exact Hnonce|].
  apply Hlen. reflexivity.
Defined.

Lemma encryption_raises_only_value_error_witness :
  (exists raised,
      fst (encrypt_key Standin.b64encode Standin.utf8_encode
             Standin.aesgcm_encrypt
             {| key := list_byte_of_string EncryptionModule.key_text |}
             Standin.lone_surrogate Standin.counting) = Raise raised /\
      EncryptionModule.is_value_error raised = true) /\
  fst (encrypt_key Standin.b64encode Standin.utf8_encode
         Standin.aesgcm_encrypt
         {| key := list_byte_of_string EncryptionModule.key_text |}
         "sk-live-123" Standin.unavailable)
  = Raise (ValueErrorFrom "Failed to encrypt API key: "
             (OSError "urandom: no source of randomness")).
Proof.
  split.
  - exists (ValueErrorFrom "Failed to encrypt API key: "
              UnicodeEncodeError).
    split; [reflexivity|].
    apply (proj1 (proj2
             (encryption_raises_only_value_error
                Standin.b64encode Standin.b64decode Standin.utf8_encode
                Standin.utf8_decode Standin.aesgcm_encrypt
                Standin.aesgcm_decrypt None None
                {| key := list_byte_of_string EncryptionModule.key_text |}
                Standin.lone_surrogate Standin.counting
                (ValueErrorFrom "Failed to encrypt API key: "
                   UnicodeEncodeError)))).
    reflexivity.
  - apply (proj1 (proj2 (proj2 (proj2
             (encryption_raises_only_value_error
                Standin.b64encode Standin.b64decode Standin.utf8_encode
                Standin.utf8_decode Standin.aesgcm_encrypt
                Standin.aesgcm_decrypt None None
                {| key := list_byte_of_string EncryptionModule.key_text |}
                "sk-live-123" Standin.unavailable
                (OSError "urandom: no source of randomness")))))).
    + discriminate.
    + reflexivity.
Defined.

Lemma get_encryption_service_caches_witness :
  let p := EncryptionModule.fresh (Some EncryptionModule.key_text) in
  let p1 := snd (EncryptionModule.get_encryption_service
                   Standin.b64decode p) in
  EncryptionModule.get_encryption_service Standin.b64decode
    (EncryptionModule.setenv None p1)
  = (Ok {| key := list_byte_of_string EncryptionModule.key_text |},
     EncryptionModule.setenv None p1) /\
  snd (EncryptionModule.get_encryption_service Standin.b64decode
         (EncryptionModule.fresh None))
  = EncryptionModule.fresh None.
Proof.
  split.
  - apply (proj1 (get_encryption_service_caches Standin.b64decode
                    (EncryptionModule.fresh (Some EncryptionModule.key_text)))
             {| key := list_byte_of_string EncryptionModule.key_text |} eq_refl).
  - apply (proj2 (get_encryption_service_caches Standin.b64decode
                    (EncryptionModule.fresh None))
             key_not_found eq_refl).
Defined.

Lemma decrypt_key_labels_failures_witness :
  decrypt_key Standin.b64decode Standin.utf8_decode Standin.aesgcm_decrypt
              {| key := list_byte_of_string EncryptionModule.key_text |} "tiny"
              Standin.counting
  = (Raise (ValueErrorFrom "Failed to decrypt API key: " too_short),
     Standin.counting) /\
  decrypt_key Standin.b64decode Standin.utf8_decode Standin.aesgcm_decrypt
              {| key := list_byte_of_string EncryptionModule.key_text |}
              "000000000000 not sealed under this key"
              Standin.counting
  = (Raise authentication_failed, Standin.counting).
Proof.
  split.
  - apply (proj1 (proj2
             (decrypt_key_labels_failures
                Standin.b64decode Standin.utf8_decode
                Standin.aesgcm_decrypt
                {| key := list_byte_of_string EncryptionModule.key_text |} "tiny"
                Standin.counting))
             (list_byte_of_string "tiny")).
    + discriminate.
    + reflexivity.
    + cbn. lia.
  - apply (proj1 (proj2 (proj2
             (decrypt_key_labels_failures
                Standin.b64decode Standin.utf8_decode
                Standin.aesgcm_decrypt
                {| key := list_byte_of_string EncryptionModule.key_text |}
                "000000000000 not sealed under this key"
                Standin.counting)))
             (list_byte_of_string "000000000000 not sealed under this key")).
    + discriminate.
    + reflexivity.
    + cbn. lia.
    + reflexivity.
Defined.

Lemma module_functions_round_trip_witness :
  exists c,
    fst (EncryptionModule.encrypt_key
           Standin.b64encode Standin.b64decode Standin.utf8_encode
           Standin.aesgcm_encrypt "sk-live-123"
           (EncryptionModule.fresh (Some EncryptionModule.key_text))) = Ok c /\
    fst (EncryptionModule.decrypt_key
           Standin.b64decode Standin.utf8_decode Standin.aesgcm_decrypt c
           (EncryptionModule.setenv None
              (snd (EncryptionModule.encrypt_key
                      Standin.b64encode Standin.b64decode
                      Standin.utf8_encode Standin.aesgcm_encrypt
                      "sk-live-123"
                      (EncryptionModule.fresh (Some EncryptionModule.key_text))))))
    = Ok "sk-live-123".
Proof.
  destruct (module_functions_round_trip
              Standin.b64encode Standin.b64decode
              Standin.utf8_encode Standin.utf8_decode
              Standin.aesgcm_encrypt Standin.aesgcm_decrypt
              standin_b64_round_trip standin_b64_nonempty
              standin_utf8_round_trip standin_aesgcm_round_trip
              (EncryptionModule.fresh (Some EncryptionModule.key_text))
              {| key := list_byte_of_string EncryptionModule.key_text |}
              "sk-live-123" _ None eq_refl eq_refl ltac:(discriminate)
              eq_refl eq_refl)
    as (c & Hc & _ & Hd).
  exists c. split; [exact Hc | exact Hd].
Defined.

End EncryptionMore.

(** * More on the Gemini adapter: error answers *)

Module GeminiMore.

Import Gemini GeminiProps.

Lemma get_not_dict (v : pyval) (key : string) (default : pyval) :
  is_dict v = false -> get v key default = Raise AttributeError.
Proof. destruct v; cbn; intros H; try reflexivity; discriminate H. Qed.

Section Adapter.

Variable post : string -> string -> option string -> http_outcome.

Local Abbreviation call := (call_gemini post).

(** X14.  The message of an error status.  For a status other than
    200 the answer is the failure "Gemini API error (status):
    message", whatever the body holds.  The message is the body text
    when the body is not JSON, is JSON but not an object, or is an
    object whose [error] entry is not an object; otherwise it is the
    [message] entry of the [error] object, and the body text when
    that entry is missing. *)
Theorem call_gemini_error_status :
  forall (api_key prompt : string) (system_prompt : option string)
         (status_code : Z) (text : string) (json : res pyval),
    post api_key prompt system_prompt
      = Response status_code text json ->
    status_code <> 200%Z ->
    exists m,
      call api_key prompt system_prompt
        = failure (api_error status_code m) /\
      (forall e, json = Raise e -> m = PStr text) /\
      (forall v, json = Ok v -> is_dict v = false -> m = PStr text) /\
      (forall items,
          json = Ok (PDict items) ->
          match dict_get items "error" (PDict []) with
          | PDict err => m = dict_get err "message" (PStr text)
          | _ => m = PStr text
          end).
Proof.
  intros api_key prompt system_prompt status_code text json Hpost Hne.
  exists (parsed_error_message text json).
  split.
  - unfold call_gemini. rewrite Hpost.
    apply Z.eqb_neq in Hne. rewrite Hne. reflexivity.
  - split; [|split].
    + intros e ->. reflexivity.
    + intros v -> Hv. unfold parsed_error_message. cbn [res_bind].
      rewrite (get_not_dict _ _ _ Hv). reflexivity.
    + intros items ->. unfold parsed_error_message.
      cbn [res_bind get].
      destruct (dict_get items "error" (PDict [])); reflexivity.
Qed.

(** X15.  A body that cannot be read.  With status 200, an exception
    from [response.json()] is reported by the [except] clauses; a
    body that is JSON but not an object, and an object whose
    [candidates] entry is truthy but not a list, are reported as the
    failure "Unexpected error: ...".  None of them is a success. *)
Theorem call_gemini_malformed_body :
  forall (api_key prompt : string) (system_prompt : option string)
         (text : string) (json : res pyval),
    post api_key prompt system_prompt = Response 200 text json ->
    let r := call api_key prompt system_prompt in
    (forall e, json = Raise e -> r = handler e) /\
    (forall v,
        json = Ok v -> is_dict v = false ->
        r = failure (unexpected_error AttributeError)) /\
    (forall items,
        json = Ok (PDict items) ->
        truthy (dict_get items "candidates" (PList [])) = true ->
        (forall l, dict_get items "candidates" (PList []) <> PList l) ->
        exists e,
          e <> TimeoutException /\ (forall m, e <> RequestError m) /\
          r = failure (unexpected_error e)).
Proof.
  intros api_key prompt system_prompt text json Hpost r. subst r.
  unfold call_gemini. rewrite Hpost. cbn [Z.eqb Pos.eqb negb].
  split; [|split].
  - intros e ->. reflexivity.
  - intros v -> Hv. unfold read_response. cbn [res_bind].
    rewrite (get_not_dict _ _ _ Hv). reflexivity.
  - intros items -> Ht Hl. unfold read_response. cbn [res_bind get].
    rewrite Ht. cbn [negb].
    destruct (dict_get items "candidates" (PList []))
      as [|b|z|f|s|l|d] eqn:Ec.
    + discriminate Ht.
    + exists TypeError. cbn. repeat split; discriminate.
    + exists TypeError. cbn. repeat split; discriminate.
    + exists TypeError. cbn. repeat split; discriminate.
    + destruct s as [|c s]; [discriminate Ht|].
      exists AttributeError. cbn. repeat split; discriminate.
    + exfalso. exact (Hl l eq_refl).
    + exists KeyError. cbn. repeat split; discriminate.
Qed.

End Adapter.

Lemma call_gemini_error_status_witness :
  call_gemini
    (fun _ _ _ =>
       Response 429 "slow down"
         (Ok (PDict [(PStr "error",
                      PDict [(PStr "message", PStr "quota")])])))
    "k" "p" None
  = failure (api_error 429 (PStr "quota")).
Proof.
  destruct (call_gemini_error_status
              (fun _ _ _ =>
                 Response 429 "slow down"
                   (Ok (PDict [(PStr "error",
                                PDict [(PStr "message", PStr "quota")])])))
              "k" "p" None 429 "slow down" _ eq_refl ltac:(discriminate))
    as (m & Hcall & _ & _ & Hm).
  rewrite Hcall. rewrite (Hm _ eq_refl). reflexivity.
Defined.

Lemma call_gemini_malformed_body_witness :
  call_gemini (fun _ _ _ => Response 200 "[]" (Ok (PList []))) "k" "p" None
  = failure (unexpected_error AttributeError).
Proof.
  apply (proj1 (proj2
           (call_gemini_malformed_body
              (fun _ _ _ => Response 200 "[]" (Ok (PList [])))
              "k" "p" None "[]" (Ok (PList [])) eq_refl))
           (PList []) eq_refl eq_refl).
Defined.

End GeminiMore.

(** * The streaming call of the Gemini adapter *)

Module GeminiStreamProps.

Import GeminiStream.

Lemma chunk_text_truthy (data v : pyval) :
  chunk_text data = Ok (Some v) -> truthy v = true.
Proof.
  unfold chunk_text. intros H.
  destruct (get data "candidates" (PList [])) as [candidates|];
    cbn [res_bind] in H; [|discriminate H].
  destruct (truthy candidates); [|discriminate H].
  destruct (index0 candidates) as [candidate|];
    cbn [res_bind] in H; [|discriminate H].
  destruct (get candidate "content" (PDict [])) as [content|];
    cbn [res_bind] in H; [|discriminate H].
  destruct (get content "parts" (PList [])) as [parts|];
    cbn [res_bind] in H; [|discriminate H].
  destruct (truthy parts); [|discriminate H].
  destruct (index0 parts) as [part|];
    cbn [res_bind] in H; [|discriminate H].
  destruct (get part "text" (PStr "")) as [t|];
    cbn [res_bind] in H; [|discriminate H].
  destruct (truthy t) eqn:Et; [|discriminate H].
  injection H as <-. exact Et.
Qed.

Lemma chunk_text_not_dict (data : pyval) :
  is_dict data = false -> chunk_text data = Raise AttributeError.
Proof.
  destruct data; cbn; intros H; try reflexivity; discriminate H.
Qed.

Lemma handler_not_text (e : exn) : is_text (handler e) = false.
Proof. destruct e; reflexivity. Qed.

Lemma format_request_empty_system_prompt (prompt : string) :
  format_request prompt (Some "") = format_request prompt None.
Proof. reflexivity. Qed.

(** The system prompt as the request uses it: an empty one counts as
    absent. *)
Local Abbreviation effective system_prompt :=
  (if truthy_opt system_prompt then system_prompt else None).

(** X16.  The messages of a request.  Every message has the role
    "user" and the last one is the prompt; a system prompt that is not
    empty goes before it as "System: ...", an empty or absent one adds
    nothing.  Two requests are equal exactly when their prompts are
    equal and their system prompts are equal or both empty or absent. *)
Theorem format_request_messages :
  forall (prompt : string) (system_prompt : option string),
    let messages := contents (format_request prompt system_prompt) in
    Forall (fun m => role m = "user") messages /\
    last messages (user_message "") = user_message prompt /\
    (truthy_opt system_prompt = false ->
     messages = [user_message prompt]) /\
    (forall s,
        system_prompt = Some s -> s <> "" ->
        messages
        = [user_message ("System: " ++ s); user_message prompt]) /\
    (forall prompt' system_prompt',
        format_request prompt system_prompt
        = format_request prompt' system_prompt' <->
        prompt = prompt' /\
        effective system_prompt = effective system_prompt').
Proof.
  intros prompt system_prompt messages. subst messages.
  assert (Hshape : forall p sp,
             contents (format_request p sp)
             = match effective sp with
               | Some s => [user_message ("System: " ++ s); user_message p]
               | None => [user_message p]
               end).
  { intros p [s|]; cbn; [|reflexivity].
    destruct (String.eqb s ""); reflexivity. }
  split; [|split; [|split; [|split]]].
  - rewrite Hshape. destruct (effective system_prompt);
      repeat constructor.
  - rewrite Hshape. destruct (effective system_prompt); reflexivity.
  - intros Hf. rewrite Hshape, Hf. reflexivity.
  - intros s -> Hs. rewrite Hshape. cbn.
    apply String.eqb_neq in Hs. rewrite Hs. reflexivity.
  - intros prompt' system_prompt'. split.
    + intros H. apply (f_equal contents) in H.
      rewrite !Hshape in H.
      destruct (effective system_prompt) as [s|],
               (effective system_prompt') as [s'|];
        try discriminate H.
      * injection H as Hs Hp. subst. auto.
      * injection H as Hp. subst. auto.
    + intros [-> He].
      unfold format_request. f_equal.
      change (contents (format_request prompt' system_prompt)
              = contents (format_request prompt' system_prompt')).
      rewrite !Hshape, He. reflexivity.
Qed.

Section Stream.

Variable strip : string -> string.
Variable json_loads : string -> res pyval.

Local Abbreviation read_line := (GeminiStream.read_line strip json_loads).
Local Abbreviation read_lines :=
  (GeminiStream.read_lines strip json_loads).
Local Abbreviation drain := (GeminiStream.drain strip json_loads).

Lemma read_line_yield (line : string) (v : pyval) :
  read_line line = yield v -> truthy v = true.
Proof.
  unfold GeminiStream.read_line.
  destruct (negb (truthy (PStr (strip line)))); [discriminate|].
  destruct (String.prefix "data: " line); [|discriminate].
  destruct (res_bind (json_loads (slice_from 6 line)) chunk_text)
    as [[t|]|e] eqn:E.
  - intros H. injection H as <-.
    destruct (json_loads (slice_from 6 line)) as [data|];
      cbn [res_bind] in E; [|discriminate E].
    exact (chunk_text_truthy _ _ E).
  - discriminate.
  - destruct e; discriminate.
Qed.

Lemma read_line_passed_over (line : string) :
  passed_over strip json_loads line -> read_line line = skip.
Proof.
  unfold GeminiStream.read_line. intros [H | [H | H]].
  - rewrite H. reflexivity.
  - rewrite H. destruct (negb (truthy (PStr (strip line))));
      reflexivity.
  - rewrite H. cbn [res_bind].
    destruct (negb (truthy (PStr (strip line)))); [reflexivity|].
    destruct (String.prefix "data: " line); reflexivity.
Qed.

Lemma read_line_no_candidates (line : string)
      (items : list (pyval * pyval)) :
  json_loads (slice_from 6 line) = Ok (PDict items) ->
  truthy (dict_get items "candidates" (PList [])) = false ->
  read_line line = skip.
Proof.
  unfold GeminiStream.read_line. intros H Ht.
  rewrite H. cbn [res_bind]. unfold chunk_text. cbn [get res_bind].
  rewrite Ht.
  destruct (negb (truthy (PStr (strip line)))); [reflexivity|].
  destruct (String.prefix "data: " line); reflexivity.
Qed.

Lemma read_lines_skip (l1 l2 : list string) (line : string)
      (broken : option exn) :
  read_line line = skip ->
  read_lines (l1 ++ line :: l2) broken = read_lines (l1 ++ l2) broken.
Proof.
  intros Hskip. induction l1 as [|a l1 IH]; cbn.
  - rewrite Hskip. reflexivity.
  - destruct (read_line a); [exact IH | rewrite IH; reflexivity
                             | reflexivity].
Qed.

Lemma read_lines_stop (l1 l2 : list string) (line : string)
      (broken : option exn) (e : exn) :
  read_line line = stop e ->
  read_lines (l1 ++ line :: l2) broken = read_lines l1 (Some e).
Proof.
  intros Hstop. induction l1 as [|a l1 IH]; cbn.
  - rewrite Hstop. reflexivity.
  - destruct (read_line a); [exact IH | rewrite IH; reflexivity
                             | reflexivity].
Qed.

Lemma read_lines_texts (lines : list string) (broken : option exn) :
  exists texts,
    fst (read_lines lines broken) = map yielded_text texts /\
    Forall (fun v => truthy v = true) texts.
Proof.
  induction lines as [|a lines IH]; cbn.
  - exists []. split; [reflexivity | constructor].
  - destruct (read_line a) as [|v|e] eqn:Ea.
    + exact IH.
    + destruct IH as (texts & Hfst & Hall).
      destruct (read_lines lines broken) as [chunks raised].
      cbn in Hfst |- *. exists (v :: texts).
      split; [rewrite Hfst; reflexivity|].
      constructor; [exact (read_line_yield _ _ Ea) | exact Hall].
    + exists []. split; [reflexivity | constructor].
Qed.

Local Abbreviation readable := (GeminiStream.readable strip json_loads).

Lemma read_lines_raised (lines : list string) (broken : option exn) :
  snd (read_lines lines broken) = None <->
  broken = None /\ readable lines.
Proof.
  unfold GeminiStream.readable. induction lines as [|a lines IH]; cbn.
  - split; [intros ->; split; [reflexivity | constructor]
           | intros [-> _]; reflexivity].
  - destruct (read_line a) as [|v|e] eqn:Ea.
    + rewrite IH. split.
      * intros [Hb Hr]. split; [exact Hb|].
        constructor; [rewrite Ea; discriminate | exact Hr].
      * intros [Hb Hr]. inversion Hr; subst. auto.
    + destruct (read_lines lines broken) as [chunks raised].
      cbn in IH |- *. rewrite IH. split.
      * intros [Hb Hr]. split; [exact Hb|].
        constructor; [rewrite Ea; discriminate | exact Hr].
      * intros [Hb Hr]. inversion Hr; subst. auto.
    + cbn. split; [discriminate|].
      intros [_ Hr]. inversion Hr as [|x l Hx Hl]; subst.
      exfalso. exact (Hx e Ea).
Qed.

(** X17.  Lines the stream passes over.  A line that is blank, does
    not start with "data: ", carries a payload that [json.loads]
    rejects, or carries an object without candidates, changes nothing
    wherever it stands: the generator yields what it yields without
    that line. *)
Theorem streaming_passes_over_lines :
  forall (status_code : Z) (aread : res unit) (l1 l2 : list string)
         (line : string) (broken closed : option exn),
    passed_over strip json_loads line \/
    (exists items,
        json_loads (slice_from 6 line) = Ok (PDict items) /\
        truthy (dict_get items "candidates" (PList [])) = false) ->
    drain (StreamResponse status_code aread (l1 ++ line :: l2)
                          broken closed)
    = drain (StreamResponse status_code aread (l1 ++ l2)
                            broken closed).
Proof.
  intros status_code aread l1 l2 line broken closed H.
  assert (Hskip : read_line line = skip).
  { destruct H as [H | (items & H & Ht)].
    - exact (read_line_passed_over _ H).
    - exact (read_line_no_candidates _ _ H Ht). }
  unfold GeminiStream.drain, read_stream.
  rewrite (read_lines_skip _ _ _ _ Hskip). reflexivity.
Qed.

(** X18.  A payload that is JSON but not an object ends the stream.
    A line that is not blank, starts with "data: " and decodes to
    something other than an object is not passed over: the generator
    behaves as if the connection had broken at that line with an
    [AttributeError], and reads none of the lines after it. *)
Theorem streaming_stops_at_non_object :
  forall (aread : res unit) (l1 l2 : list string) (line : string)
         (broken closed : option exn) (data : pyval),
    strip line <> "" ->
    String.prefix "data: " line = true ->
    json_loads (slice_from 6 line) = Ok data ->
    is_dict data = false ->
    drain (StreamResponse 200 aread (l1 ++ line :: l2) broken closed)
    = drain (StreamResponse 200 aread l1 (Some AttributeError) closed).
Proof.
  intros aread l1 l2 line broken closed data Hs Hp Hj Hd.
  assert (Hstop : read_line line = stop AttributeError).
  { unfold GeminiStream.read_line.
    apply String.eqb_neq in Hs. cbn [truthy]. rewrite Hs. cbn [negb].
    rewrite Hp, Hj. cbn [res_bind].
    rewrite (chunk_text_not_dict _ Hd). reflexivity. }
  unfold GeminiStream.drain, read_stream. cbn [Z.eqb Pos.eqb negb].
  rewrite (read_lines_stop _ _ _ _ _ Hstop). reflexivity.
Qed.

(** X19.  Text first, errors last.  Whatever the transport does, the
    generator yields a run of text chunks followed by at most two
    error chunks.  Every text chunk is truthy, so never an empty
    string; text is yielded only from a response with status 200,
    and such a response ends in at most one error chunk. *)
Theorem streaming_text_then_errors :
  forall o : stream_outcome,
    exists texts errors,
      drain o = (map yielded_text texts ++ errors)%list /\
      Forall (fun v => truthy v = true) texts /\
      Forall (fun c => is_text c = false) errors /\
      List.length errors <= 2 /\
      (forall aread lines broken closed,
          o = StreamResponse 200 aread lines broken closed ->
          List.length errors <= 1) /\
      ((forall aread lines broken closed,
           o <> StreamResponse 200 aread lines broken closed) ->
       texts = []).
Proof.
  intros [e | status_code aread lines broken closed].
  - exists [], [handler e]. cbn.
    split; [reflexivity|]. split; [constructor|].
    split; [repeat constructor; apply handler_not_text|].
    split; [lia|]. split; [discriminate | reflexivity].
  - unfold GeminiStream.drain, read_stream.
    destruct (status_code =? 200)%Z eqn:Ec; cbn [negb].
    + apply Z.eqb_eq in Ec. subst status_code.
      destruct (read_lines_texts lines broken) as (texts & Hfst & Hall).
      destruct (read_lines lines broken) as [chunks raised].
      cbn in Hfst. subst chunks.
      exists texts.
      exists (match closed, raised with
              | Some e, _ => [handler e]
              | None, Some e => [handler e]
              | None, None => []
              end).
      split; [reflexivity|]. split; [exact Hall|].
      split; [|split; [|split]].
      * destruct closed, raised; repeat constructor;
          apply handler_not_text.
      * destruct closed, raised; cbn; lia.
      * intros _ _ _ _ _. destruct closed, raised; cbn; lia.
      * intros H. exfalso. exact (H _ _ _ _ eq_refl).
    + exists [].
      exists (fst (match aread with
                   | Ok _ => ([status_error status_code], None)
                   | Raise e => ([], Some e)
                   end)
              ++ match closed,
                       snd (match aread with
                            | Ok _ =>
                                ([status_error status_code], None)
                            | Raise e => ([], Some e)
                            end) with
                 | Some e, _ => [handler e]
                 | None, Some e => [handler e]
                 | None, None => []
                 end)%list.
      split; [destruct aread; reflexivity|]. split; [constructor|].
      split; [|split; [|split]].
      * destruct aread, closed; cbn; repeat constructor;
          apply handler_not_text.
      * destruct aread, closed; cbn; lia.
      * intros a l b c H. injection H as H _ _ _ _. subst.
        discriminate Ec.
      * reflexivity.
Qed.

(** X20.  A clean finish.  The generator yields no error chunk
    exactly when the response has status 200, no line leaves the loop
    with an exception, the connection does not break while the lines
    are read, and closing the response does not raise. *)
Theorem streaming_clean_finish :
  forall o : stream_outcome,
    Forall (fun c => is_text c = true) (drain o) <->
    exists aread lines,
      o = StreamResponse 200 aread lines None None /\
      readable lines.
Proof.
  intros [e | status_code aread lines broken closed].
  - cbn. split.
    + intros H. inversion H as [|x l Hx Hl]; subst.
      rewrite handler_not_text in Hx. discriminate Hx.
    + intros (a & l & H & _). discriminate H.
  - unfold GeminiStream.drain, read_stream.
    destruct (status_code =? 200)%Z eqn:Ec; cbn [negb].
    + apply Z.eqb_eq in Ec. subst status_code.
      pose proof (read_lines_raised lines broken) as Hraised.
      destruct (read_lines_texts lines broken) as (texts & Hfst & _).
      destruct (read_lines lines broken) as [chunks raised].
      cbn in Hfst, Hraised. subst chunks.
      assert (Htexts : Forall (fun c => is_text c = true)
                              (map yielded_text texts)).
      { apply Forall_forall. intros c Hc.
        apply in_map_iff in Hc. destruct Hc as (v & <- & _).
        reflexivity. }
      split.
      * intros H. apply Forall_app in H. destruct H as [_ H].
        destruct closed as [e|].
        { inversion H as [|x l Hx Hl]; subst.
          rewrite handler_not_text in Hx. discriminate Hx. }
        destruct raised as [e|].
        { inversion H as [|x l Hx Hl]; subst.
          rewrite handler_not_text in Hx. discriminate Hx. }
        destruct (proj1 Hraised eq_refl) as [-> Hr].
        exists aread, lines. split; [reflexivity | exact Hr].
      * intros (a & l & H & Hr). injection H as Ha Hl Hb Hc.
        subst a l broken closed.
        rewrite (proj2 Hraised (conj eq_refl Hr)).
        rewrite app_nil_r. exact Htexts.
    + split.
      * intros H. exfalso.
        destruct aread as [u|e].
        -- cbn in H. inversion H as [|x l Hx Hl]; subst.
           discriminate Hx.
        -- cbn in H. destruct closed;
             inversion H as [|x l Hx Hl]; subst;
             rewrite handler_not_text in Hx; discriminate Hx.
      * intros (a & l & H & _). injection H as H _ _ _ _. subst.
        discriminate Ec.
Qed.

End Stream.

(** ** On the reference wire format *)

Lemma streaming_passes_over_lines_witness :
  GeminiStream.drain Wire.strip Wire.json_loads
    (StreamResponse 200 (Ok tt)
       ([Wire.data_line "Hel"] ++ ": keep-alive" :: [Wire.data_line "lo"])
       None None)
  = [yielded_text (PStr "Hel"); yielded_text (PStr "lo")].
Proof.
  rewrite (streaming_passes_over_lines Wire.strip Wire.json_loads
             200 (Ok tt) [Wire.data_line "Hel"] [Wire.data_line "lo"]
             ": keep-alive" None None).
  - vm_compute. reflexivity.
  - left. right. left. reflexivity.
Defined.

Lemma streaming_stops_at_non_object_witness :
  GeminiStream.drain Wire.strip Wire.json_loads
    (StreamResponse 200 (Ok tt)
       ([Wire.data_line "Hel"] ++ "data: []" :: [Wire.data_line "lo"])
       None None)
  = [yielded_text (PStr "Hel"); other_error AttributeError].
Proof.
  rewrite (streaming_stops_at_non_object Wire.strip Wire.json_loads
             (Ok tt) [Wire.data_line "Hel"] [Wire.data_line "lo"]
             "data: []" None None (PList [])).
  - vm_compute. reflexivity.
  - vm_compute. discriminate.
  - reflexivity.
  - reflexivity.
  - reflexivity.
Defined.

End GeminiStreamProps.

(** * The key script *)

Module AddApiKeyProps.

Import Encryption EncryptionProps AddApiKey.

Section Libraries.

Variable b64encode : bytes -> string.
Variable b64decode : string -> res bytes.
Variable utf8_encode : string -> res bytes.
Variable utf8_decode : bytes -> res string.
Variable aesgcm_encrypt : bytes -> bytes -> bytes -> res bytes.
Variable aesgcm_decrypt : bytes -> bytes -> bytes -> res bytes.

Hypothesis b64_round_trip : forall d, b64decode (b64encode d) = Ok d.
Hypothesis b64_nonempty : forall d, d <> [] -> b64encode d <> "".
Hypothesis utf8_round_trip :
  forall s b, utf8_encode s = Ok b -> utf8_decode b = Ok s.
Hypothesis aesgcm_round_trip :
  forall key nonce data,
    List.length key = 32 -> List.length nonce = 12 ->
    exists c,
      aesgcm_encrypt key nonce data = Ok c /\
      aesgcm_decrypt key nonce c = Ok data.

Local Abbreviation generate :=
  (generate_sql_for_api_key b64encode b64decode utf8_encode
                            aesgcm_encrypt).

(** X21.  The key script encrypts once.  In a process that has no
    service yet: when the encryption key of the environment is
    rejected, the API key is empty, [os.urandom] raises or the API
    key cannot be encoded, the script prints the error, prints no SQL
    and exits with status 1.  Otherwise it returns, and the
    statements it prints that change the table are one DELETE for
    the provider followed by one INSERT per feature, in the order of
    the feature list, all with priority 100, status "active" and the
    same encrypted key; one nonce of 12 bytes is drawn for all of
    them, and the encrypted key decrypts to the API key. *)
Theorem generate_sql_encrypts_once :
  forall (p : EncryptionModule.process) (api_key provider : string),
    EncryptionModule.cached p = None ->
    let run := generate api_key provider p in
    let random := EncryptionModule.random p in
    (forall e,
        init b64decode None (EncryptionModule.environ p) = Raise e ->
        run = (([error_encrypting e], exited 1), p)) /\
    (forall self,
        init b64decode None (EncryptionModule.environ p) = Ok self ->
        api_key = "" ->
        fst run = ([error_encrypting empty_plaintext], exited 1)) /\
    (forall self cause,
        init b64decode None (EncryptionModule.environ p) = Ok self ->
        api_key <> "" ->
        outage random (drawn random) = Some cause \/
        outage random (drawn random) = None /\
        utf8_encode api_key = Raise cause ->
        fst run
        = ([error_encrypting
              (ValueErrorFrom "Failed to encrypt API key: " cause)],
           exited 1)) /\
    (forall self data,
        init b64decode None (EncryptionModule.environ p) = Ok self ->
        api_key <> "" ->
        outage random (drawn random) = None ->
        utf8_encode api_key = Ok data ->
        exists c,
          snd (fst run) = returned /\
          filter is_write (fst (fst run))
          = delete_sql provider
              :: map (fun feature =>
                        insert_sql provider feature c 100 "active")
                     features /\
          drawn (EncryptionModule.random (snd run))
          = drawn (EncryptionModule.random p) + 12 /\
          fst (EncryptionModule.decrypt_key
                 b64decode utf8_decode aesgcm_decrypt c (snd run))
          = Ok api_key).
Proof.
  intros p api_key provider Hc run random. subst run random.
  unfold generate_sql_for_api_key, EncryptionModule.encrypt_key, bind,
    EncryptionModule.get_encryption_service.
  rewrite Hc.
  split; [|split; [|split]].
  - intros e ->. destruct p. reflexivity.
  - intros self -> ->. reflexivity.
  - intros self cause -> Hx Hcause.
    unfold EncryptionModule.on_random.
    cbn [EncryptionModule.random EncryptionModule.cached
         EncryptionModule.environ].
    unfold encrypt_key. apply String.eqb_neq in Hx. rewrite Hx.
    unfold try_except, bind, urandom, lift, raise.
    destruct Hcause as [Hout | [Hout Henc]].
    + rewrite Hout. reflexivity.
    + rewrite Hout, Henc. reflexivity.
  - intros self data Hinit Hx Hout Hdata. rewrite Hinit.
    pose proof (init_key_length _ _ _ _ Hinit) as Hkey.
    destruct (encrypt_key_then_decrypt
                b64encode b64decode utf8_encode utf8_decode
                aesgcm_encrypt aesgcm_decrypt
                b64_round_trip b64_nonempty utf8_round_trip
                aesgcm_round_trip self api_key data
                (EncryptionModule.random p) Hkey Hx Hdata Hout)
      as (c & _ & Henc & Hdec).
    exists (b64encode
              (upcoming 12 (EncryptionModule.random p) ++ c)%list).
    unfold EncryptionModule.on_random.
    cbn [EncryptionModule.random EncryptionModule.cached
         EncryptionModule.environ].
    rewrite Henc. cbn [fst snd].
    split; [reflexivity|]. split; [reflexivity|].
    split; [reflexivity|].
    unfold EncryptionModule.decrypt_key, bind,
      EncryptionModule.get_encryption_service,
      EncryptionModule.on_random.
    cbn [EncryptionModule.cached EncryptionModule.random].
    rewrite Hdec. reflexivity.
Qed.

End Libraries.

Lemma generate_sql_encrypts_once_witness :
  fst (generate_sql_for_api_key
         Standin.b64encode Standin.b64decode Standin.utf8_encode
         Standin.aesgcm_encrypt "sk-live-123" "gemini"
         (EncryptionModule.fresh None))
  = ([error_encrypting key_not_found], exited 1) /\
  snd (fst (generate_sql_for_api_key
              Standin.b64encode Standin.b64decode Standin.utf8_encode
              Standin.aesgcm_encrypt "sk-live-123" "gemini"
              (EncryptionModule.fresh
                 (Some EncryptionModule.key_text))))
  = returned.
Proof.
  split.
  - rewrite (proj1 (generate_sql_encrypts_once
                      Standin.b64encode Standin.b64decode
                      Standin.utf8_encode Standin.utf8_decode
                      Standin.aesgcm_encrypt Standin.aesgcm_decrypt
                      standin_b64_round_trip standin_b64_nonempty
                      standin_utf8_round_trip standin_aesgcm_round_trip
                      (EncryptionModule.fresh None)
                      "sk-live-123" "gemini" eq_refl)
               key_not_found eq_refl).
    reflexivity.
  - destruct (proj2 (proj2 (proj2 (generate_sql_encrypts_once
                      Standin.b64encode Standin.b64decode
                      Standin.utf8_encode Standin.utf8_decode
                      Standin.aesgcm_encrypt Standin.aesgcm_decrypt
                      standin_b64_round_trip standin_b64_nonempty
                      standin_utf8_round_trip standin_aesgcm_round_trip
                      (EncryptionModule.fresh
                         (Some EncryptionModule.key_text))
                      "sk-live-123" "gemini" eq_refl)))
               {| key := list_byte_of_string EncryptionModule.key_text |}
               _ eq_refl ltac:(discriminate) eq_refl eq_refl)
      as (c & Hret & _).
    exact Hret.
Defined.

End AddApiKeyProps.
